(** * Site-intelligence crawl pipeline: consensus scoring, page
      classification and URL-pattern induction

    A shallow embedding of
      - [platform/backend/src/crawler/consensus-scorer.ts]
      - [platform/backend/src/crawler/page-classifier.ts]
      - [crawler/url-registry-builder.ts]
      - the functions of [crawler/crawl-engine.ts] that consume their
        results ([mergePageTypeRules], [deduplicatePatterns],
        [pickDiverseProducts], [getIntentsForPageType], the schema picks)
    together with the properties the specification states about them and
    further properties of the same code.

    Conventions of the embedding:
      - JavaScript strings are [string]s of 8-bit characters (URL path names
        and CSS selectors are ASCII);
      - a [Record<string, T>] object used as a dictionary is a [gmap string T],
        a [Set<string>] is a [gset string], a [Map] whose iteration order is
        observable is an association list in insertion order;
      - JavaScript numbers are exact rationals ([Q]); counters are [nat];
      - the browser (Playwright) is an oracle handed to the functions that
        drive it;
      - a call that may throw returns an [option], [None] standing for the
        exception;
      - log callbacks have no effect on any returned value and are omitted. *)

From stdpp Require Import gmap strings list.
From Stdlib Require Import Ascii ZArith QArith Qround Lia Lqa Sorting.Sorted.

Close Scope Q_scope.
Local Open Scope list_scope.

(* ===================================================================== *)
(** ** String primitives of the host language *)
(* ===================================================================== *)

Module JsString.

Definition chars (s : string) : list ascii := String.list_ascii_of_string s.
Definition of_chars (l : list ascii) : string := String.string_of_list_ascii l.

Definition code (c : ascii) : nat := nat_of_ascii c.

Definition in_range (lo hi c : ascii) : bool :=
  Nat.leb (code lo) (code c) && Nat.leb (code c) (code hi).

Definition is_upper (c : ascii) : bool := in_range "A" "Z" c.
Definition is_lower (c : ascii) : bool := in_range "a" "z" c.
Definition is_digit (c : ascii) : bool := in_range "0" "9" c.
Definition is_letter (c : ascii) : bool := is_upper c || is_lower c.

Definition lower_char (c : ascii) : ascii :=
  if is_upper c then ascii_of_nat (code c + 32) else c.
Definition upper_char (c : ascii) : ascii :=
  if is_lower c then ascii_of_nat (code c - 32) else c.

(** [s.toLowerCase()] *)
Definition toLowerCase (s : string) : string := of_chars (map lower_char (chars s)).

(** [s.length] *)
Definition length (s : string) : nat := String.length s.

(** Truthiness of a string: the empty string is falsy. *)
Definition truthy (s : string) : bool :=
  match s with EmptyString => false | _ => true end.

Fixpoint starts_with (p s : list ascii) : bool :=
  match p, s with
  | [], _ => true
  | a :: p', b :: s' => Ascii.eqb a b && starts_with p' s'
  | _ :: _, [] => false
  end.

Fixpoint includes_chars (p s : list ascii) : bool :=
  starts_with p s ||
  match s with
  | [] => false
  | _ :: s' => includes_chars p s'
  end.

(** [s.includes(p)] *)
Definition includes (s p : string) : bool := includes_chars (chars p) (chars s).

(** [s.split(sep)] for a one-character separator. *)
Fixpoint split_chars (sep : ascii) (cur : list ascii) (s : list ascii) : list string :=
  match s with
  | [] => [of_chars (rev cur)]
  | c :: s' =>
      if Ascii.eqb c sep then of_chars (rev cur) :: split_chars sep [] s'
      else split_chars sep (c :: cur) s'
  end.

Definition split (sep : ascii) (s : string) : list string :=
  split_chars sep [] (chars s).

(** [s.split('/').filter(Boolean)]: the non-empty path segments. *)
Definition segments (path : string) : list string :=
  List.filter truthy (split "/" path).

(** [xs.join(sep)] *)
Fixpoint join (sep : string) (xs : list string) : string :=
  match xs with
  | [] => EmptyString
  | [x] => x
  | x :: rest => x +:+ sep +:+ join sep rest
  end.

(** [xs.slice(0, n)] *)
Definition slice0 {A} (n : nat) (xs : list A) : list A := take n xs.

(** [xs.slice(0, -1)] *)
Definition drop_last {A} (xs : list A) : list A := take (List.length xs - 1) xs.

(** The double-quote character, for selector literals. *)
Definition dq : string := String "034" EmptyString.

(** Decimal rendering of a length, as in a template literal. *)
Definition digit_char (d : nat) : ascii := ascii_of_nat (48 + d).

Fixpoint decimal_aux (fuel n : nat) (acc : list ascii) : list ascii :=
  match fuel with
  | O => acc
  | S f =>
      let acc' := digit_char (n mod 10) :: acc in
      if Nat.eqb (n / 10) 0 then acc' else decimal_aux f (n / 10) acc'
  end.

Definition of_nat (n : nat) : string := of_chars (decimal_aux (S n) n []).

(** [parseInt(s, 10)] on a string of decimal digits; [None] stands for NaN. *)
Fixpoint parse_digits (acc : nat) (seen : bool) (s : list ascii) : option nat :=
  match s with
  | c :: s' =>
      if is_digit c then parse_digits (acc * 10 + (code c - 48)) true s'
      else if seen then Some acc else None
  | [] => if seen then Some acc else None
  end.

Definition parseInt (s : string) : option nat := parse_digits 0 false (chars s).

End JsString.

(* ===================================================================== *)
(** ** Regular expressions of the host language

    The fragment of ECMAScript regular expressions that the crawler writes
    as literals or builds as pattern strings: characters, identity escapes,
    [.], character classes with ranges and negation, groups, alternation,
    the anchors [^] and [$], and the greedy quantifiers [?], [*], [+],
    [{n}], [{n,}], [{n,m}].  Only [RegExp.prototype.test] is needed, so a
    backtracking matcher that answers whether some match exists suffices. *)
(* ===================================================================== *)

Module Regex.
Import JsString.

Inductive cset : Type :=
| CAny
| CChar (c : ascii)
| CClass (negated : bool) (ranges : list (ascii * ascii)).

Inductive re : Type :=
| Eps
| Chr (cs : cset)
| Bol
| Eol
| Seq (r1 r2 : re)
| Alt (r1 r2 : re)
| Star (r : re).

Definition is_line_terminator (c : ascii) : bool :=
  Nat.eqb (code c) 10 || Nat.eqb (code c) 13.

Definition cset_mem (cs : cset) (c : ascii) : bool :=
  match cs with
  | CAny => negb (is_line_terminator c)
  | CChar a => Ascii.eqb a c
  | CClass neg rs => xorb neg (existsb (fun r => in_range (fst r) (snd r) c) rs)
  end.

(** The iterations of a starred expression whose body is matched by
    [body]: greedy, and an iteration must consume input, so the length
    of the subject bounds their number. *)
Fixpoint star_loop
    (body : (nat -> list ascii -> bool) -> nat -> list ascii -> bool)
    (k : nat -> list ascii -> bool) (fuel : nat) (i : nat) (s : list ascii)
  {struct fuel} : bool :=
  match fuel with
  | O => k i s
  | S fuel' =>
      if body (fun i' s' => if Nat.ltb i i' then star_loop body k fuel' i' s' else false) i s
      then true
      else k i s
  end.

(** [m r k i s]: can [r] match a prefix of [s], which starts at offset [i]
    of the subject, so that the continuation [k] accepts what is left?
    The alternatives are tried in order and only as far as needed. *)
Fixpoint m (r : re) (k : nat -> list ascii -> bool) (i : nat) (s : list ascii)
  {struct r} : bool :=
  match r with
  | Eps => k i s
  | Chr cs =>
      match s with
      | c :: s' => if cset_mem cs c then k (S i) s' else false
      | [] => false
      end
  | Bol => if Nat.eqb i 0 then k i s else false
  | Eol => match s with [] => k i s | _ :: _ => false end
  | Seq r1 r2 => m r1 (fun i' s' => m r2 k i' s') i s
  | Alt r1 r2 => if m r1 k i s then true else m r2 k i s
  | Star r1 => star_loop (m r1) k (List.length s) i s
  end.

(** The continuations of a match with nothing after it, and of a match
    that must reach the end of the subject. *)
Definition accept_all : nat -> list ascii -> bool := fun _ _ => true.
Definition at_end : nat -> list ascii -> bool := fun i s => m Eol accept_all i s.

Definition match_at (r : re) (i : nat) (s : list ascii) : bool :=
  m r accept_all i s.

Fixpoint search (r : re) (i : nat) (s : list ascii) : bool :=
  if match_at r i s then true
  else match s with
       | [] => false
       | _ :: s' => search r (S i) s'
       end.

(** [r.test(s)] *)
Definition test (r : re) (s : string) : bool := search r 0 (chars s).

(** [r.test(s)] for [r] written with the [i] flag and no upper-case
    letter in its text: ignoring case is matching the lower-cased
    subject. *)
Definition test_i (r : re) (s : string) : bool := test r (toLowerCase s).

(** *** Quantifiers *)

Fixpoint power (n : nat) (r : re) (tail : re) : re :=
  match n with
  | O => tail
  | S n' => Seq r (power n' r tail)
  end.

Definition opt (r : re) : re := Alt r Eps.

Inductive quant : Type :=
| QOpt | QStar | QPlus
| QExact (n : nat) | QAtLeast (n : nat) | QBetween (n k : nat).

Definition apply_quant (q : quant) (r : re) : re :=
  match q with
  | QOpt => opt r
  | QStar => Star r
  | QPlus => Seq r (Star r)
  | QExact n => power n r Eps
  | QAtLeast n => power n r (Star r)
  | QBetween n k => power n r (power (k - n) (opt r) Eps)
  end.

(** *** Parsing a pattern string *)

Fixpoint span_digits (s : list ascii) : list ascii * list ascii :=
  match s with
  | c :: s' =>
      if is_digit c then let '(ds, rest) := span_digits s' in (c :: ds, rest)
      else ([], s)
  | [] => ([], [])
  end.

Definition number (ds : list ascii) : nat :=
  fold_left (fun acc c => acc * 10 + (code c - 48)) ds 0.

Definition parse_braces (s : list ascii) : option (quant * list ascii) :=
  let '(ds, r1) := span_digits s in
  match ds, r1 with
  | [], _ => None
  | _, c :: r2 =>
      if Ascii.eqb c "}" then Some (QExact (number ds), r2)
      else if Ascii.eqb c "," then
        let '(es, r3) := span_digits r2 in
        match r3 with
        | d :: r4 =>
            if Ascii.eqb d "}" then
              Some (match es with
                    | [] => QAtLeast (number ds)
                    | _ => QBetween (number ds) (number es)
                    end, r4)
            else None
        | [] => None
        end
      else None
  | _, [] => None
  end.

Definition parse_quant (s : list ascii) : option (option quant * list ascii) :=
  match s with
  | c :: s' =>
      if Ascii.eqb c "?" then Some (Some QOpt, s')
      else if Ascii.eqb c "*" then Some (Some QStar, s')
      else if Ascii.eqb c "+" then Some (Some QPlus, s')
      else if Ascii.eqb c "{" then
        '(q, rest) ← parse_braces s'; Some (Some q, rest)
      else Some (None, s)
  | [] => Some (None, [])
  end.

Definition digit_ranges : list (ascii * ascii) := [("0", "9")]%char.
Definition word_ranges : list (ascii * ascii) :=
  [("a", "z"); ("A", "Z"); ("0", "9"); ("_", "_")]%char.
Definition space_ranges : list (ascii * ascii) :=
  [(" ", " "); ("009", "013")]%char.

(** The escapes of the fragment: [\d], [\w], [\s], and the identity escape
    of a character that is neither a letter nor a digit. *)
Definition escape_ranges (c : ascii) : option (list (ascii * ascii)) :=
  if Ascii.eqb c "d" then Some digit_ranges
  else if Ascii.eqb c "w" then Some word_ranges
  else if Ascii.eqb c "s" then Some space_ranges
  else if is_letter c || is_digit c then None
  else Some [(c, c)].

Fixpoint parse_class (s : list ascii) (acc : list (ascii * ascii))
  : option (list (ascii * ascii) * list ascii) :=
  match s with
  | [] => None
  | c :: t =>
      if Ascii.eqb c "]" then Some (rev acc, t)
      else if Ascii.eqb c "\" then
        match t with
        | e :: t' => rs ← escape_ranges e; parse_class t' (rev rs ++ acc)
        | [] => None
        end
      else
        match t with
        | d :: hi :: t' =>
            if Ascii.eqb d "-" && negb (Ascii.eqb hi "]") then
              if Ascii.eqb hi "\" then None
              else parse_class t' ((c, hi) :: acc)
            else parse_class t ((c, c) :: acc)
        | _ => parse_class t ((c, c) :: acc)
        end
  end.

Definition build_seq (terms : list re) : re :=
  match terms with
  | [] => Eps
  | t :: ts => fold_left Seq ts t
  end.

Definition build_alt (alts : list (list re)) : re :=
  match alts with
  | [] => Eps
  | a :: rest => fold_left (fun acc b => Alt acc (build_seq b)) rest (build_seq a)
  end.

Definition push_term (t : re) (alts : list (list re)) : list (list re) :=
  match alts with
  | [] => [[t]]
  | a :: rest => (t :: a) :: rest
  end.

Definition skip_non_capturing (s : list ascii) : list ascii :=
  match s with
  | a :: b :: s' => if Ascii.eqb a "?" && Ascii.eqb b ":" then s' else s
  | _ => s
  end.

(** One atom; [rec] parses the disjunction inside a group.  The result
    says whether the atom may take a quantifier. *)
Definition parse_atom
    (rec : list ascii -> option (list (list re) * list ascii))
    (c : ascii) (t : list ascii) : option (re * bool * list ascii) :=
  if Ascii.eqb c "(" then
    '(alts, rest) ← rec (skip_non_capturing t);
    match rest with
    | d :: rest' => if Ascii.eqb d ")" then Some (build_alt alts, true, rest') else None
    | [] => None
    end
  else if Ascii.eqb c "[" then
    match t with
    | d :: t' =>
        if Ascii.eqb d "^" then
          '(rs, rest) ← parse_class t' []; Some (Chr (CClass true rs), true, rest)
        else
          '(rs, rest) ← parse_class t []; Some (Chr (CClass false rs), true, rest)
    | [] => None
    end
  else if Ascii.eqb c "\" then
    match t with
    | e :: t' => rs ← escape_ranges e;
                 Some (match rs with
                       | [(lo, _)] => if Ascii.eqb e lo then Chr (CChar e)
                                      else Chr (CClass false rs)
                       | _ => Chr (CClass false rs)
                       end, true, t')
    | [] => None
    end
  else if Ascii.eqb c "." then Some (Chr CAny, true, t)
  else if Ascii.eqb c "^" then Some (Bol, false, t)
  else if Ascii.eqb c "$" then Some (Eol, false, t)
  else if Ascii.eqb c "*" || Ascii.eqb c "+" || Ascii.eqb c "?"
          || Ascii.eqb c "{" || Ascii.eqb c "}" || Ascii.eqb c "]" then None
  else Some (Chr (CChar c), true, t).

Fixpoint parse_alts (fuel : nat) (s : list ascii) {struct fuel}
  : option (list (list re) * list ascii) :=
  match fuel with
  | O => None
  | S f =>
      match s with
      | [] => Some ([[]], [])
      | c :: t =>
          if Ascii.eqb c ")" then Some ([[]], s)
          else if Ascii.eqb c "|" then
            '(alts, rest) ← parse_alts f t; Some ([] :: alts, rest)
          else
            '(atom, quantifiable, s1) ← parse_atom (parse_alts f) c t;
            '(q, s2) ← parse_quant s1;
            term ← match q with
                   | None => Some atom
                   | Some q' => if quantifiable : bool then Some (apply_quant q' atom) else None
                   end;
            '(alts, rest) ← parse_alts f s2;
            Some (push_term term alts, rest)
      end
  end.

(** [new RegExp(p)]; [None] stands for the [SyntaxError] (or for a
    pattern outside the fragment). *)
Definition compile (p : string) : option re :=
  let s := chars p in
  match parse_alts (S (List.length s)) s with
  | Some (alts, []) => Some (build_alt alts)
  | _ => None
  end.

(** The character class [[.*+?^${}()|[\]\\]]. *)
Definition is_special (c : ascii) : bool :=
  existsb (Ascii.eqb c) (chars ".*+?^${}()|[]\").

(** [s.replace(/[.*+?^${}()|[\]\\]/g, '\\$&')]: a backslash goes before
    every character of the class. *)
Definition escape_specials (s : string) : string :=
  of_chars (flat_map (fun c => if is_special c then ["\"%char; c] else [c]) (chars s)).

Definition never : re := Chr (CClass false []).

(** A regular-expression literal of the source text. *)
Definition literal (p : string) : re := default never (compile p).

(** [new RegExp(p).test(s)], [false] when [p] does not compile. *)
Definition pattern_test (p s : string) : bool :=
  match compile p with
  | Some r => test r s
  | None => false
  end.

End Regex.

(* ===================================================================== *)
(** ** shared-types (site-config.ts) *)
(* ===================================================================== *)

Module SharedTypes.

Inductive PageTypeKey : Type := Home | Product | Category | Cart | Search | Other.

Definition PageTypeKey_eqb (a b : PageTypeKey) : bool :=
  match a, b with
  | Home, Home | Product, Product | Category, Category
  | Cart, Cart | Search, Search | Other, Other => true
  | _, _ => false
  end.

(** The string behind each member of the union type. *)
Definition PageTypeKey_name (t : PageTypeKey) : string :=
  match t with
  | Home => "home" | Product => "product" | Category => "category"
  | Cart => "cart" | Search => "search" | Other => "other"
  end.

Record PageTypeRule : Type := {
  urlPattern : string;
  domSignature : option string;
  jsonLdType : option string;
  rule_label : string;
  rule_confidence : Z
}.

Record NavEdge : Type := {
  label : string;
  href : string;
  nav_selector : option string;
  targetPageType : PageTypeKey
}.

Record SelectorEntry : Type := {
  selectors : list string;
  confidence : Z;
  sampleCount : nat;
  exampleValue : option string
}.

Record ProductUrl : Type := {
  name : string;
  url : string;
  category : string
}.

Record CategoryUrl : Type := {
  cat_name : string;
  cat_url : string
}.

Record ValidatedPattern : Type := {
  pageType : PageTypeKey;
  pattern : string;
  examples : list string
}.

Record UrlRegistry : Type := {
  products : list ProductUrl;
  categories : list CategoryUrl;
  validatedPatterns : list ValidatedPattern
}.

End SharedTypes.

(* ===================================================================== *)
(** ** The URL class of the host

    [new URL(s)] is taken as a parameter by the functions below.  [parse]
    is the instance used on concrete inputs: absolute http(s) URLs
    [scheme://host/path?query#fragment] whose path needs neither
    percent-encoding nor dot-segment removal. *)
(* ===================================================================== *)

Module WebUrl.
Import JsString.

Record URL : Type := {
  origin : string;
  pathname : string;
  search : string
}.

Fixpoint span (p : ascii -> bool) (s : list ascii) : list ascii * list ascii :=
  match s with
  | c :: s' => if p c then let '(a, b) := span p s' in (c :: a, b) else ([], s)
  | [] => ([], [])
  end.

Definition is_one_of (set : string) (c : ascii) : bool :=
  existsb (Ascii.eqb c) (chars set).

Definition parse (s : string) : option URL :=
  let '(scheme, r1) := span is_letter (chars s) in
  let scheme := toLowerCase (of_chars scheme) in
  if starts_with (chars "://") r1 && (String.eqb scheme "http" || String.eqb scheme "https")
  then
    let '(host, r2) := span (fun c => negb (is_one_of "/?#" c)) (drop 3 r1) in
    let '(path, r3) := span (fun c => negb (is_one_of "?#" c)) r2 in
    let '(query, _) := span (fun c => negb (is_one_of "#" c)) r3 in
    match host with
    | [] => None
    | _ :: _ =>
        Some {| origin := scheme +:+ "://" +:+ toLowerCase (of_chars host);
                pathname := match path with [] => "/" | _ :: _ => of_chars path end;
                search := match query with [_] => EmptyString | _ => of_chars query end |}
    end
  else None.

End WebUrl.

(* ===================================================================== *)
(** ** consensus-scorer.ts *)
(* ===================================================================== *)

Module ConsensusScorer.
Import JsString SharedTypes.

Inductive VerifyMode : Type := VExists | VText | VPrice | VImage | VCount.

(** selector must have real content on >= 1/3 of samples *)
Definition CONTENT_THRESHOLD : Q := 0.34%Q.
(** max selectors kept per intent *)
Definition MAX_FALLBACKS : nat := 5.

(** *** Stability multiplier *)

Definition RE_ID : Regex.re := Regex.literal "^#[a-z][a-z0-9-]+".
Definition RE_KEBAB_CLASS : Regex.re := Regex.literal "\.[a-z][a-z0-9]*(?:-[a-z][a-z0-9]+)+".
Definition RE_TAG_ATTR : Regex.re := Regex.literal "^(button|input|select|textarea|a)\[".
Definition RE_CAMEL_CLASS : Regex.re := Regex.literal "\.[a-z][a-z]*[A-Z][a-zA-Z]+".
Definition RE_HASH_CLASS : Regex.re := Regex.literal "\.[a-zA-Z0-9_-]{12,}".

Definition stabilityScore (sel : string) : Q :=
  if includes sel "data-testid" || includes sel "data-test-id" then 1.0%Q
  else if Regex.test RE_ID sel || includes sel "[id=" then 0.95%Q
  else if includes sel "aria-label" || includes sel "[role="
          || includes sel ("[role=" +:+ dq) then 0.85%Q
  else if includes sel "itemProp" || includes sel "itemprop" then 0.80%Q
  else if includes sel "[name=" then 0.75%Q
  else if Regex.test RE_KEBAB_CLASS sel then 0.70%Q
  else if Regex.test RE_TAG_ATTR sel then 0.65%Q
  else if Regex.test RE_CAMEL_CLASS sel then 0.55%Q
  else if Regex.test RE_HASH_CLASS sel then 0.20%Q
  else 0.50%Q.

(** *** Per-page probe result *)

(** Result from probing one selector on one page *)
Record ProbeResult : Type := {
  selector : string;
  matched : bool;
  verified : bool;
  probe_exampleValue : option string
}.

(** All probe results for all intents on one page *)
Abbreviation PageProbeResults := (gmap string (list ProbeResult)).

(** *** Consensus scoring *)

Record Stats : Type := {
  matchCount : nat;
  contentCount : nat;
  exampleValues : list string
}.

(** The [selectorStats] map, in insertion order. *)
Abbreviation StatsMap := (list (string * Stats)).

Definition stats_has (stats : StatsMap) (sel : string) : bool :=
  existsb (fun e => String.eqb (fst e) sel) stats.

Definition stats_update (sel : string) (f : Stats -> Stats) (stats : StatsMap) : StatsMap :=
  map (fun e => if String.eqb (fst e) sel then (fst e, f (snd e)) else e) stats.

Definition bump (probe : ProbeResult) (st : Stats) : Stats :=
  {| matchCount := if matched probe then S (matchCount st) else matchCount st;
     contentCount := if verified probe then S (contentCount st) else contentCount st;
     exampleValues :=
       if verified probe then
         match probe_exampleValue probe with
         | Some v => if truthy v then exampleValues st ++ [v] else exampleValues st
         | None => exampleValues st
         end
       else exampleValues st |}.

(** One iteration of [for (const probe of probes)]. *)
Definition record_probe (stats : StatsMap) (probe : ProbeResult) : StatsMap :=
  let stats' :=
    if stats_has stats (selector probe) then stats
    else stats ++ [(selector probe,
                    {| matchCount := 0; contentCount := 0; exampleValues := [] |})] in
  stats_update (selector probe) (bump probe) stats'.

(** [pageResult[intent] ?? []] *)
Definition probes_of (pageResult : PageProbeResults) (intent : string) : list ProbeResult :=
  default [] (pageResult !! intent).

Definition selectorStats (allPageResults : list PageProbeResults) (intent : string)
  : StatsMap :=
  fold_left (fun stats pageResult => fold_left record_probe (probes_of pageResult intent) stats)
            allPageResults [].

Definition samplesContaining (allPageResults : list PageProbeResults) (intent : string)
  : nat :=
  List.length (List.filter (fun pageResult => existsb matched (probes_of pageResult intent))
                           allPageResults).

(** [contentCount / sampleCount] *)
Definition ratio (count total : nat) : Q :=
  (inject_Z (Z.of_nat count) / inject_Z (Z.of_nat total))%Q.

Definition passes (sampleCount : nat) (e : string * Stats) : bool :=
  Qle_bool CONTENT_THRESHOLD (ratio (contentCount (snd e)) sampleCount).

(** The comparator handed to [sort]: content count DESC, then stability
    score DESC. *)
Definition compareEntries (a b : string * Stats) : Q :=
  let diff := (Z.of_nat (contentCount (snd b)) - Z.of_nat (contentCount (snd a)))%Z in
  if negb (Z.eqb diff 0) then inject_Z diff
  else (stabilityScore (fst b) - stabilityScore (fst a))%Q.

(** [Array.prototype.sort] is stable: an element goes before the first
    element of the sorted rest that the comparator does not put before it. *)
Fixpoint insert_sorted {A} (cmp : A -> A -> Q) (x : A) (l : list A) : list A :=
  match l with
  | [] => [x]
  | y :: l' => if Qle_bool (cmp x y) 0 then x :: y :: l' else y :: insert_sorted cmp x l'
  end.

Definition sort {A} (cmp : A -> A -> Q) (l : list A) : list A :=
  fold_right (insert_sorted cmp) [] l.

(** [Math.round] *)
Definition Math_round (x : Q) : Z := Qfloor (x + (1 # 2))%Q.

(** The candidates that pass the content filter, before ranking. *)
Definition survivors (allPageResults : list PageProbeResults) (intent : string) : StatsMap :=
  List.filter (passes (List.length allPageResults)) (selectorStats allPageResults intent).

Definition qualified (allPageResults : list PageProbeResults) (intent : string) : StatsMap :=
  slice0 MAX_FALLBACKS (sort compareEntries (survivors allPageResults intent)).

(** The body of [for (const intent of intents)]; [None] is [continue]. *)
Definition scoreIntent (allPageResults : list PageProbeResults) (intent : string)
  : option SelectorEntry :=
  let sampleCount := List.length allPageResults in
  match qualified allPageResults intent with
  | [] => None
  | ((bestSel, bestStats) :: _) as q =>
      let confidence :=
        Math_round (ratio (contentCount bestStats) sampleCount * 100 * stabilityScore bestSel)%Q in
      Some {| selectors := map fst q;
              confidence := Z.min 100 confidence;
              sampleCount := samplesContaining allPageResults intent;
              exampleValue := head (exampleValues bestStats) |}
  end.

(** Collect all intents *)
Definition collectIntents (allPageResults : list PageProbeResults) : gset string :=
  fold_left (fun intents pageResult => intents ∪ dom pageResult) allPageResults ∅.

(** [output[intent] = entry], unless the intent was skipped. *)
Definition record_intent (allPageResults : list PageProbeResults)
    (output : gmap string SelectorEntry) (intent : string) : gmap string SelectorEntry :=
  match scoreIntent allPageResults intent with
  | None => output
  | Some entry => <[intent := entry]> output
  end.

Definition scoreConsensus
    (allPageResults : list PageProbeResults)
    (verifyModes : gmap string VerifyMode) : gmap string SelectorEntry :=
  let sampleCount := List.length allPageResults in
  if Nat.eqb sampleCount 0 then ∅
  else
    fold_left (record_intent allPageResults)
              (elements (collectIntents allPageResults)) ∅.

End ConsensusScorer.

(* ===================================================================== *)
(** ** page-classifier.ts *)
(* ===================================================================== *)

Module PageClassifier.
Import JsString SharedTypes.

(** A value of a JSON document, as far as the classifier can tell one
    from another: a string, or something that is no string (a number, a
    boolean, [null], an object or an array). *)
Inductive JsonValue : Type :=
| JString (s : string)
| JNumber (n : Z)
| JBool (b : bool)
| JNull
| JCompound.

(** What a Playwright page answers: the array that [extractJsonLdTypes]
    reads (it returns the empty array on any error) and, per selector,
    [page.locator(sel).count()], [None] when the call throws.

    [extractJsonLdTypes] pushes an [@type] that is a string, and the
    members of an [@type] that is an array; the members are cast to
    [string[]] and not looked at, so any JSON value may be among them. *)
Record Page : Type := {
  jsonLdTypes : list JsonValue;
  locator_count : string -> option nat
}.

(** [t.toLowerCase()] is there for a string only; on every other value
    the call throws a [TypeError], for which [None] stands. *)
Definition as_string (v : JsonValue) : option string :=
  match v with
  | JString s => Some s
  | _ => None
  end.

(** The members of an array, when all of them are strings. *)
Fixpoint strings_of (vs : list JsonValue) : option (list string) :=
  match vs with
  | [] => Some []
  | v :: rest =>
      match as_string v, strings_of rest with
      | Some s, Some ss => Some (s :: ss)
      | _, _ => None
      end
  end.

Inductive Method : Type := ByJsonld | ByUrl | ByDom | ByFallback.

Record ClassificationResult : Type := {
  type : PageTypeKey;
  rule : PageTypeRule;
  method : Method
}.

(** Map JSON-LD @type values to PageTypeKey. *)
Definition jsonLdTypeToPageType (types : list string) : option PageTypeKey :=
  let normalized := map toLowerCase types in
  if existsb (fun t => String.eqb t "product" || String.eqb t "offer"
                       || String.eqb t "individualoffer") normalized
  then Some Product
  else if existsb (fun t => String.eqb t "itemlist" || String.eqb t "collectionpage"
                            || String.eqb t "productcollection"
                            || String.eqb t "offeraggregate"
                            || String.eqb t "aggregateoffer") normalized
  then Some Category
  else if existsb (fun t => String.eqb t "order" || String.eqb t "cart"
                            || String.eqb t "checkout") normalized
  then Some Cart
  else if existsb (fun t => String.eqb t "website" || String.eqb t "webpage"
                            || String.eqb t "webapplication") normalized
  then Some Home
  else if existsb (fun t => String.eqb t "searchresultspage") normalized
  then Some Search
  else None.

(** [jsonLdTypeToPageType] on the array that [extractJsonLdTypes] hands
    it.  Its first statement is [types.map(t => t.toLowerCase())], which
    throws at a member that is no string; [None] stands for the
    [TypeError], [Some] for what the function returns. *)
Definition jsonLdTypeToPageType_run (types : list JsonValue) : option (option PageTypeKey) :=
  jsonLdTypeToPageType <$> strings_of types.

Definition RE_CART : Regex.re := Regex.literal "\/(cart|basket|bag|trolley)(\/|$)".
Definition RE_SEARCH : Regex.re := Regex.literal "\/(search|find|results?)(\/|$)".
Definition RE_UTILITY : Regex.re :=
  Regex.literal "\/(login|signin|signup|register|account|profile|orders?|wishlist|checkout|payment|thank-you|confirmation|404|about|blog|faq|policy|policies|terms|privacy|contact|careers|press|investor)".
Definition RE_SKU_RUN : Regex.re := Regex.literal "[A-Z0-9]{4,}".
Definition RE_LONG_SLUG : Regex.re := Regex.literal "^[a-z0-9][a-z0-9-]{14,}$".

Definition DOM_SIGNATURES : list (PageTypeKey * list string) :=
  [ (Product,
     [ "button[class*=" +:+ dq +:+ "add-to-cart" +:+ dq +:+ "]";
       "button[class*=" +:+ dq +:+ "addToCart" +:+ dq +:+ "]";
       "button[name=" +:+ dq +:+ "add" +:+ dq +:+ "]";
       "[data-testid=" +:+ dq +:+ "add-to-cart" +:+ dq +:+ "]";
       "[itemType*=" +:+ dq +:+ "Product" +:+ dq +:+ "]" ]);
    (Category,
     [ "[class*=" +:+ dq +:+ "product-card" +:+ dq +:+ "]";
       "[class*=" +:+ dq +:+ "productCard" +:+ dq +:+ "]";
       "[class*=" +:+ dq +:+ "product-grid" +:+ dq +:+ "]";
       "[data-testid=" +:+ dq +:+ "product-card" +:+ dq +:+ "]";
       "[class*=" +:+ dq +:+ "product-listing" +:+ dq +:+ "]" ]);
    (Cart,
     [ "[class*=" +:+ dq +:+ "cart-item" +:+ dq +:+ "]";
       "[class*=" +:+ dq +:+ "cartItem" +:+ dq +:+ "]";
       "[data-testid=" +:+ dq +:+ "cart-item" +:+ dq +:+ "]";
       "button[class*=" +:+ dq +:+ "checkout" +:+ dq +:+ "]" ]);
    (Search,
     [ "[class*=" +:+ dq +:+ "search-results" +:+ dq +:+ "]";
       "[class*=" +:+ dq +:+ "searchResults" +:+ dq +:+ "]";
       "[data-testid=" +:+ dq +:+ "search-results" +:+ dq +:+ "]" ]);
    (Home,
     [ "[class*=" +:+ dq +:+ "hero-banner" +:+ dq +:+ "]";
       "[class*=" +:+ dq +:+ "heroBanner" +:+ dq +:+ "]";
       "[class*=" +:+ dq +:+ "homepage" +:+ dq +:+ "]";
       "[class*=" +:+ dq +:+ "home-page" +:+ dq +:+ "]" ]);
    (Other, []) ].

Definition capitalize (s : string) : string :=
  match s with
  | EmptyString => EmptyString
  | String c rest => String (upper_char c) rest
  end.

Section WithUrl.
Variable new_URL : string -> option WebUrl.URL.

(** Score a URL for each page type without vertical-specific keywords. *)
Definition scoreUrlByType (urlStr : string) : PageTypeKey :=
  match new_URL urlStr with
  | None => Other
  | Some url =>
      let pathname := WebUrl.pathname url in
      let search := WebUrl.search url in
      let lower := toLowerCase pathname in
      let parts := segments pathname in
      if Regex.test RE_CART lower then Cart
      else if Regex.test RE_SEARCH lower || includes search "q="
              || includes search "query=" then Search
      else if Regex.test_i RE_UTILITY lower then Other
      else if Nat.eqb (List.length parts) 0 then Home
      else if Nat.leb 3 (List.length parts) then Product
      else if Nat.leb 2 (List.length parts)
              && Regex.test RE_SKU_RUN (List.last parts EmptyString) then Product
      else if Nat.leb 2 (List.length parts)
              && Regex.test RE_LONG_SLUG (List.last parts EmptyString) then Product
      else if Nat.eqb (List.length parts) 1 then Category
      else if Nat.eqb (List.length parts) 2 then Category
      else Other
  end.

Fixpoint first_positive (page : Page) (sels : list string) : bool :=
  match sels with
  | [] => false
  | sel :: rest =>
      match locator_count page sel with
      | Some (S _) => true
      | _ => first_positive page rest
      end
  end.

Fixpoint detect_in (page : Page) (table : list (PageTypeKey * list string))
  : option PageTypeKey :=
  match table with
  | [] => None
  | (t, sels) :: rest =>
      if first_positive page sels then Some t else detect_in page rest
  end.

Definition detectDomType (page : Page) : option PageTypeKey :=
  detect_in page DOM_SIGNATURES.

(** Build a regex URL pattern from a confirmed page URL *)
Definition buildUrlPattern (urlStr : string) : string :=
  match new_URL urlStr with
  | None => ".*"
  | Some url =>
      let parts := segments (WebUrl.pathname url) in
      if Nat.eqb (List.length parts) 0 then "^\/?$"
      else
        let escaped := map Regex.escape_specials (drop_last parts) in
        let prefix :=
          if Nat.ltb 0 (List.length escaped) then "\/" +:+ join "\/" escaped else EmptyString in
        prefix +:+ "\/[^/]+"
  end.

(** [None] stands for a rejected promise: the [TypeError] of
    [jsonLdTypeToPageType] is caught nowhere in [classifyPage]. *)
Definition classifyPage (page : Page) (urlStr : string) : option ClassificationResult :=
  let viaUrl :=
    let urlType := scoreUrlByType urlStr in
    if negb (PageTypeKey_eqb urlType Other) then
      {| type := urlType; method := ByUrl;
         rule := {| urlPattern := buildUrlPattern urlStr; domSignature := None;
                    jsonLdType := None;
                    rule_label := capitalize (PageTypeKey_name urlType);
                    rule_confidence := 70 |} |}
    else
      match detectDomType page with
      | Some domType =>
          {| type := domType; method := ByDom;
             rule := {| urlPattern := buildUrlPattern urlStr; domSignature := None;
                        jsonLdType := None;
                        rule_label := capitalize (PageTypeKey_name domType);
                        rule_confidence := 55 |} |}
      | None =>
          {| type := Other; method := ByFallback;
             rule := {| urlPattern := ".*"; domSignature := None; jsonLdType := None;
                        rule_label := "Other"; rule_confidence := 0 |} |}
      end in
  if Nat.ltb 0 (List.length (jsonLdTypes page)) then
    match jsonLdTypeToPageType_run (jsonLdTypes page) with
    | None => None
    | Some (Some t) =>
        Some {| type := t; method := ByJsonld;
                rule := {| urlPattern := buildUrlPattern urlStr; domSignature := None;
                           jsonLdType := head (jsonLdTypes page) ≫= as_string;
                           rule_label := capitalize (PageTypeKey_name t);
                           rule_confidence := 95 |} |}
    | Some None => Some viaUrl
    end
  else Some viaUrl.

End WithUrl.

End PageClassifier.

(* ===================================================================== *)
(** ** url-registry-builder.ts *)
(* ===================================================================== *)

Module UrlRegistryBuilder.
Import JsString SharedTypes.

(** *** The browser, as the builder sees it *)

(** A link that [extractProductUrls] settles on inside the page: the text
    it keeps as the name and the link's resolved URL. *)
Record ExtractedLink : Type := {
  link_name : string;
  link_url : WebUrl.URL
}.

(** One turn of the pagination loop: whether a visible control was clicked
    and what the page lists afterwards; [None] is a thrown error. *)
Record PaginationStep : Type := {
  clicked : option bool;
  step_links : option (list ExtractedLink)
}.

(** A category page once loaded and scrolled. *)
Record CategoryPage : Type := {
  page_links : option (list ExtractedLink);
  page_hasMore : option bool;
  page_next : nat -> PaginationStep
}.

Record RegistryBuildOptions : Type := {
  opt_browser : CategoryUrl -> CategoryPage;
  opt_origin : string;
  opt_domain : string;
  opt_mainNav : list NavEdge;
  opt_maxProductsPerCategory : option nat
}.

(** The two objects every visit mutates: [seenProductUrls] and [products]. *)
Record CrawlState : Type := {
  seenProductUrls : gset string;
  collected : list ProductUrl
}.

Definition push_product (p : ProductUrl) (st : CrawlState) : CrawlState :=
  {| seenProductUrls := seenProductUrls st ∪ {[ url p ]};
     collected := collected st ++ [p] |}.

(** [results.push({ name, url: u.origin + u.pathname, category })] *)
Definition extractProductUrls (links : list ExtractedLink) (categoryName : string)
  : list ProductUrl :=
  map (fun l => {| name := link_name l;
                   url := WebUrl.origin (link_url l) +:+ WebUrl.pathname (link_url l);
                   category := categoryName |}) links.

Definition RE_NON_PRODUCT : Regex.re :=
  Regex.literal "\/furniture-store\/|\/business\/|\/bulk-order|\/store\/|\/stores\/".
Definition RE_SKU_SEGMENT : Regex.re := Regex.literal "^[A-Z0-9]{4,}$".

Definition escapeRegex (s : string) : string := Regex.escape_specials s.

Record PathCluster : Type := {
  cluster_pattern : string;
  cluster_examples : list string
}.

(** *** clusterPaths *)

Abbreviation Groups := (list (string * list string)).

Definition groups_has (groups : Groups) (sig : string) : bool :=
  existsb (fun g => String.eqb (fst g) sig) groups.

Definition groups_push (sig path : string) (groups : Groups) : Groups :=
  map (fun g => if String.eqb (fst g) sig then (fst g, snd g ++ [path]) else g) groups.

Definition group_path (groups : Groups) (path : string) : Groups :=
  let segs := segments path in
  match segs with
  | [] => groups
  | seg0 :: _ =>
      let sig := of_nat (List.length segs) +:+ ":" +:+ seg0 in
      let groups' := if groups_has groups sig then groups else groups ++ [(sig, [])] in
      groups_push sig path groups'
  end.

(** The members of [new Set(xs)], in insertion order. *)
Fixpoint distinct (xs : list string) : list string :=
  match xs with
  | [] => []
  | x :: rest => x :: List.filter (fun y => negb (String.eqb x y)) (distinct rest)
  end.

(** [memberPaths.map(p => p.split('/').filter(Boolean)[i]).filter(Boolean)] *)
Definition segment_values (memberPaths : list string) (i : nat) : list string :=
  List.filter truthy (omap (fun p => nth_error (segments p) i) memberPaths).

Definition pattern_part (memberPaths : list string) (i : nat) : string :=
  let segValues := segment_values memberPaths i in
  if Nat.eqb (List.length (distinct segValues)) 1 then
    escapeRegex (List.hd EmptyString segValues)
  else if forallb (Regex.test RE_SKU_SEGMENT) segValues then "[A-Z0-9]{4,}"
  else "[^/]+".

Definition cluster_of_group (g : string * list string) : option PathCluster :=
  let '(sig, memberPaths) := g in
  if Nat.ltb (List.length memberPaths) 2 then None
  else
    let depthStr := List.hd EmptyString (split ":" sig) in
    let depth := default 0 (parseInt depthStr) in
    let patternParts := map (pattern_part memberPaths) (seq 0 depth) in
    Some {| cluster_pattern := "\/" +:+ join "\/" patternParts;
            cluster_examples := slice0 5 memberPaths |}.

(** [pat.match(/\\\/([^\\]+)/)?.[1]]: at the leftmost backslash-slash
    that a character other than a backslash follows, the longest run of
    such characters. *)
Definition not_backslash (c : ascii) : bool := negb (Ascii.eqb c "\").

Fixpoint first_capture_chars (s : list ascii) : option (list ascii) :=
  match s with
  | a :: t =>
      match t with
      | b :: c :: _ =>
          if Ascii.eqb a "\" && Ascii.eqb b "/" && not_backslash c
          then Some (fst (WebUrl.span not_backslash (List.tl t)))
          else first_capture_chars t
      | _ => None
      end
  | [] => None
  end.

Definition first_capture (pat : string) : option string :=
  of_chars <$> first_capture_chars (chars pat).

(** [a === b] where either side may be [undefined]. *)
Definition strict_eq (a b : option string) : bool :=
  match a, b with
  | Some x, Some y => String.eqb x y
  | None, None => true
  | _, _ => false
  end.

Definition generic_pattern (path : string) : option string :=
  let segs := segments path in
  if Nat.leb 2 (List.length segs) then
    Some ("\/" +:+ escapeRegex (List.hd EmptyString segs)
          +:+ join EmptyString (map (fun _ => "\/[^/]+") (List.tl segs)))
  else None.

Definition singleton_cluster (paths : list string) (pat : string) : PathCluster :=
  {| cluster_pattern := pat;
     cluster_examples :=
       slice0 3 (List.filter (fun p => strict_eq (head (segments p)) (first_capture pat))
                             paths) |}.

(** Cluster URL paths into regex patterns. *)
Definition clusterPaths (paths : list string) : list PathCluster :=
  let groups := fold_left group_path paths [] in
  let clusters := omap cluster_of_group groups in
  if Nat.eqb (List.length clusters) 0 && Nat.ltb 0 (List.length paths) then
    let genericPatterns := distinct (omap generic_pattern paths) in
    clusters ++ map (singleton_cluster paths) genericPatterns
  else clusters.

Section WithHost.
Variable new_URL : string -> option WebUrl.URL.
(** [cleanProductName] rewrites the display name only. *)
Variable cleanProductName : string -> string.

(** [xs.map(x => { try { return new URL(x.url).pathname } catch
    { return null } }).filter(Boolean)] *)
Definition pathnames (urls : list string) : list string :=
  List.filter truthy (omap (fun u => WebUrl.pathname <$> new_URL u) urls).

Definition deriveUrlPatterns
    (products : list ProductUrl) (categories : list CategoryUrl) (origin : string)
  : list ValidatedPattern :=
  let home := [ {| pageType := Home; pattern := "^\/?$"; examples := [origin] |} ] in
  let productPaths := pathnames (map url products) in
  let productPatterns :=
    if Nat.ltb 0 (List.length productPaths) then
      map (fun pp => {| pageType := Product; pattern := cluster_pattern pp;
                        examples := slice0 3 (cluster_examples pp) |})
          (clusterPaths productPaths)
    else [] in
  let catPaths := pathnames (map cat_url categories) in
  let categoryPatterns :=
    if Nat.ltb 0 (List.length catPaths) then
      let singleSegCats :=
        List.filter (fun p => Nat.eqb (List.length (segments p)) 1) catPaths in
      let alternation :=
        if Nat.leb 3 (List.length singleSegCats) then
          let slugs :=
            map escapeRegex
                (List.filter truthy (map (fun p => List.hd EmptyString (segments p)) singleSegCats)) in
          [ {| pageType := Category;
               pattern := "^\/(" +:+ join "|" slugs +:+ ")\/?$";
               examples := slice0 5 singleSegCats |} ]
        else [] in
      let multiSegCats :=
        List.filter (fun p => Nat.ltb 1 (List.length (segments p))) catPaths in
      alternation ++
      map (fun cp => {| pageType := Category; pattern := cluster_pattern cp;
                        examples := slice0 3 (cluster_examples cp) |})
          (clusterPaths multiSegCats)
    else [] in
  home ++ productPatterns ++ categoryPatterns ++
  [ {| pageType := Cart; pattern := "^\/cart\/?"; examples := [origin +:+ "/cart"] |};
    {| pageType := Search; pattern := "^\/search";
       examples := [origin +:+ "/search-result"] |} ].

(** The filter applied to a category page's products after their names
    are cleaned. *)
Definition keep_product (p : ProductUrl) : bool :=
  match new_URL (url p) with
  | None => false
  | Some u =>
      if Regex.test_i RE_NON_PRODUCT (toLowerCase (WebUrl.pathname u)) then false
      else if negb (truthy (name p)) || Nat.ltb (JsString.length (name p)) 3 then false
      else true
  end.

(** [for (const p of pageProducts)] of [buildUrlRegistry]. *)
Fixpoint add_capped (cap : nat) (ps : list ProductUrl) (st : CrawlState) (added : nat)
  : CrawlState * nat :=
  match ps with
  | [] => (st, added)
  | p :: rest =>
      if bool_decide (url p ∈ seenProductUrls st) then add_capped cap rest st added
      else if Nat.leb cap added then (st, added)
      else add_capped cap rest (push_product p st) (S added)
  end.

(** [for (const p of pageProducts)] of [crawlPaginatedProducts]. *)
Fixpoint add_new (ps : list ProductUrl) (st : CrawlState) (added : nat)
  : CrawlState * nat :=
  match ps with
  | [] => (st, added)
  | p :: rest =>
      if bool_decide (url p ∈ seenProductUrls st) then add_new rest st added
      else add_new rest (push_product p st) (S added)
  end.

Definition maxPages : nat := 5.

(** The [while] loop of [crawlPaginatedProducts] with [left] turns to go
    before [pages] reaches [maxPages].  A thrown error ends the loop with
    whatever was pushed so far; the caller only logs it. *)
Fixpoint paginate (left pages : nat) (page : CategoryPage) (categoryName : string)
    (maxTotal : nat) (st : CrawlState) : CrawlState :=
  match left with
  | O => st
  | S left' =>
      if negb (Nat.ltb (List.length (collected st)) maxTotal) then st
      else
        match clicked (page_next page pages) with
        | None => st
        | Some false => st
        | Some true =>
            match step_links (page_next page pages) with
            | None => st
            | Some links =>
                let pageProducts := extractProductUrls links categoryName in
                let '(st', added) := add_new pageProducts st 0 in
                if Nat.eqb added 0 then st'
                else paginate left' (S pages) page categoryName maxTotal st'
            end
        end
  end.

Definition crawlPaginatedProducts (page : CategoryPage) (categoryName : string)
    (st : CrawlState) (maxTotal : nat) : CrawlState :=
  paginate maxPages 0 page categoryName maxTotal st.

(** The body of [for (const cat of categoryUrls)]. *)
Definition crawlCategory (maxProductsPerCategory : nat) (page : CategoryPage)
    (cat : CategoryUrl) (st : CrawlState) : CrawlState :=
  match page_links page with
  | None => st
  | Some links =>
      let rawProducts := extractProductUrls links (cat_name cat) in
      let pageProducts :=
        List.filter keep_product
          (map (fun p => {| name := cleanProductName (name p); url := url p;
                            category := category p |}) rawProducts) in
      let '(st1, _) := add_capped maxProductsPerCategory pageProducts st 0 in
      match page_hasMore page with
      | Some true =>
          crawlPaginatedProducts page (cat_name cat) st1 maxProductsPerCategory
      | _ => st1
      end
  end.

(** Deduplicate by URL *)
Fixpoint dedup_categories (seenCatUrls : gset string) (cs : list CategoryUrl)
  : list CategoryUrl :=
  match cs with
  | [] => []
  | c :: rest =>
      if bool_decide (cat_url c ∈ seenCatUrls) then dedup_categories seenCatUrls rest
      else c :: dedup_categories (seenCatUrls ∪ {[ cat_url c ]}) rest
  end.

Definition crawl_all (opts : RegistryBuildOptions) (categoryUrls : list CategoryUrl)
  : CrawlState :=
  fold_left
    (fun st cat =>
       crawlCategory (default 200 (opt_maxProductsPerCategory opts))
                     (opt_browser opts cat) cat st)
    categoryUrls
    {| seenProductUrls := ∅; collected := [] |}.

(** URL validation only logs a count and is left out. *)
Definition buildUrlRegistry (opts : RegistryBuildOptions) : UrlRegistry :=
  let allCategoryUrls :=
    map (fun n => {| cat_name := label n; cat_url := href n |})
        (List.filter (fun n => PageTypeKey_eqb (targetPageType n) Category
                               && truthy (href n))
                     (opt_mainNav opts)) in
  let categoryUrls := slice0 20 (dedup_categories ∅ allCategoryUrls) in
  let st := crawl_all opts categoryUrls in
  let products := collected st in
  let categories := categoryUrls in
  {| products := products;
     categories := categories;
     validatedPatterns := deriveUrlPatterns products categories (opt_origin opts) |}.

End WithHost.

(** Where a registry entry comes from: [l] is one of the links that [page]
    lists, at first sight or after some pagination click, and [p] stores
    its origin followed by its path, without query or fragment. *)
Definition offered_by (page : CategoryPage) (l : ExtractedLink) : Prop :=
  (exists links, page_links page = Some links /\ In l links) \/
  (exists n links, step_links (page_next page n) = Some links /\ In l links).

(** The invariant of every loop that pushes products: no URL is stored
    twice, every stored URL is in the seen set, and every stored product
    satisfies [P]. *)
Definition well_kept (P : ProductUrl -> Prop) (st : CrawlState) : Prop :=
  NoDup (map url (collected st)) /\
  (forall p, In p (collected st) -> url p ∈ seenProductUrls st) /\
  Forall P (collected st).

Definition normalized_from (browser : CategoryUrl -> CategoryPage) (p : ProductUrl) : Prop :=
  exists cat l,
    offered_by (browser cat) l /\
    url p = WebUrl.origin (link_url l) +:+ WebUrl.pathname (link_url l).

End UrlRegistryBuilder.

(* ===================================================================== *)
(** ** consensus-scorer.ts: coverage calculation

    [TAXONOMY_GROUPS] comes from the taxonomy module and is a parameter. *)
(* ===================================================================== *)

Module Coverage.
Import JsString SharedTypes ConsensusScorer.

Record TaxonomyGroups : Type := {
  pdp : list string;
  plp : list string;
  global : list string;
  cart : list string
}.

Definition CONFIDENCE_THRESHOLD : Z := 50.

Record CoverageReport : Type := {
  pdpIntentsCovered : nat;
  pdpIntentsTotal : nat;
  plpIntentsCovered : nat;
  plpIntentsTotal : nat;
  globalIntentsCovered : nat;
  globalIntentsTotal : nat;
  uncovered : list string;
  overallPct : Z
}.

(** [elements[k] && elements[k].confidence >= CONFIDENCE_THRESHOLD] *)
Definition is_covered (elements : gmap string SelectorEntry) (k : string) : bool :=
  match elements !! k with
  | Some e => Z.leb CONFIDENCE_THRESHOLD (confidence e)
  | None => false
  end.

Definition covered (elements : gmap string SelectorEntry) (keys : list string) : nat :=
  List.length (List.filter (is_covered elements) keys).

Definition percentage (totalCovered total : nat) : Z :=
  if Nat.ltb 0 total then Math_round (ratio totalCovered total * 100)%Q else 0%Z.

Definition calculateCoverage (TAXONOMY_GROUPS : TaxonomyGroups)
    (elements : gmap string SelectorEntry) : CoverageReport :=
  let pdpCovered := covered elements (pdp TAXONOMY_GROUPS) in
  let plpCovered := covered elements (plp TAXONOMY_GROUPS) in
  let globalCovered := covered elements (global TAXONOMY_GROUPS) in
  let totalCovered := pdpCovered + plpCovered + globalCovered in
  let total := List.length (pdp TAXONOMY_GROUPS) + List.length (plp TAXONOMY_GROUPS)
               + List.length (global TAXONOMY_GROUPS) in
  let allIntents := pdp TAXONOMY_GROUPS ++ plp TAXONOMY_GROUPS
                    ++ global TAXONOMY_GROUPS ++ cart TAXONOMY_GROUPS in
  {| pdpIntentsCovered := pdpCovered;
     pdpIntentsTotal := List.length (pdp TAXONOMY_GROUPS);
     plpIntentsCovered := plpCovered;
     plpIntentsTotal := List.length (plp TAXONOMY_GROUPS);
     globalIntentsCovered := globalCovered;
     globalIntentsTotal := List.length (global TAXONOMY_GROUPS);
     uncovered := List.filter (fun k => negb (is_covered elements k)) allIntents;
     overallPct := percentage totalCovered total |}.

End Coverage.

(* ===================================================================== *)
(** ** Reading the tallies of [scoreConsensus] *)
(* ===================================================================== *)

Module Tally.
Import JsString SharedTypes ConsensusScorer.

(** [selectorStats.get(sel)] *)
Definition stats_get (stats : list (string * Stats)) (sel : string) : option Stats :=
  snd <$> List.find (fun e => String.eqb (fst e) sel) stats.

Definition no_stats : Stats :=
  {| matchCount := 0; contentCount := 0; exampleValues := [] |}.

(** Every probe of one intent, page after page. *)
Definition all_probes (allPageResults : list PageProbeResults) (intent : string)
  : list ProbeResult :=
  flat_map (fun pageResult => probes_of pageResult intent) allPageResults.

Definition probes_for (sel : string) (probes : list ProbeResult) : list ProbeResult :=
  List.filter (fun p => String.eqb (selector p) sel) probes.

Definition count_matched (sel : string) (probes : list ProbeResult) : nat :=
  List.length (List.filter matched (probes_for sel probes)).

Definition count_verified (sel : string) (probes : list ProbeResult) : nat :=
  List.length (List.filter verified (probes_for sel probes)).

(** The order that the comparator of the ranking induces: more verified
    samples first, the more stable selector first among equals. *)
Definition ranks_before (a b : string * Stats) : Prop :=
  contentCount (snd b) < contentCount (snd a) \/
  (contentCount (snd b) = contentCount (snd a) /\
   (stabilityScore (fst b) <= stabilityScore (fst a))%Q).

End Tally.

(* ===================================================================== *)
(** ** crawl-engine.ts: what the engine does with the registry and the
       selector map *)
(* ===================================================================== *)

Module CrawlEngine.
Import JsString SharedTypes.

(** A page-type rule as the merge handles it: the confidence may come
    from the visual classifier, which reports any number. *)
Record MergedRule : Type := {
  merged_urlPattern : string;
  merged_domSignature : option string;
  merged_jsonLdType : option string;
  merged_label : string;
  merged_confidence : Q
}.

Definition of_rule (r : PageTypeRule) : MergedRule :=
  {| merged_urlPattern := urlPattern r;
     merged_domSignature := domSignature r;
     merged_jsonLdType := jsonLdType r;
     merged_label := rule_label r;
     merged_confidence := inject_Z (rule_confidence r) |}.

(** The fields of a visual classification that the merge reads (its
    [method] plays no part in it). *)
Record VisualClassification : Type := {
  vc_url : string;
  vc_pageType : PageTypeKey;
  vc_confidence : Q
}.

(** [Partial<Record<PageTypeKey, T>>] *)
Abbreviation RuleMap := (PageTypeKey -> option MergedRule).

Definition set_rule (t : PageTypeKey) (r : MergedRule) (rules : RuleMap) : RuleMap :=
  fun t' => if PageTypeKey_eqb t' t then Some r else rules t'.

Definition RE_STORE_PATTERN : Regex.re :=
  Regex.literal "furniture-store|bulk-order|business".

(** Deduplicate URL patterns: drop store and utility patterns unless
    nothing else is left, then drop exact duplicates. *)
Definition deduplicatePatterns (patterns : list string) : list string :=
  let filtered := List.filter (fun p => negb (Regex.test_i RE_STORE_PATTERN p)) patterns in
  let working := if Nat.ltb 0 (List.length filtered) then filtered else patterns in
  UrlRegistryBuilder.distinct working.

Abbreviation PatternsByType := (list (PageTypeKey * list string)).

Definition by_type_has (byType : PatternsByType) (t : PageTypeKey) : bool :=
  existsb (fun g => PageTypeKey_eqb (fst g) t) byType.

(** One turn of [for (const vp of urlRegistry.validatedPatterns)]. *)
Definition add_pattern (byType : PatternsByType) (vp : ValidatedPattern) : PatternsByType :=
  let byType' :=
    if by_type_has byType (pageType vp) then byType else byType ++ [(pageType vp, [])] in
  map (fun g => if PageTypeKey_eqb (fst g) (pageType vp)
                then (fst g, snd g ++ [pattern vp]) else g) byType'.

Definition patternsByType (urlRegistry : UrlRegistry) : PatternsByType :=
  fold_left add_pattern (validatedPatterns urlRegistry) [].

Definition is_generic (p : string) : bool := includes p "[^/]+" || includes p "[A-Z".

Definition combinedPattern (patterns : list string) : string :=
  let generic := List.filter is_generic patterns in
  let selected := if Nat.ltb 0 (List.length generic) then generic else slice0 8 patterns in
  let deduplicated := deduplicatePatterns selected in
  if Nat.eqb (List.length deduplicated) 1 then List.hd EmptyString deduplicated
  else "(" +:+ join "|" deduplicated +:+ ")".

(** The rule written for one page type of the registry. *)
Definition registry_rule (g : PageTypeKey * list string) : MergedRule :=
  {| merged_urlPattern := combinedPattern (snd g);
     merged_domSignature := None;
     merged_jsonLdType := None;
     merged_label := PageClassifier.capitalize (PageTypeKey_name (fst g));
     merged_confidence := 95 |}.

(** One turn of [for (const [pageType, patterns] of patternsByType)]. *)
Definition set_registry_rule (merged : RuleMap) (g : PageTypeKey * list string) : RuleMap :=
  set_rule (fst g) (registry_rule g) merged.

(** [Math.max] *)
Definition Math_max (a b : Q) : Q := if Qle_bool a b then b else a.

(** One turn of [for (const vc of visualClassifications)]. *)
Definition boost (merged : RuleMap) (vc : VisualClassification) : RuleMap :=
  match merged (vc_pageType vc) with
  | Some rule =>
      if Qle_bool (vc_confidence vc) 80 then merged
      else set_rule (vc_pageType vc)
             {| merged_urlPattern := merged_urlPattern rule;
                merged_domSignature := merged_domSignature rule;
                merged_jsonLdType := merged_jsonLdType rule;
                merged_label := merged_label rule;
                merged_confidence := Math_max (merged_confidence rule) (vc_confidence vc) |}
             merged
  | None => merged
  end.

Definition home_default : MergedRule :=
  {| merged_urlPattern := "^\/??$"; merged_domSignature := None;
     merged_jsonLdType := None; merged_label := "Home"; merged_confidence := 95 |}.

Definition mergePageTypeRules
    (domRules : PageTypeKey -> option PageTypeRule)
    (urlRegistry : UrlRegistry)
    (visualClassifications : list VisualClassification) : RuleMap :=
  let merged0 : RuleMap := fun t => of_rule <$> domRules t in
  let merged1 := fold_left set_registry_rule (patternsByType urlRegistry) merged0 in
  let merged2 :=
    match merged1 Home with
    | Some _ => merged1
    | None => set_rule Home home_default merged1
    end in
  fold_left boost visualClassifications merged2.

(** The registry's patterns of one page type, in registry order. *)
Definition patterns_of (t : PageTypeKey) (vps : list ValidatedPattern) : list string :=
  map pattern (List.filter (fun vp => PageTypeKey_eqb (pageType vp) t) vps).

(** [patternsByType.get(t)] *)
Definition lookup_type (t : PageTypeKey) (byType : PatternsByType) : option (list string) :=
  snd <$> List.find (fun g => PageTypeKey_eqb (fst g) t) byType.

(** [getIntentsForPageType]; the taxonomy groups are a parameter. *)
Definition getIntentsForPageType (TAXONOMY_GROUPS : Coverage.TaxonomyGroups)
    (pageType : PageTypeKey) : list string :=
  let specific :=
    match pageType with
    | Product => Coverage.pdp TAXONOMY_GROUPS
    | Category | Search => Coverage.plp TAXONOMY_GROUPS
    | Cart => Coverage.cart TAXONOMY_GROUPS
    | _ => []
    end in
  UrlRegistryBuilder.distinct (Coverage.global TAXONOMY_GROUPS ++ specific).

(** [elements[key]?.selectors[0]], the [pick] of [buildProductSchema] and
    [buildListingSchema]. *)
Definition pick (elements : gmap string SelectorEntry) (key : string) : option string :=
  match elements !! key with
  | Some e => head (selectors e)
  | None => None
  end.

(** *** pickDiverseProducts *)

Abbreviation UrlGroups := (list (string * list string)).

Definition url_groups_has (groups : UrlGroups) (cat : string) : bool :=
  existsb (fun g => String.eqb (fst g) cat) groups.

(** One turn of [for (const p of products)].  The key is
    [p.category ?? '_uncategorized']; the [category] of a [ProductUrl] is a
    string, so the key is the category itself. *)
Definition group_product (groups : UrlGroups) (p : ProductUrl) : UrlGroups :=
  let groups' :=
    if url_groups_has groups (category p) then groups else groups ++ [(category p, [])] in
  map (fun g => if String.eqb (fst g) (category p) then (fst g, snd g ++ [url p]) else g)
      groups'.

(** The round-robin [while] loop; [i] never exceeds 100, so 101 turns
    are all it can make. *)
Fixpoint pick_loop (fuel n : nat) (picked : list string)
    (groupArrays : list (list string)) (i : nat) : list string :=
  match fuel with
  | O => picked
  | S fuel' =>
      if negb (Nat.ltb (List.length picked) n) then picked
      else
        let idx := i mod List.length groupArrays in
        let '(picked', groupArrays') :=
          match nth_error groupArrays idx with
          | Some (u :: rest) => (picked ++ [u], <[idx := rest]> groupArrays)
          | _ => (picked, groupArrays)
          end in
        if Nat.ltb 100 (S i)
           || forallb (fun g => Nat.eqb (List.length g) 0) groupArrays'
        then picked'
        else pick_loop fuel' n picked' groupArrays' (S i)
  end.

Definition pickDiverseProducts (products : list ProductUrl) (n : nat) : list string :=
  if Nat.leb (List.length products) n then map url products
  else
    let groups := fold_left group_product products [] in
    pick_loop 101 n [] (map snd groups) 0.

End CrawlEngine.

(* ===================================================================== *)
(** ** Segment shapes

    What the product tests of the URL tier decide, said without regular
    expressions, and the SKU-like shape in the words of the specification. *)
(* ===================================================================== *)

Module Shapes.
Import JsString.







(** Following the specification's words: a SKU-like run is an
    alphanumeric run of at least 4 characters that mixes letters and
    digits. *)
Definition is_alnum (c : ascii) : bool := is_letter c || is_digit c.

Fixpoint alnum_runs (cur : list ascii) (s : list ascii) : list (list ascii) :=
  match s with
  | [] => [rev cur]
  | c :: s' =>
      if is_alnum c then alnum_runs (c :: cur) s'
      else rev cur :: alnum_runs [] s'
  end.

Definition spec_sku_like_run (seg : string) : bool :=
  existsb (fun run => Nat.leb 4 (List.length run)
                      && existsb is_letter run && existsb is_digit run)
          (alnum_runs [] (chars seg)).


(** The keywords of the URL tier. *)
Definition CART_KEYWORDS : list string := ["cart"; "basket"; "bag"; "trolley"].


Definition UTILITY_KEYWORDS : list string :=
  [ "login"; "signin"; "signup"; "register"; "account"; "profile"; "order"; "wishlist";
    "checkout"; "payment"; "thank-you"; "confirmation"; "404"; "about"; "blog"; "faq";
    "policy"; "policies"; "terms"; "privacy"; "contact"; "careers"; "press"; "investor" ].

(** No segment of the path is one of the keywords. *)
Definition no_segment_is (keywords : list string) (path : string) : bool :=
  forallb (fun seg => negb (existsb (String.eqb seg) keywords)) (segments path).

(** No segment of the path starts with one of the keywords. *)
Definition no_segment_starts_with (keywords : list string) (path : string) : bool :=
  forallb (fun seg => negb (existsb (fun kw => starts_with (chars kw) (chars seg)) keywords))
          (segments path).


(** The text contains none of the given texts. *)
Definition contains_none (texts : list string) (s : string) : bool :=
  forallb (fun t => negb (includes s t)) texts.









End Shapes.

(* ===================================================================== *)
(** ** Notions that the properties below are stated with *)
(* ===================================================================== *)

Module Notions.
Import JsString SharedTypes UrlRegistryBuilder CrawlEngine.

(** Appending only. *)
Definition extends (st st' : CrawlState) : Prop :=
  (exists more, collected st' = collected st ++ more) /\
  seenProductUrls st ⊆ seenProductUrls st'.

(** The signature that [clusterPaths] gives to a path with segments. *)
Definition signature (segs : list string) : string :=
  of_nat (List.length segs) +:+ ":" +:+ List.hd EmptyString segs.

(** Every member of a group is one of the paths, has segments, and has
    the group's key as signature. *)
Definition group_ok (paths : list string) (g : string * list string) : Prop :=
  forall m, In m (snd g) ->
    In m paths /\ segments m <> [] /\ fst g = signature (segments m).

(** [r'] is [r] after the boost loop over [vcs] for page type [t]. *)
Definition boosted (vcs : list VisualClassification) (t : PageTypeKey)
    (r r' : MergedRule) : Prop :=
  merged_urlPattern r' = merged_urlPattern r /\
  merged_domSignature r' = merged_domSignature r /\
  merged_jsonLdType r' = merged_jsonLdType r /\
  merged_label r' = merged_label r /\
  (merged_confidence r <= merged_confidence r')%Q /\
  (forall vc, In vc vcs -> vc_pageType vc = t -> Qle_bool (vc_confidence vc) 80 = false ->
              (vc_confidence vc <= merged_confidence r')%Q) /\
  (merged_confidence r' = merged_confidence r \/
   exists vc, In vc vcs /\ vc_pageType vc = t /\ Qle_bool (vc_confidence vc) 80 = false /\
              merged_confidence r' = vc_confidence vc).

(** Every URL of a group belongs to a product of the group's category. *)
Definition url_group_ok (products : list ProductUrl) (g : string * list string) : Prop :=
  snd g <> [] /\
  forall u, In u (snd g) -> exists p, In p products /\ url p = u /\ category p = fst g.

End Notions.

(* ===================================================================== *)
(** ** The parts of a built URL pattern *)
(* ===================================================================== *)

Module PatternShape.
Import JsString Regex.

(** The three kinds of part that the pattern builders write for a path
    segment. *)
Inductive PartKind : Type :=
| PLit (seg : list ascii)
| PSku
| PWild.

Definition sku_class : cset := CClass false [("A", "Z"); ("0", "9")]%char.
Definition wild_class : cset := CClass true [("/", "/")]%char.

Definition lit_chars (c : ascii) : list ascii :=
  if is_special c then ["\"%char; c] else [c].

Definition part_chars (k : PartKind) : list ascii :=
  match k with
  | PLit seg => flat_map lit_chars seg
  | PSku => chars "[A-Z0-9]{4,}"
  | PWild => chars "[^/]+"
  end.

Definition part_terms (k : PartKind) : list re :=
  match k with
  | PLit seg => map (fun c => Chr (CChar c)) seg
  | PSku => [power 4 (Chr sku_class) (Star (Chr sku_class))]
  | PWild => [power 1 (Chr wild_class) (Star (Chr wild_class))]
  end.

Definition part_accepts (k : PartKind) (seg : list ascii) : Prop :=
  match k with
  | PLit l => seg = l
  | PSku => 4 <= List.length seg /\ forallb (cset_mem sku_class) seg = true
  | PWild => 1 <= List.length seg /\ forallb (cset_mem wild_class) seg = true
  end.

(** The text and the terms of [\/part\/part...]. *)
Definition pattern_chars (ks : list PartKind) : list ascii :=
  flat_map (fun k => "\"%char :: "/"%char :: part_chars k) ks.

Definition pattern_terms (ks : list PartKind) : list re :=
  flat_map (fun k => Chr (CChar "/") :: part_terms k) ks.

(** The text of [/seg/seg...]. *)
Definition path_chars (segs : list (list ascii)) : list ascii :=
  flat_map (fun s => "/"%char :: s) segs.

(** A path is plain when it is its segments, each after one slash, and
    then whatever follows the last of them. *)
Definition is_plain (path : string) : bool :=
  starts_with (path_chars (map chars (segments path))) (chars path).

(** A sequence of terms against a subject. *)
Fixpoint mseq (ts : list re) (k : nat -> list ascii -> bool) (i : nat) (s : list ascii) : bool :=
  match ts with
  | [] => k i s
  | t :: ts' => m t (mseq ts' k) i s
  end.

(** May a quantifier not start here? *)
Definition head_ok (s : list ascii) : bool :=
  match s with
  | c :: _ => negb (Ascii.eqb c "?" || Ascii.eqb c "*" || Ascii.eqb c "+" || Ascii.eqb c "{")
  | [] => true
  end.

(** [cs] is the text of the terms [ts]: whatever follows, the parser
    reads [ts] off [cs], one turn for each term. *)
Definition tokens (ts : list re) (cs : list ascii) : Prop :=
  List.length ts <= List.length cs /\
  (ts <> [] -> head_ok cs = true) /\
  forall f rest, head_ok rest = true ->
    parse_alts (List.length ts + f) (cs ++ rest)
    = '(alts, r) ← parse_alts f rest; Some (fold_right push_term alts ts, r).

(** The kind of the part that [pattern_part] writes. *)
Definition part_kind (memberPaths : list string) (i : nat) : PartKind :=
  let segValues := UrlRegistryBuilder.segment_values memberPaths i in
  if Nat.eqb (List.length (UrlRegistryBuilder.distinct segValues)) 1 then
    PLit (chars (List.hd EmptyString segValues))
  else if forallb (Regex.test UrlRegistryBuilder.RE_SKU_SEGMENT) segValues then PSku
  else PWild.

End PatternShape.

(* ===================================================================== *)
(** ** Concrete inputs *)
(* ===================================================================== *)

Module Examples.
Import JsString SharedTypes ConsensusScorer.

Definition probe (sel : string) (m v : bool) : ProbeResult :=
  {| selector := sel; matched := m; verified := v;
     probe_exampleValue := if v then Some "$29.99" else None |}.

Definition price_page (probes : list ProbeResult) : PageProbeResults :=
  {[ "price" := probes ]}.

Definition no_modes : gmap string VerifyMode := ∅.

(** Three samples; the price selector verifies on the first only. *)
Definition one_of_three : list PageProbeResults :=
  [ price_page [probe "[data-testid=price]" true true];
    price_page [probe "[data-testid=price]" true false];
    price_page [probe "[data-testid=price]" true false] ].

(** Scenario C: the price selector verifies on samples 1 and 3 and only
    matches on sample 2; a second selector never verifies. *)
Definition scenario_C : list PageProbeResults :=
  [ price_page [probe "[data-testid=price]" true true; probe ".amount" true false];
    price_page [probe "[data-testid=price]" true false; probe ".amount" true false];
    price_page [probe "[data-testid=price]" true true; probe ".amount" false false] ].

(** Scenario D *)
Definition scenario_D_paths : list string :=
  ["/mattress/a/SKU1"; "/mattress/b/SKU2"; "/mattress/c/SKU3"; "/bed/d/SKU4"].

Definition shop_origin : string := "https://shop.example".

Definition product_at (path : string) : ProductUrl :=
  {| name := "Oak bed"; url := shop_origin +:+ path; category := "Beds" |}.

Definition link_to (path : string) : UrlRegistryBuilder.ExtractedLink :=
  {| UrlRegistryBuilder.link_name := "Oak bed";
     UrlRegistryBuilder.link_url :=
       {| WebUrl.origin := shop_origin; WebUrl.pathname := path; WebUrl.search := EmptyString |} |}.

Definition no_more : nat -> UrlRegistryBuilder.PaginationStep :=
  fun _ => {| UrlRegistryBuilder.clicked := Some false;
              UrlRegistryBuilder.step_links := None |}.

(** A category page that lists the given paths and has no pagination. *)
Definition listing (paths : list string) : UrlRegistryBuilder.CategoryPage :=
  {| UrlRegistryBuilder.page_links := Some (map link_to paths);
     UrlRegistryBuilder.page_hasMore := Some false;
     UrlRegistryBuilder.page_next := no_more |}.

(** A category page that lists [/beds/oak] twice, and once more after a
    click on its load-more control, next to [/beds/elm]. *)
Definition repeating_listing : UrlRegistryBuilder.CategoryPage :=
  {| UrlRegistryBuilder.page_links := Some (map link_to ["/beds/oak"; "/beds/oak"]);
     UrlRegistryBuilder.page_hasMore := Some true;
     UrlRegistryBuilder.page_next :=
       fun n => match n with
                | O => {| UrlRegistryBuilder.clicked := Some true;
                          UrlRegistryBuilder.step_links :=
                            Some (map link_to ["/beds/oak"; "/beds/elm"]) |}
                | S _ => no_more n
                end |}.

Definition site (nav : list NavEdge) (browser : CategoryUrl -> UrlRegistryBuilder.CategoryPage)
  : UrlRegistryBuilder.RegistryBuildOptions :=
  {| UrlRegistryBuilder.opt_browser := browser;
     UrlRegistryBuilder.opt_origin := shop_origin;
     UrlRegistryBuilder.opt_domain := "shop.example";
     UrlRegistryBuilder.opt_mainNav := nav;
     UrlRegistryBuilder.opt_maxProductsPerCategory := None |}.

Definition nav_to (text path : string) : NavEdge :=
  {| label := text; href := shop_origin +:+ path; nav_selector := None;
     targetPageType := Category |}.

(** A site whose navigation has no category link. *)
Definition bare_site : UrlRegistryBuilder.RegistryBuildOptions :=
  site [] (fun _ => listing []).

(** A site with one category whose page lists one product, under a first
    path segment with a dot in it. *)
Definition dotted_site : UrlRegistryBuilder.RegistryBuildOptions :=
  site [nav_to "Beds" "/beds"] (fun _ => listing ["/v2.0/oak-bed"]).

(** Two category links, both to pages that repeat themselves. *)
Definition repeating_site : UrlRegistryBuilder.RegistryBuildOptions :=
  site [nav_to "Beds" "/beds"; nav_to "Sale" "/sale"] (fun _ => repeating_listing).

Import PageClassifier.

Definition quiet_page (types : list string) : Page :=
  {| jsonLdTypes := map JString types; locator_count := fun _ => Some 0 |}.

(** A page whose structured data has the [@type] array [Product, 5]:
    a string and a number. *)
Definition mixed_types_page : Page :=
  {| jsonLdTypes := [JString "Product"; JNumber 5]; locator_count := fun _ => Some 0 |}.

(** The entry that scenario C yields for the price intent. *)
Definition scenario_C_entry : SelectorEntry :=
  {| selectors := ["[data-testid=price]"]; confidence := 67; sampleCount := 3;
     exampleValue := Some "$29.99" |}.

(** A small taxonomy. *)
Definition example_taxonomy : Coverage.TaxonomyGroups :=
  {| Coverage.pdp := ["productTitle"; "price"];
     Coverage.plp := ["productCard"];
     Coverage.global := ["searchBar"];
     Coverage.cart := ["cartItem"] |}.

(** The cluster of the three [mattress] paths of scenario D. *)
Definition scenario_D_mattress : UrlRegistryBuilder.PathCluster :=
  {| UrlRegistryBuilder.cluster_pattern := "\/mattress\/[^/]+\/[A-Z0-9]{4,}";
     UrlRegistryBuilder.cluster_examples :=
       ["/mattress/a/SKU1"; "/mattress/b/SKU2"; "/mattress/c/SKU3"] |}.

Definition empty_state : UrlRegistryBuilder.CrawlState :=
  {| UrlRegistryBuilder.seenProductUrls := ∅; UrlRegistryBuilder.collected := [] |}.

(** A page where every click on the load-more control loads one more
    product, and the same page with a control that stops answering after
    five clicks. *)
Definition numbered_link (n : nat) : UrlRegistryBuilder.ExtractedLink :=
  link_to ("/beds/item-" +:+ of_nat n).

Definition endless_listing : UrlRegistryBuilder.CategoryPage :=
  {| UrlRegistryBuilder.page_links := Some [];
     UrlRegistryBuilder.page_hasMore := Some true;
     UrlRegistryBuilder.page_next :=
       fun n => {| UrlRegistryBuilder.clicked := Some true;
                   UrlRegistryBuilder.step_links := Some [numbered_link n] |} |}.

Definition five_turn_listing : UrlRegistryBuilder.CategoryPage :=
  {| UrlRegistryBuilder.page_links := Some [];
     UrlRegistryBuilder.page_hasMore := Some true;
     UrlRegistryBuilder.page_next :=
       fun n => if Nat.ltb n 5 then UrlRegistryBuilder.page_next endless_listing n
                else no_more n |}.

(** A registry with the home pattern only. *)
Definition home_only_registry : UrlRegistry :=
  {| products := []; categories := [];
     validatedPatterns :=
       [ {| pageType := Home; pattern := "^\/?$"; examples := [shop_origin] |} ] |}.

(** DOM-derived rules for the home and the product page, and what the
    visual classifier saw of them. *)
Definition dom_home_rule : PageTypeRule :=
  {| urlPattern := "^\/home$"; domSignature := Some ".hero-banner";
     jsonLdType := Some "WebSite"; rule_label := "Home"; rule_confidence := 55 |}.

Definition dom_product_rule : PageTypeRule :=
  {| urlPattern := "\/beds\/[^/]+"; domSignature := Some ".add-to-cart";
     jsonLdType := None; rule_label := "Product"; rule_confidence := 55 |}.

Definition example_dom_rules (t : PageTypeKey) : option PageTypeRule :=
  match t with
  | Home => Some dom_home_rule
  | Product => Some dom_product_rule
  | _ => None
  end.

Definition example_visuals : list CrawlEngine.VisualClassification :=
  [ {| CrawlEngine.vc_url := "https://shop.example/"; CrawlEngine.vc_pageType := Home;
       CrawlEngine.vc_confidence := 97 |};
    {| CrawlEngine.vc_url := "https://shop.example/beds/oak"; CrawlEngine.vc_pageType := Product;
       CrawlEngine.vc_confidence := 90 |} ].

(** Three samples on which three selectors verify: the first listed on
    two samples, the second on two, the third on all three. *)
Definition ranked_samples : list PageProbeResults :=
  [ price_page [probe ".amount" true true; probe "#price" true true;
                probe "[data-testid=price]" true true];
    price_page [probe ".amount" true true; probe "#price" true false;
                probe "[data-testid=price]" true true];
    price_page [probe ".amount" true false; probe "#price" true true;
                probe "[data-testid=price]" true true] ].

Definition ranked_entry : SelectorEntry :=
  {| selectors := ["[data-testid=price]"; "#price"; ".amount"]; confidence := 100;
     sampleCount := 3; exampleValue := Some "$29.99" |}.

(** Three products of two categories. *)
Definition three_products : list ProductUrl :=
  [ {| name := "Oak bed"; url := "https://shop.example/beds/oak"; category := "Beds" |};
    {| name := "Elm bed"; url := "https://shop.example/beds/elm"; category := "Beds" |};
    {| name := "Ash chair"; url := "https://shop.example/chairs/ash"; category := "Chairs" |} ].

Definition oak_bed_url : WebUrl.URL :=
  {| WebUrl.origin := "https://shop.example"; WebUrl.pathname := "/beds/oak-bed";
     WebUrl.search := "?ref=nav" |}.

End Examples.

(* ===================================================================== *)
(** ** Properties of the consensus scorer *)
(* ===================================================================== *)

Module ConsensusScorerFacts.
Import JsString SharedTypes ConsensusScorer.

Lemma stabilityScore_range sel :
  (0 < stabilityScore sel)%Q /\ (stabilityScore sel <= 1)%Q.
Proof.
  unfold stabilityScore.
  repeat match goal with
         | |- context [if ?b then _ else _] => destruct b
         end; split; reflexivity || discriminate.
Qed.

Lemma ratio_nonneg count total : (0 <= ratio count total)%Q.
Proof.
  unfold ratio, Qdiv.
  apply Qmult_le_0_compat.
  - change 0%Q with (inject_Z 0). rewrite <- Zle_Qle. lia.
  - apply Qinv_le_0_compat.
    change 0%Q with (inject_Z 0). rewrite <- Zle_Qle. lia.
Qed.

Lemma Math_round_nonneg x : (0 <= x)%Q -> (0 <= Math_round x)%Z.
Proof.
  intros Hx. unfold Math_round.
  change 0%Z with (Qfloor 0).
  apply Qfloor_resp_le.
  apply Qle_trans with x; [exact Hx|].
  rewrite <- (Qplus_0_r x) at 1.
  apply Qplus_le_r. discriminate.
Qed.

(** The filter in integers: [contentCount / sampleCount >= 0.34]. *)
Lemma passes_iff sampleCount e :
  0 < sampleCount ->
  passes sampleCount e = true <->
  (34 * Z.of_nat sampleCount <= 100 * Z.of_nat (contentCount (snd e)))%Z.
Proof.
  intros Hn. unfold passes. rewrite Qle_bool_iff.
  destruct sampleCount as [|k]; [lia|].
  unfold ratio, CONTENT_THRESHOLD, Qdiv, Qle, Qmult, Qinv, inject_Z; cbn -[Z.mul Z.of_nat].
  change (Z.of_nat (S k)) with (Z.pos (Pos.of_succ_nat k)). cbn -[Z.mul Z.of_nat].
  lia.
Qed.

(** *** The ranking keeps the candidates *)

Lemma insert_sorted_length {A} (cmp : A -> A -> Q) x l :
  List.length (insert_sorted cmp x l) = S (List.length l).
Proof.
  induction l as [|y l IH]; cbn; [reflexivity|].
  destruct (Qle_bool (cmp x y) 0); cbn; congruence.
Qed.

Lemma sort_length {A} (cmp : A -> A -> Q) l :
  List.length (sort cmp l) = List.length l.
Proof.
  induction l as [|x l IH]; cbn; [reflexivity|].
  rewrite insert_sorted_length. fold (sort cmp l). congruence.
Qed.

Lemma qualified_length all intent :
  List.length (qualified all intent) <= MAX_FALLBACKS.
Proof. unfold qualified, slice0. rewrite length_take. lia. Qed.

Lemma qualified_nil_iff all intent :
  qualified all intent = [] <-> survivors all intent = [].
Proof.
  unfold qualified, slice0, MAX_FALLBACKS. split.
  - intros H. apply (f_equal (@List.length _)) in H.
    rewrite length_take, sort_length in H. cbn in H.
    destruct (survivors all intent); [reflexivity|cbn in H; lia].
  - intros ->. reflexivity.
Qed.

(** *** What the returned map holds *)

Lemma fold_record_lookup all intents output k :
  fold_left (record_intent all) intents output !! k =
  if bool_decide (k ∈ intents)
  then match scoreIntent all k with Some e => Some e | None => output !! k end
  else output !! k.
Proof.
  revert output. induction intents as [|i intents IH]; intros output; cbn.
  - reflexivity.
  - rewrite IH. unfold record_intent.
    destruct (decide (k = i)) as [->|Hne].
    + rewrite (bool_decide_eq_true_2 (i ∈ i :: intents)) by set_solver.
      destruct (scoreIntent all i) eqn:E.
      * rewrite lookup_insert_eq. destruct (bool_decide _); reflexivity.
      * destruct (bool_decide _); reflexivity.
    + assert (Hiff : k ∈ i :: intents <-> k ∈ intents).
      { rewrite elem_of_cons. intuition congruence. }
      rewrite (bool_decide_ext _ _ Hiff).
      destruct (scoreIntent all i) eqn:E; [rewrite lookup_insert_ne by congruence|];
        reflexivity.
Qed.

Lemma scoreConsensus_lookup all modes intent e :
  scoreConsensus all modes !! intent = Some e -> scoreIntent all intent = Some e.
Proof.
  unfold scoreConsensus.
  destruct (Nat.eqb (List.length all) 0); [rewrite lookup_empty; discriminate|].
  rewrite fold_record_lookup, lookup_empty.
  destruct (bool_decide _); [|discriminate].
  destruct (scoreIntent all intent); congruence.
Qed.

Lemma scoreConsensus_absent all modes intent :
  scoreIntent all intent = None -> scoreConsensus all modes !! intent = None.
Proof.
  intros H. destruct (scoreConsensus all modes !! intent) eqn:E; [|reflexivity].
  apply scoreConsensus_lookup in E. congruence.
Qed.

(** *** The stated properties *)

Import Examples.

(** C10. With no page samples at all, [scoreConsensus] returns the empty
    map whatever the verify-mode map is: the early return comes before the
    loop over intents, so no entry is produced and no quotient by the
    sample count is formed. *)
Theorem scoreConsensus_no_samples (verifyModes : gmap string VerifyMode) :
  scoreConsensus [] verifyModes = ∅ /\
  forall intent, scoreConsensus [] verifyModes !! intent = None.
Proof. split; [reflexivity|]. intros intent. apply lookup_empty. Qed.

(** C2. Every [SelectorEntry] that [scoreConsensus] produces has a
    confidence between 0 and 100 inclusive. *)
Theorem confidence_in_range
    (allPageResults : list PageProbeResults) (verifyModes : gmap string VerifyMode)
    (intent : string) (entry : SelectorEntry) :
  scoreConsensus allPageResults verifyModes !! intent = Some entry ->
  (0 <= confidence entry <= 100)%Z.
Proof.
  intros H. apply scoreConsensus_lookup in H.
  unfold scoreIntent in H.
  destruct (qualified allPageResults intent) as [|[bestSel bestStats] rest]; [discriminate|].
  injection H as <-. cbn [confidence]. split.
  - apply Z.min_glb; [lia|].
    apply Math_round_nonneg.
    apply Qmult_le_0_compat; [apply Qmult_le_0_compat|].
    + apply ratio_nonneg.
    + discriminate.
    + apply Qlt_le_weak, stabilityScore_range.
  - apply Z.le_min_l.
Qed.

Lemma confidence_in_range_witness :
  scoreConsensus scenario_C no_modes !! "price"
  = Some {| selectors := ["[data-testid=price]"]; confidence := 67; sampleCount := 3;
            exampleValue := Some "$29.99" |}
  /\ (0 <= 67 <= 100)%Z.
Proof.
  split; [vm_compute; reflexivity|].
  apply (confidence_in_range scenario_C no_modes "price"
           {| selectors := ["[data-testid=price]"]; confidence := 67; sampleCount := 3;
              exampleValue := Some "$29.99" |}).
  vm_compute; reflexivity.
Defined.

(** C3. Every entry of the returned map carries between 1 and 5 selectors,
    and an intent none of whose candidates survives the verification-ratio
    filter has no entry at all. *)
Theorem fallback_chain_bounds
    (allPageResults : list PageProbeResults) (verifyModes : gmap string VerifyMode)
    (intent : string) :
  (forall entry,
      scoreConsensus allPageResults verifyModes !! intent = Some entry ->
      1 <= List.length (selectors entry) <= 5) /\
  (survivors allPageResults intent = [] ->
   scoreConsensus allPageResults verifyModes !! intent = None).
Proof.
  split.
  - intros entry H. apply scoreConsensus_lookup in H.
    unfold scoreIntent in H.
    pose proof (qualified_length allPageResults intent) as Hlen.
    destruct (qualified allPageResults intent) as [|[bestSel bestStats] rest];
      [discriminate|].
    injection H as <-. unfold MAX_FALLBACKS in Hlen.
    cbn [selectors map List.length] in *. rewrite length_map. lia.
  - intros Hnone. apply scoreConsensus_absent.
    unfold scoreIntent.
    apply qualified_nil_iff in Hnone. rewrite Hnone. reflexivity.
Qed.

Lemma fallback_chain_bounds_witness :
  (scoreConsensus scenario_C no_modes !! "price"
   = Some {| selectors := ["[data-testid=price]"]; confidence := 67; sampleCount := 3;
             exampleValue := Some "$29.99" |}
   /\ 1 <= List.length ["[data-testid=price]"] <= 5) /\
  (survivors one_of_three "price" = [] /\
   scoreConsensus one_of_three no_modes !! "price" = None).
Proof.
  split; split.
  - vm_compute; reflexivity.
  - apply (proj1 (fallback_chain_bounds scenario_C no_modes "price")
             {| selectors := ["[data-testid=price]"]; confidence := 67; sampleCount := 3;
                exampleValue := Some "$29.99" |}).
    vm_compute; reflexivity.
  - vm_compute; reflexivity.
  - apply (proj2 (fallback_chain_bounds one_of_three no_modes "price")).
    vm_compute; reflexivity.
Defined.

(** Scenario C holds: verified on 2 of 3 samples the price selector is
    kept, and the selector that never verified is not in the chain. *)
Lemma scenario_C_retained :
  map fst (survivors scenario_C "price") = ["[data-testid=price]"] /\
  selectors <$> scoreConsensus scenario_C no_modes !! "price"
  = Some ["[data-testid=price]"].
Proof. split; vm_compute; reflexivity. Qed.

(** C1. On three samples, a selector that passed content verification on
    exactly one has a verified ratio of 1/3, which is not below 1/3; the
    filter compares with 0.34 and discards it, and its intent is left
    without an entry. *)
Theorem one_third_is_discarded :
  selectorStats one_of_three "price"
  = [("[data-testid=price]",
      {| matchCount := 3; contentCount := 1; exampleValues := ["$29.99"] |})] /\
  ~ (ratio 1 (List.length one_of_three) < 1 # 3)%Q /\
  survivors one_of_three "price" = [] /\
  scoreConsensus one_of_three no_modes !! "price" = None.
Proof.
  split; [vm_compute; reflexivity|].
  split; [vm_compute; discriminate|].
  split; vm_compute; reflexivity.
Qed.

End ConsensusScorerFacts.

(* ===================================================================== *)
(** ** Properties of the matcher *)
(* ===================================================================== *)

Module RegexFacts.
Import JsString Regex Shapes PatternShape.



Lemma forallb_pointwise (p q : ascii -> bool) s :
  (forall c, p c = q c) -> forallb p s = forallb q s.
Proof.
  intros E. induction s as [|c s IH]; cbn; [reflexivity|]. rewrite E, IH. reflexivity.
Qed.




(** [c*$]: everything that is left is in the class. *)
Lemma star_class_at_end cs fuel i s :
  List.length s <= fuel ->
  star_loop (m (Chr cs)) at_end fuel i s = forallb (cset_mem cs) s.
Proof.
  revert i s. induction fuel as [|fuel IH]; intros i s Hlen.
  - destruct s; [reflexivity|cbn in Hlen; lia].
  - cbn [star_loop m]. destruct s as [|c s]; [reflexivity|].
    cbn [forallb]. destruct (cset_mem cs c); cbn [andb]; [|reflexivity].
    rewrite (proj2 (Nat.ltb_lt i (S i))) by lia.
    rewrite IH by (cbn in Hlen; lia).
    destruct (forallb (cset_mem cs) s); reflexivity.
Qed.

(** [c{n,}$] *)
Lemma m_at_least_at_end cs n i s :
  m (power n (Chr cs) (Star (Chr cs))) at_end i s
  = Nat.leb n (List.length s) && forallb (cset_mem cs) s.
Proof.
  revert i s. induction n as [|n IH]; intros i s.
  - cbn [power m Nat.leb andb]. apply star_class_at_end. lia.
  - cbn [power m]. destruct s as [|c s]; [reflexivity|].
    cbn [List.length Nat.leb forallb].
    destruct (cset_mem cs c); cbn [andb].
    + apply IH.
    + rewrite andb_false_r. reflexivity.
Qed.

(** An expression that opens with [^] matches at the start only. *)
Lemma search_anchored_later r i s :
  (forall k j t, j <> 0 -> m r k j t = false) ->
  i <> 0 -> search r i s = false.
Proof.
  intros Hr. revert i. induction s as [|c s IH]; intros i Hi; cbn [search]; unfold match_at;
    rewrite Hr by exact Hi; [reflexivity|].
  apply IH. lia.
Qed.

(** Every regular-expression literal of the three source files lies in
    the fragment. *)
Lemma source_literals_compile :
  Forall (fun p => is_Some (compile p))
    [ "^#[a-z][a-z0-9-]+";
      "\.[a-z][a-z0-9]*(?:-[a-z][a-z0-9]+)+";
      "^(button|input|select|textarea|a)\[";
      "\.[a-z][a-z]*[A-Z][a-zA-Z]+";
      "\.[a-zA-Z0-9_-]{12,}";
      "\/(cart|basket|bag|trolley)(\/|$)";
      "\/(search|find|results?)(\/|$)";
      "\/(login|signin|signup|register|account|profile|orders?|wishlist|checkout|payment|thank-you|confirmation|404|about|blog|faq|policy|policies|terms|privacy|contact|careers|press|investor)";
      "[A-Z0-9]{4,}";
      "^[a-z0-9][a-z0-9-]{14,}$";
      "\/furniture-store\/|\/business\/|\/bulk-order|\/store\/|\/stores\/";
      "^[A-Z0-9]{4,}$" ].
Proof. repeat constructor; vm_compute; eexists; reflexivity. Qed.

(** The matcher on a few subjects. *)
Lemma matcher_samples :
  map (pattern_test "\/(cart|basket|bag|trolley)(\/|$)")
      ["/cart"; "/shop/bag/"; "/cartoon"; "/bags"] = [true; true; false; false] /\
  map (pattern_test "^[a-z0-9][a-z0-9-]{14,}$")
      ["orthopedic-foam"; "orthopedic-foa"; "Orthopedic-foam-bed"] = [true; false; false] /\
  map (pattern_test "\.[a-z][a-z0-9]*(?:-[a-z][a-z0-9]+)+")
      [".pdp-price"; ".pdp"; "div.price-a"] = [true; false; false] /\
  map (pattern_test "^a{2,3}$") ["a"; "aa"; "aaa"; "aaaa"] = [false; true; true; false] /\
  map compile ["a)"; "(a"; "*a"] = [None; None; None].
Proof. repeat split; vm_compute; reflexivity. Qed.

(** A sequence of terms is matched term by term. *)
Lemma m_fold_seq ts t k i s :
  m (fold_left Seq ts t) k i s = m t (mseq ts k) i s.
Proof.
  revert t k i s. induction ts as [|t2 ts IH]; intros t k i s; [reflexivity|].
  cbn [fold_left]. rewrite IH. reflexivity.
Qed.

Lemma m_build_seq ts k i s : m (build_seq ts) k i s = mseq ts k i s.
Proof. destruct ts as [|t ts]; [reflexivity|]. apply m_fold_seq. Qed.

(** *** Keyword groups *)










(** *** Segments of a path *)





Lemma starts_with_split p s : starts_with p s = true -> exists tail, s = p ++ tail.
Proof.
  revert s. induction p as [|a p IH]; intros s H; [exists s; reflexivity|].
  destruct s as [|b s]; [discriminate|]. cbn in H. apply andb_true_iff in H.
  destruct H as [E H]. apply Ascii.eqb_eq in E. subst b.
  destruct (IH s H) as (tail & ->). exists tail. reflexivity.
Qed.









End RegexFacts.

(* ===================================================================== *)
(** ** Properties of the page classifier *)
(* ===================================================================== *)

Module PageClassifierFacts.
Import JsString SharedTypes PageClassifier Shapes Regex RegexFacts Examples.




Lemma toLowerCase_Product : toLowerCase "Product" = "product".
Proof. reflexivity. Qed.

Lemma jsonLd_product types :
  In "Product" types -> jsonLdTypeToPageType types = Some Product.
Proof.
  intros Hin. unfold jsonLdTypeToPageType.
  assert (E : existsb (fun t => String.eqb t "product" || String.eqb t "offer"
                                || String.eqb t "individualoffer")
                      (map toLowerCase types) = true).
  { apply existsb_exists. exists "product". split; [|reflexivity].
    rewrite <- toLowerCase_Product. apply in_map. exact Hin. }
  rewrite E. reflexivity.
Qed.

Lemma strings_of_strings types : strings_of (map JString types) = Some types.
Proof.
  induction types as [|t types IH]; [reflexivity|]. cbn. rewrite IH. reflexivity.
Qed.

Lemma strings_of_member vs strs s :
  strings_of vs = Some strs -> In (JString s) vs -> In s strs.
Proof.
  revert strs. induction vs as [|v vs IH]; intros strs H Hin; [destruct Hin|].
  cbn in H. destruct (as_string v) as [t|] eqn:Ev; [|discriminate].
  destruct (strings_of vs) as [ss|]; [|discriminate]. injection H as <-.
  destruct Hin as [->|Hin]; [cbn in Ev; injection Ev as <-; left; reflexivity|].
  right. exact (IH ss eq_refl Hin).
Qed.

(** *** The keyword tests of the URL tier *)











Section WithUrl.
Variable new_URL : string -> option WebUrl.URL.

(** A page all of whose structured-data types are strings, [Product]
    among them, is classified as a product page with confidence 95 by the
    JSON-LD method, whatever the URL string is, however it parses, and
    whatever the DOM holds. *)
Lemma product_structured_data_wins (page : Page) (urlStr : string) (types : list string) :
  strings_of (jsonLdTypes page) = Some types ->
  In "Product" types ->
  exists result,
    classifyPage new_URL page urlStr = Some result /\
    type result = Product /\
    rule_confidence (rule result) = 95%Z /\
    method result = ByJsonld.
Proof.
  intros Hstr Hin. unfold classifyPage, jsonLdTypeToPageType_run.
  rewrite Hstr. cbn [fmap option_fmap option_map]. rewrite (jsonLd_product _ Hin).
  destruct (jsonLdTypes page) as [|v vs];
    [cbn in Hstr; injection Hstr as <-; destruct Hin|].
  cbn [List.length Nat.ltb Nat.leb]. eexists. split; [reflexivity|].
  cbn. repeat split; reflexivity.
Qed.

(** C7. The claim fails on a page whose structured data holds the
    [@type] array [Product, 5].  [extractJsonLdTypes] pushes both members
    unchecked, so the extracted types include [Product]; then
    [jsonLdTypeToPageType] calls [toLowerCase] on the number, the
    [TypeError] is caught nowhere, and [classifyPage] throws for every
    URL instead of answering [product]. *)
Theorem untyped_type_member_throws (urlStr : string) :
  In (JString "Product") (jsonLdTypes mixed_types_page) /\
  jsonLdTypeToPageType_run (jsonLdTypes mixed_types_page) = None /\
  classifyPage new_URL mixed_types_page urlStr = None.
Proof. split; [left; reflexivity|]. split; reflexivity. Qed.



End WithUrl.


(** Scenario A of the specification, on a page whose types are strings. *)
Lemma scenario_A :
  exists result,
    classifyPage WebUrl.parse (quiet_page ["BreadcrumbList"; "Product"])
                 "https://shop.example/cart" = Some result /\
    type result = Product /\ rule_confidence (rule result) = 95%Z /\
    method result = ByJsonld.
Proof.
  apply (product_structured_data_wins WebUrl.parse _ _ ["BreadcrumbList"; "Product"]);
    [reflexivity|right; left; reflexivity].
Qed.

(** Scenario B of the specification: a SKU-shaped final segment under
    three segments is scored [product] with confidence 70. *)
Lemma scenario_B :
  exists result,
    classifyPage WebUrl.parse (quiet_page [])
      "https://shop.example/mattresses/orthopedic-foam-mattress/AB1234XYZ" = Some result /\
    type result = Product /\ rule_confidence (rule result) = 70%Z.
Proof. eexists. split; [vm_compute; reflexivity|]. split; reflexivity. Qed.


(** What the amendment leaves as the specification has it: [/sale/ab12cd]
    ends in a run that mixes letters and digits, so the claim does not
    speak of it, although the URL tier scores it [category]. *)
Lemma mixed_lower_case_run_is_left_out :
  spec_sku_like_run "ab12cd" = true /\
  scoreUrlByType WebUrl.parse "https://shop.example/sale/ab12cd" = Category.
Proof. split; vm_compute; reflexivity. Qed.

(** Why the amendment spells the tests out: a query string [?seq=2]
    contains [q=], [bag] is a cart keyword, and a segment that only
    contains a keyword is no keyword. *)
Lemma keyword_tests_on_samples :
  scoreUrlByType WebUrl.parse "https://shop.example/beds?seq=2" = Search /\
  contains_none ["q="; "query="] "?seq=2" = false /\
  scoreUrlByType WebUrl.parse "https://shop.example/bag" = Cart /\
  no_segment_is CART_KEYWORDS "/bag" = false /\
  scoreUrlByType WebUrl.parse "https://shop.example/bags" = Category /\
  no_segment_is CART_KEYWORDS "/bags" = true /\
  scoreUrlByType WebUrl.parse "https://shop.example/blogger" = Other /\
  no_segment_starts_with UTILITY_KEYWORDS "/blogger" = false.
Proof. repeat split; vm_compute; reflexivity. Qed.

End PageClassifierFacts.

(* ===================================================================== *)
(** ** Properties of the URL registry builder *)
(* ===================================================================== *)

Module UrlRegistryBuilderFacts.
Import JsString SharedTypes UrlRegistryBuilder Examples.

(** *** The products list and the set of seen URLs *)

Section Bookkeeping.
Variable new_URL : string -> option WebUrl.URL.
Variable cleanProductName : string -> string.
Variable P : ProductUrl -> Prop.

Local Abbreviation well_kept := (well_kept P).

Lemma well_kept_empty : well_kept {| seenProductUrls := ∅; collected := [] |}.
Proof.
  repeat split; cbn.
  - constructor.
  - intros p [].
  - constructor.
Qed.

Lemma push_product_kept p st :
  well_kept st -> url p ∉ seenProductUrls st -> P p -> well_kept (push_product p st).
Proof.
  intros (Hnd & Hseen & HP) Hfresh Hp. unfold push_product. repeat split; cbn.
  - rewrite map_app. apply NoDup_app. split; [exact Hnd|]. split.
    + intros x Hx Hx'. cbn in Hx'. apply list_elem_of_singleton in Hx'. subst x.
      apply list_elem_of_In, in_map_iff in Hx. destruct Hx as (q & Hq & Hin).
      apply Hfresh. rewrite <- Hq. apply Hseen, Hin.
    + cbn. apply NoDup_singleton.
  - intros q Hq. apply in_app_or in Hq. destruct Hq as [Hq | [<- | []]].
    + apply elem_of_union_l, Hseen, Hq.
    + apply elem_of_union_r, elem_of_singleton. reflexivity.
  - apply Forall_app. split; [exact HP|]. constructor; [exact Hp|constructor].
Qed.

Lemma add_capped_kept cap ps st added :
  well_kept st -> Forall P ps -> well_kept (fst (add_capped cap ps st added)).
Proof.
  revert st added. induction ps as [|p ps IH]; intros st added Hst Hps; cbn.
  - exact Hst.
  - apply Forall_cons in Hps. destruct Hps as [Hp Hps].
    case_bool_decide as Hseen; [apply IH; assumption|].
    destruct (Nat.leb cap added); [exact Hst|].
    apply IH; [|exact Hps]. apply push_product_kept; assumption.
Qed.

Lemma add_new_kept ps st added :
  well_kept st -> Forall P ps -> well_kept (fst (add_new ps st added)).
Proof.
  revert st added. induction ps as [|p ps IH]; intros st added Hst Hps; cbn.
  - exact Hst.
  - apply Forall_cons in Hps. destruct Hps as [Hp Hps].
    case_bool_decide as Hseen; [apply IH; assumption|].
    apply IH; [|exact Hps]. apply push_product_kept; assumption.
Qed.

Lemma paginate_kept left pages page categoryName maxTotal st :
  (forall n links, step_links (page_next page n) = Some links ->
                   Forall P (extractProductUrls links categoryName)) ->
  well_kept st -> well_kept (paginate left pages page categoryName maxTotal st).
Proof.
  intros Hlinks. revert pages st.
  induction left as [|left IH]; intros pages st Hst; cbn; [exact Hst|].
  destruct (negb _); [exact Hst|].
  destruct (clicked (page_next page pages)) as [[]|]; try exact Hst.
  destruct (step_links (page_next page pages)) as [links|] eqn:E; [|exact Hst].
  pose proof (add_new_kept (extractProductUrls links categoryName) st 0 Hst
                (Hlinks pages links E)) as Hst'.
  destruct (add_new (extractProductUrls links categoryName) st 0) as [st' added].
  cbn in Hst'. destruct (Nat.eqb added 0); [exact Hst'|].
  apply IH, Hst'.
Qed.

Lemma crawlCategory_kept cap page cat st :
  (forall links, page_links page = Some links ->
                 Forall P (map (fun p => {| name := cleanProductName (name p);
                                            url := url p; category := category p |})
                               (extractProductUrls links (cat_name cat)))) ->
  (forall n links, step_links (page_next page n) = Some links ->
                   Forall P (extractProductUrls links (cat_name cat))) ->
  well_kept st -> well_kept (crawlCategory new_URL cleanProductName cap page cat st).
Proof.
  intros Hfirst Hnext Hst. unfold crawlCategory.
  destruct (page_links page) as [links|]; [|exact Hst].
  specialize (Hfirst links eq_refl).
  set (pageProducts := List.filter _ _).
  assert (Hpp : Forall P pageProducts).
  { apply Forall_forall. intros p Hp. apply list_elem_of_In, filter_In in Hp.
    destruct Hp as [Hp _]. rewrite Forall_forall in Hfirst.
    apply Hfirst, list_elem_of_In, Hp. }
  pose proof (add_capped_kept cap pageProducts st 0 Hst Hpp) as Hst1.
  destruct (add_capped cap pageProducts st 0) as [st1 added]. cbn in Hst1.
  destruct (page_hasMore page) as [[]|]; try exact Hst1.
  apply paginate_kept; assumption.
Qed.

End Bookkeeping.

Lemma crawl_all_kept new_URL cleanProductName opts cats :
  well_kept (normalized_from (opt_browser opts))
            (crawl_all new_URL cleanProductName opts cats).
Proof.
  unfold crawl_all.
  generalize (well_kept_empty (normalized_from (opt_browser opts))).
  generalize {| seenProductUrls := ∅; collected := [] |}.
  induction cats as [|cat cats IH]; intros st Hst; cbn; [exact Hst|].
  apply IH. apply crawlCategory_kept; [| |exact Hst].
  - intros links Hlinks. apply Forall_forall. intros p Hp.
    apply list_elem_of_In, in_map_iff in Hp. destruct Hp as (q & <- & Hq).
    unfold extractProductUrls in Hq. apply in_map_iff in Hq.
    destruct Hq as (l & <- & Hl). cbn.
    exists cat, l. split; [|reflexivity]. left. exists links. split; assumption.
  - intros n links Hlinks. apply Forall_forall. intros p Hp.
    apply list_elem_of_In, in_map_iff in Hp. destruct Hp as (l & <- & Hl). cbn.
    exists cat, l. split; [|reflexivity]. right. exists n, links. split; assumption.
Qed.

(** C8. The products of a registry hold no URL twice, whatever the
    category pages list, repeat or reveal on pagination; and each stored
    URL is the origin followed by the path of a link that one of the
    visited pages offered, with neither query nor fragment. *)
Theorem products_urls_distinct
    (new_URL : string -> option WebUrl.URL) (cleanProductName : string -> string)
    (opts : RegistryBuildOptions) :
  NoDup (map url (products (buildUrlRegistry new_URL cleanProductName opts))) /\
  Forall (normalized_from (opt_browser opts))
         (products (buildUrlRegistry new_URL cleanProductName opts)).
Proof.
  unfold buildUrlRegistry. cbn [products].
  match goal with
  | |- context [crawl_all _ _ _ ?cats] =>
      destruct (crawl_all_kept new_URL cleanProductName opts cats) as (Hnd & _ & Hnorm)
  end.
  split; assumption.
Qed.

(** Seen on a site whose pages repeat their links. *)
Lemma repeating_site_products :
  map url (products (buildUrlRegistry WebUrl.parse (fun n => n) repeating_site))
  = ["https://shop.example/beds/oak"; "https://shop.example/beds/elm"].
Proof. vm_compute. reflexivity. Qed.

(** *** Pattern induction *)

(** C5. Scenario D: from the four paths, [clusterPaths] emits a cluster
    whose members are exactly the three depth-3 [mattress] paths, whose
    pattern is the literal [mattress], the wildcard token and the SKU-class
    token, and which leaves [/bed/d/SKU4] out; [deriveUrlPatterns] turns it
    into a product pattern with the same three examples. *)
Theorem scenario_D_cluster :
  exists c,
    In c (clusterPaths scenario_D_paths) /\
    cluster_examples c = ["/mattress/a/SKU1"; "/mattress/b/SKU2"; "/mattress/c/SKU3"] /\
    cluster_pattern c = "\/mattress\/[^/]+\/[A-Z0-9]{4,}" /\
    ~ In "/bed/d/SKU4" (cluster_examples c) /\
    In {| pageType := Product; pattern := cluster_pattern c;
          examples := cluster_examples c |}
       (deriveUrlPatterns WebUrl.parse (map product_at scenario_D_paths) [] shop_origin).
Proof.
  exists {| cluster_pattern := "\/mattress\/[^/]+\/[A-Z0-9]{4,}";
            cluster_examples := ["/mattress/a/SKU1"; "/mattress/b/SKU2"; "/mattress/c/SKU3"] |}.
  split; [vm_compute; left; reflexivity|].
  split; [reflexivity|].
  split; [reflexivity|].
  split.
  - cbn. intros [H|[H|[H|[]]]]; discriminate H.
  - vm_compute. right. left. reflexivity.
Qed.

(** The induced pattern of scenario D matches its three members and not
    the [bed] path. *)
Lemma scenario_D_pattern_matches :
  map (Regex.pattern_test "\/mattress\/[^/]+\/[A-Z0-9]{4,}") scenario_D_paths
  = [true; true; true; false].
Proof. vm_compute. reflexivity. Qed.

(** C9. A single product under [/v2.0/oak-bed]: no group has two members,
    so the singleton fallback builds the pattern [\/v2\.0\/[^/]+]; the
    first segment read back from the escaped pattern is [v2], which is the
    first segment of no path, and the pattern is emitted with no example. *)
Theorem dotted_segment_pattern_has_no_example :
  clusterPaths ["/v2.0/oak-bed"]
  = [ {| cluster_pattern := "\/v2\.0\/[^/]+"; cluster_examples := [] |} ] /\
  first_capture "\/v2\.0\/[^/]+" = Some "v2" /\
  In {| pageType := Product; pattern := "\/v2\.0\/[^/]+"; examples := [] |}
     (deriveUrlPatterns WebUrl.parse [product_at "/v2.0/oak-bed"] [] shop_origin) /\
  In {| pageType := Product; pattern := "\/v2\.0\/[^/]+"; examples := [] |}
     (validatedPatterns (buildUrlRegistry WebUrl.parse (fun n => n) dotted_site)).
Proof.
  split; [vm_compute; reflexivity|].
  split; [vm_compute; reflexivity|].
  split; vm_compute; right; left; reflexivity.
Qed.

(** The home pattern is emitted for every input, with the origin as its
    only example. *)
Lemma home_pattern_emitted new_URL cleanProductName opts :
  In {| pageType := Home; pattern := "^\/?$"; examples := [opt_origin opts] |}
     (validatedPatterns (buildUrlRegistry new_URL cleanProductName opts)).
Proof. unfold buildUrlRegistry, deriveUrlPatterns. cbn. left. reflexivity. Qed.

(** It matches the empty string and [/] only. *)
Lemma home_pattern_matches (s : string) :
  Regex.pattern_test "^\/?$" s = true <-> s = EmptyString \/ s = "/".
Proof.
  unfold Regex.pattern_test.
  change (Regex.compile "^\/?$")
    with (Some (Regex.Seq (Regex.Seq Regex.Bol (Regex.opt (Regex.Chr (Regex.CChar "/"))))
                          Regex.Eol)).
  unfold Regex.test. destruct s as [|c s]; [cbn; tauto|].
  change (chars (String c s)) with (c :: chars s).
  cbn [Regex.search]. rewrite RegexFacts.search_anchored_later; [| |lia].
  2:{ intros k j t Hj. cbn [Regex.m]. destruct j; [congruence|reflexivity]. }
  unfold Regex.match_at, Regex.opt. cbn [Regex.m Regex.cset_mem Nat.eqb].
  destruct (Ascii.eqb_spec "/" c) as [<-|Hc].
  - destruct s as [|d s].
    + cbn. tauto.
    + change (chars (String d s)) with (d :: chars s). cbn iota.
      split; [discriminate|]. intros [H|H]; discriminate H.
  - split; [discriminate|]. intros [H|H]; [discriminate H|].
    injection H as -> _. congruence.
Qed.

(** So no registry built for an origin that is a real origin passes the
    round trip. *)
Lemma home_example_unmatched new_URL cleanProductName opts :
  opt_origin opts <> EmptyString -> opt_origin opts <> "/" ->
  exists vp ex,
    In vp (validatedPatterns (buildUrlRegistry new_URL cleanProductName opts)) /\
    In ex (examples vp) /\
    Regex.pattern_test (pattern vp) ex = false.
Proof.
  intros H1 H2.
  exists {| pageType := Home; pattern := "^\/?$"; examples := [opt_origin opts] |},
         (opt_origin opts).
  split; [apply home_pattern_emitted|]. split; [left; reflexivity|].
  cbn [pattern]. destruct (Regex.pattern_test "^\/?$" (opt_origin opts)) eqn:E;
    [|reflexivity].
  apply home_pattern_matches in E. tauto.
Qed.

(** C4. The registry of a site with the origin [https://shop.example] and
    no category link holds the three synthesized patterns; none of them
    matches its own example, which is an absolute URL where the pattern is
    anchored at the start of a path. *)
Theorem synthesized_examples_unmatched :
  validatedPatterns (buildUrlRegistry WebUrl.parse (fun n => n) bare_site)
  = [ {| pageType := Home; pattern := "^\/?$"; examples := ["https://shop.example"] |};
      {| pageType := Cart; pattern := "^\/cart\/?";
         examples := ["https://shop.example/cart"] |};
      {| pageType := Search; pattern := "^\/search";
         examples := ["https://shop.example/search-result"] |} ] /\
  Regex.pattern_test "^\/?$" "https://shop.example" = false /\
  Regex.pattern_test "^\/cart\/?" "https://shop.example/cart" = false /\
  Regex.pattern_test "^\/search" "https://shop.example/search-result" = false /\
  Regex.pattern_test "^\/cart\/?" "/cart" = true.
Proof. repeat split; vm_compute; reflexivity. Qed.

End UrlRegistryBuilderFacts.

(* ===================================================================== *)
(** ** The decimal rendering of a number and its reading *)
(* ===================================================================== *)

Module JsStringFacts.
Import JsString.

Lemma chars_of_chars l : chars (of_chars l) = l.
Proof. apply String.list_ascii_of_string_of_list_ascii. Qed.

Lemma of_chars_chars s : of_chars (chars s) = s.
Proof. apply String.string_of_list_ascii_of_string. Qed.

Lemma chars_append a b : chars (a +:+ b) = chars a ++ chars b.
Proof.
  unfold chars. induction a as [|c a IH]; [reflexivity|].
  change (String c a +:+ b) with (String c (a +:+ b)).
  cbn [String.list_ascii_of_string app]. rewrite IH. reflexivity.
Qed.

Lemma chars_inj a b : chars a = chars b -> a = b.
Proof. intros H. rewrite <- (of_chars_chars a), <- (of_chars_chars b), H. reflexivity. Qed.

Lemma digit_char_is_digit d : d < 10 -> is_digit (digit_char d) = true.
Proof.
  intros H. do 10 (destruct d as [|d]; [reflexivity|]). lia.
Qed.

Lemma digit_char_value d : d < 10 -> code (digit_char d) - 48 = d.
Proof.
  intros H. do 10 (destruct d as [|d]; [reflexivity|]). lia.
Qed.

(** The digits of [n] are put in front of [acc], most significant first. *)
Lemma decimal_aux_spec fuel n acc :
  n < fuel ->
  exists ds,
    decimal_aux fuel n acc = ds ++ acc /\
    ds <> [] /\
    forallb is_digit ds = true /\
    forall a seen rest,
      parse_digits a seen (ds ++ rest) = parse_digits (a * 10 ^ List.length ds + n) true rest.
Proof.
  revert n acc. induction fuel as [|fuel IH]; intros n acc Hn; [lia|].
  cbn [decimal_aux].
  assert (Hmod : n mod 10 < 10) by (apply Nat.mod_upper_bound; lia).
  pose proof (Nat.div_mod_eq n 10) as Hdm.
  remember (n mod 10) as d eqn:Ed. remember (n / 10) as q eqn:Eq. clear Ed Eq.
  destruct (Nat.eqb_spec q 0) as [Hz|Hnz].
  - exists [digit_char d]. split; [reflexivity|]. split; [discriminate|].
    split; [cbn; rewrite digit_char_is_digit by exact Hmod; reflexivity|].
    intros a seen rest. cbn.
    rewrite digit_char_is_digit, digit_char_value by exact Hmod.
    f_equal. lia.
  - assert (Hlt : q < fuel) by lia.
    destruct (IH q (digit_char d :: acc) Hlt) as (ds & Heq & Hne & Hdig & Hparse).
    exists (ds ++ [digit_char d]). split.
    { rewrite Heq, <- app_assoc. reflexivity. }
    split; [destruct ds; discriminate|]. split.
    { rewrite forallb_app, Hdig. cbn. rewrite digit_char_is_digit by exact Hmod. reflexivity. }
    intros a seen rest. rewrite <- app_assoc. rewrite Hparse. cbn [app parse_digits].
    rewrite digit_char_is_digit, digit_char_value by exact Hmod.
    f_equal. rewrite length_app. cbn [List.length]. rewrite Nat.add_1_r, Nat.pow_succ_r'.
    lia.
Qed.

Lemma of_nat_digits n :
  exists ds,
    chars (of_nat n) = ds /\ ds <> [] /\ forallb is_digit ds = true /\
    forall a seen rest,
      parse_digits a seen (ds ++ rest) = parse_digits (a * 10 ^ List.length ds + n) true rest.
Proof.
  unfold of_nat.
  destruct (decimal_aux_spec (S n) n [] ltac:(lia)) as (ds & Heq & Hne & Hdig & Hparse).
  exists ds. rewrite Heq, app_nil_r, chars_of_chars. auto.
Qed.

(** Reading a length back from its decimal rendering gives the
    length. *)
Lemma parseInt_of_nat (n : nat) : parseInt (of_nat n) = Some n.
Proof.
  unfold parseInt. destruct (of_nat_digits n) as (ds & -> & _ & _ & Hparse).
  specialize (Hparse 0 false []). rewrite app_nil_r in Hparse. rewrite Hparse.
  reflexivity.
Qed.

(** The same with anything that is not a digit after it. *)
Lemma parseInt_of_nat_colon n rest :
  parseInt (of_nat n +:+ ":" +:+ rest) = Some n.
Proof.
  unfold parseInt. rewrite chars_append.
  destruct (of_nat_digits n) as (ds & -> & _ & _ & Hparse).
  rewrite Hparse. reflexivity.
Qed.

Lemma split_chars_digits sep cur ds rest :
  forallb is_digit ds = true -> is_digit sep = false ->
  split_chars sep cur (ds ++ sep :: rest)
  = of_chars (rev cur ++ ds) :: split_chars sep [] rest.
Proof.
  intros Hd Hsep. revert cur. induction ds as [|d ds IH]; intros cur; cbn.
  - rewrite Ascii.eqb_refl, app_nil_r. reflexivity.
  - cbn in Hd. apply andb_prop in Hd. destruct Hd as [Hd1 Hd2].
    destruct (Ascii.eqb_spec d sep) as [->|_]; [congruence|].
    rewrite (IH Hd2). cbn. rewrite <- app_assoc. reflexivity.
Qed.

(** The first field of a signature is the rendered depth. *)
Lemma split_signature n rest :
  List.hd EmptyString (split ":" (of_nat n +:+ ":" +:+ rest)) = of_nat n.
Proof.
  unfold split. rewrite chars_append.
  destruct (of_nat_digits n) as (ds & Hds & _ & Hdig & _).
  rewrite Hds. change (chars (":" +:+ rest)) with (":"%char :: chars rest).
  rewrite split_chars_digits by (exact Hdig || reflexivity).
  cbn. rewrite <- Hds. apply of_chars_chars.
Qed.

End JsStringFacts.

(* ===================================================================== *)
(** ** More properties of the consensus scorer *)
(* ===================================================================== *)

Module ConsensusScorerMore.
Import JsString SharedTypes ConsensusScorer Tally ConsensusScorerFacts Examples.

(** *** The tallies *)

Lemma selectorStats_flat all intent :
  selectorStats all intent = fold_left record_probe (all_probes all intent) [].
Proof.
  unfold selectorStats, all_probes. generalize (@nil (string * Stats)).
  induction all as [|page all IH]; intros stats; cbn; [reflexivity|].
  rewrite fold_left_app. apply IH.
Qed.

Lemma get_update k f stats sel :
  stats_get (stats_update k f stats) sel
  = if String.eqb k sel then f <$> stats_get stats sel else stats_get stats sel.
Proof.
  unfold stats_get, stats_update.
  induction stats as [|[k0 st0] stats IH]; cbn.
  - destruct (String.eqb k sel); reflexivity.
  - destruct (String.eqb_spec k0 k) as [->|Hk0]; cbn.
    + destruct (String.eqb k sel) eqn:E; cbn; [reflexivity|].
      exact IH.
    + destruct (String.eqb_spec k0 sel) as [->|Hsel]; cbn.
      * destruct (String.eqb_spec k sel) as [->|Hk]; [congruence|reflexivity].
      * exact IH.
Qed.

Lemma has_get stats sel :
  stats_has stats sel = true <-> stats_get stats sel <> None.
Proof.
  unfold stats_has, stats_get. induction stats as [|[k st] stats IH]; cbn.
  - split; [discriminate|congruence].
  - destruct (String.eqb k sel); cbn; [split; [discriminate|reflexivity]|exact IH].
Qed.

Lemma get_app stats extra sel :
  stats_get (stats ++ extra) sel
  = match stats_get stats sel with Some st => Some st | None => stats_get extra sel end.
Proof.
  unfold stats_get. induction stats as [|[k st] stats IH]; cbn.
  - destruct (List.find _ extra); reflexivity.
  - destruct (String.eqb k sel); cbn; [reflexivity|exact IH].
Qed.

Lemma get_record_probe stats p sel :
  stats_get (record_probe stats p) sel
  = if String.eqb (selector p) sel
    then Some (bump p (default no_stats (stats_get stats sel)))
    else stats_get stats sel.
Proof.
  unfold record_probe.
  destruct (stats_has stats (selector p)) eqn:Hhas; rewrite get_update.
  - destruct (String.eqb_spec (selector p) sel) as [<-|Hne]; [|reflexivity].
    apply has_get in Hhas. destruct (stats_get stats (selector p)); [reflexivity|congruence].
  - rewrite get_app.
    assert (Hnone : stats_get stats (selector p) = None).
    { destruct (stats_get stats (selector p)) eqn:E; [|reflexivity].
      assert (stats_has stats (selector p) = true) by (apply has_get; congruence).
      congruence. }
    destruct (String.eqb_spec (selector p) sel) as [<-|Hne].
    + rewrite Hnone. unfold stats_get. cbn. rewrite String.eqb_refl. reflexivity.
    + destruct (stats_get stats sel); [reflexivity|].
      unfold stats_get. cbn.
      destruct (String.eqb_spec (selector p) sel); [contradiction|reflexivity].
Qed.

Lemma get_fold ps stats sel :
  stats_get (fold_left record_probe ps stats) sel
  = match probes_for sel ps with
    | [] => stats_get stats sel
    | _ :: _ => Some (fold_left (fun st p => bump p st) (probes_for sel ps)
                                (default no_stats (stats_get stats sel)))
    end.
Proof.
  revert stats. induction ps as [|p ps IH]; intros stats; [reflexivity|].
  cbn [fold_left]. rewrite IH, get_record_probe. unfold probes_for in *.
  cbn [List.filter].
  destruct (String.eqb (selector p) sel); cbn [fold_left default].
  - destruct (List.filter _ ps); reflexivity.
  - reflexivity.
Qed.

Lemma fold_bump_content qs st :
  contentCount (fold_left (fun st p => bump p st) qs st)
  = contentCount st + List.length (List.filter verified qs).
Proof.
  revert st. induction qs as [|q qs IH]; intros st; cbn; [lia|].
  rewrite IH. cbn. destruct (verified q); cbn; lia.
Qed.

Lemma fold_bump_match qs st :
  matchCount (fold_left (fun st p => bump p st) qs st)
  = matchCount st + List.length (List.filter matched qs).
Proof.
  revert st. induction qs as [|q qs IH]; intros st; cbn; [lia|].
  rewrite IH. cbn. destruct (matched q); cbn; lia.
Qed.

Lemma update_keys k f stats : map fst (stats_update k f stats) = map fst stats.
Proof.
  unfold stats_update. induction stats as [|[k0 st] stats IH]; cbn; [reflexivity|].
  rewrite IH. destruct (String.eqb k0 k); reflexivity.
Qed.

Lemma get_none_not_key stats sel :
  stats_get stats sel = None -> ~ In sel (map fst stats).
Proof.
  unfold stats_get. induction stats as [|[k st] stats IH]; cbn; [tauto|].
  destruct (String.eqb_spec k sel) as [->|Hne]; cbn; [discriminate|].
  intros H [E|Hin]; [contradiction|]. exact (IH H Hin).
Qed.

Lemma record_probe_keys stats p :
  NoDup (map fst stats) -> NoDup (map fst (record_probe stats p)).
Proof.
  intros Hnd. unfold record_probe. rewrite update_keys.
  destruct (stats_has stats (selector p)) eqn:Hhas; [exact Hnd|].
  rewrite map_app. cbn. apply NoDup_app. split; [exact Hnd|]. split.
  - intros x Hx Hx'. apply list_elem_of_singleton in Hx'. subst x.
    apply list_elem_of_In in Hx. revert Hx. apply get_none_not_key.
    destruct (stats_get stats (selector p)) eqn:E; [|reflexivity].
    assert (stats_has stats (selector p) = true) by (apply has_get; congruence).
    congruence.
  - apply NoDup_singleton.
Qed.

Lemma selectorStats_keys all intent : NoDup (map fst (selectorStats all intent)).
Proof.
  rewrite selectorStats_flat. generalize (all_probes all intent).
  assert (H0 : NoDup (map fst (@nil (string * Stats)))) by constructor.
  revert H0. generalize (@nil (string * Stats)).
  intros stats Hnd ps. revert stats Hnd.
  induction ps as [|p ps IH]; intros stats Hnd; cbn; [exact Hnd|].
  apply IH, record_probe_keys, Hnd.
Qed.

Lemma in_get stats sel st :
  NoDup (map fst stats) -> In (sel, st) stats -> stats_get stats sel = Some st.
Proof.
  unfold stats_get. induction stats as [|[k st0] stats IH]; cbn; [tauto|].
  intros Hnd [E|Hin].
  - injection E as -> ->. rewrite String.eqb_refl. reflexivity.
  - apply NoDup_cons in Hnd. destruct Hnd as [Hk Hnd].
    destruct (String.eqb_spec k sel) as [->|Hne].
    + exfalso. apply Hk. apply list_elem_of_In. apply in_map_iff. exists (sel, st). auto.
    + apply IH; assumption.
Qed.

Lemma selectorStats_entry all intent sel st :
  In (sel, st) (selectorStats all intent) ->
  probes_for sel (all_probes all intent) <> [] /\
  st = fold_left (fun st p => bump p st) (probes_for sel (all_probes all intent)) no_stats.
Proof.
  intros Hin. apply in_get in Hin; [|apply selectorStats_keys].
  rewrite selectorStats_flat, get_fold in Hin. cbn in Hin.
  destruct (probes_for sel (all_probes all intent)); [discriminate|].
  split; [discriminate|]. congruence.
Qed.


Lemma get_some_in stats sel st : stats_get stats sel = Some st -> In (sel, st) stats.
Proof.
  unfold stats_get. induction stats as [|[k st0] stats IH]; cbn; [discriminate|].
  destruct (String.eqb_spec k sel) as [->|Hne]; cbn.
  - intros E. injection E as ->. left. reflexivity.
  - intros E. right. apply IH, E.
Qed.

Lemma probes_for_nonempty sel ps :
  probes_for sel ps <> [] <-> In sel (map selector ps).
Proof.
  unfold probes_for. split.
  - intros H. destruct (List.filter _ ps) as [|q qs] eqn:E; [congruence|].
    assert (Hq : In q (List.filter (fun p => String.eqb (selector p) sel) ps))
      by (rewrite E; left; reflexivity).
    apply filter_In in Hq. destruct Hq as [Hq Heq]. apply String.eqb_eq in Heq.
    apply in_map_iff. exists q. split; assumption.
  - intros H. apply in_map_iff in H. destruct H as (q & Hq & Hin).
    assert (Hf : In q (List.filter (fun p => String.eqb (selector p) sel) ps)).
    { apply filter_In. split; [exact Hin|]. apply String.eqb_eq, Hq. }
    intros E. rewrite E in Hf. destruct Hf.
Qed.

(** *** The ranking *)

Lemma insert_sorted_perm {A} (cmp : A -> A -> Q) x l :
  Permutation (insert_sorted cmp x l) (x :: l).
Proof.
  induction l as [|y l IH]; cbn; [reflexivity|].
  destruct (Qle_bool (cmp x y) 0); [reflexivity|].
  rewrite IH. apply perm_swap.
Qed.

Lemma sort_perm {A} (cmp : A -> A -> Q) l : Permutation (sort cmp l) l.
Proof.
  induction l as [|x l IH]; cbn; [reflexivity|].
  fold (sort cmp l). rewrite insert_sorted_perm, IH. reflexivity.
Qed.

Section Sortedness.
Context {A : Type} (cmp : A -> A -> Q) (R : A -> A -> Prop).
Hypothesis R_first : forall x y, Qle_bool (cmp x y) 0 = true -> R x y.
Hypothesis R_second : forall x y, Qle_bool (cmp x y) 0 = false -> R y x.
Hypothesis R_trans : forall x y z, R x y -> R y z -> R x z.

Lemma insert_sorted_sorted x l :
  StronglySorted R l -> StronglySorted R (insert_sorted cmp x l).
Proof.
  induction l as [|y l IH]; intros Hs; cbn.
  - constructor; constructor.
  - apply StronglySorted_inv in Hs. destruct Hs as [Hs Hy].
    destruct (Qle_bool (cmp x y) 0) eqn:E.
    + constructor; [constructor; assumption|].
      constructor; [apply R_first, E|].
      apply Forall_forall. intros z Hz. rewrite Forall_forall in Hy.
      apply R_trans with y; [apply R_first, E|apply Hy, Hz].
    + constructor; [apply IH, Hs|].
      apply Forall_forall. intros z Hz.
      apply list_elem_of_In in Hz.
      apply (Permutation_in _ (insert_sorted_perm cmp x l)) in Hz.
      destruct Hz as [<-|Hz]; [apply R_second, E|].
      rewrite Forall_forall in Hy. apply Hy, list_elem_of_In, Hz.
Qed.

Lemma sort_sorted l : StronglySorted R (sort cmp l).
Proof.
  induction l as [|x l IH]; cbn; [constructor|].
  apply insert_sorted_sorted, IH.
Qed.

End Sortedness.

Lemma take_sorted {A} (R : A -> A -> Prop) n l :
  StronglySorted R l -> StronglySorted R (take n l).
Proof.
  revert n. induction l as [|x l IH]; intros [|n] Hs; cbn; try constructor.
  - apply IH. apply StronglySorted_inv in Hs. tauto.
  - apply StronglySorted_inv in Hs. destruct Hs as [_ Hx].
    apply Forall_forall. intros z Hz. rewrite Forall_forall in Hx. apply Hx.
    apply list_elem_of_In. apply list_elem_of_In in Hz.
    rewrite <- (firstn_skipn n l). apply in_or_app. left. exact Hz.
Qed.

Lemma compare_ranks a b :
  Qle_bool (compareEntries a b) 0 = true <-> ranks_before a b.
Proof.
  rewrite Qle_bool_iff. unfold compareEntries, ranks_before.
  destruct (Z.eqb_spec (Z.of_nat (contentCount b.2) - Z.of_nat (contentCount a.2)) 0)
    as [E|E]; cbn [negb].
  - split.
    + intros H. right. split; [lia|]. lra.
    + intros [H|[_ H]]; [lia|]. lra.
  - change 0%Q with (inject_Z 0). rewrite <- Zle_Qle. split.
    + intros H. left. lia.
    + intros [H|[H _]]; lia.
Qed.

Lemma ranks_total a b : Qle_bool (compareEntries a b) 0 = false -> ranks_before b a.
Proof.
  intros H.
  assert (Hn : ~ ranks_before a b).
  { intros Hr. apply compare_ranks in Hr. congruence. }
  unfold ranks_before in *.
  destruct (Nat.lt_trichotomy (contentCount a.2) (contentCount b.2)) as [Hlt|[Heq|Hgt]].
  - left. exact Hlt.
  - right. split; [exact Heq|].
    destruct (Qlt_le_dec (stabilityScore b.1) (stabilityScore a.1)) as [Hq|Hq].
    + exfalso. apply Hn. right. split; [lia|]. apply Qlt_le_weak, Hq.
    + exact Hq.
  - exfalso. apply Hn. left. exact Hgt.
Qed.

Lemma ranks_trans a b c : ranks_before a b -> ranks_before b c -> ranks_before a c.
Proof.
  unfold ranks_before. intros [H1|[H1 Q1]] [H2|[H2 Q2]].
  - left. lia.
  - left. lia.
  - left. lia.
  - right. split; [lia|]. apply Qle_trans with (stabilityScore b.1); assumption.
Qed.

Lemma qualified_sorted all intent : StronglySorted ranks_before (qualified all intent).
Proof.
  unfold qualified, slice0. apply take_sorted.
  apply sort_sorted.
  - intros x y H. apply compare_ranks, H.
  - intros x y H. apply ranks_total, H.
  - apply ranks_trans.
Qed.

Lemma qualified_in_survivors all intent x :
  In x (qualified all intent) -> In x (survivors all intent).
Proof.
  unfold qualified, slice0. intros H.
  apply (Permutation_in _ (sort_perm compareEntries (survivors all intent))).
  rewrite <- (firstn_skipn MAX_FALLBACKS (sort compareEntries (survivors all intent))).
  apply in_or_app. left. exact H.
Qed.

Lemma survivors_keys all intent : NoDup (map fst (survivors all intent)).
Proof.
  unfold survivors. pose proof (selectorStats_keys all intent) as H.
  induction (selectorStats all intent) as [|[k st] l IH]; cbn; [constructor|].
  cbn in H. apply NoDup_cons in H. destruct H as [Hk Hnd].
  destruct (passes _ _); cbn; [|apply IH, Hnd].
  apply NoDup_cons. split; [|apply IH, Hnd].
  intros Hin. apply Hk. apply list_elem_of_In in Hin. apply list_elem_of_In.
  apply in_map_iff in Hin. destruct Hin as (x & Hx & Hin).
  apply filter_In in Hin. apply in_map_iff. exists x. tauto.
Qed.

Lemma qualified_keys all intent : NoDup (map fst (qualified all intent)).
Proof.
  unfold qualified, slice0.
  assert (Hs : NoDup (map fst (sort compareEntries (survivors all intent)))).
  { rewrite (sort_perm compareEntries (survivors all intent)). apply survivors_keys. }
  revert Hs.
  rewrite <- (firstn_skipn MAX_FALLBACKS (sort compareEntries (survivors all intent))) at 1.
  rewrite map_app. intros Hs. apply NoDup_app in Hs. tauto.
Qed.

Lemma entry_chain all modes intent e :
  scoreConsensus all modes !! intent = Some e ->
  selectors e = map fst (qualified all intent) /\ qualified all intent <> [].
Proof.
  intros H. apply scoreConsensus_lookup in H. unfold scoreIntent in H.
  destruct (qualified all intent) as [|[bestSel bestStats] rest]; [discriminate|].
  injection H as <-. split; [reflexivity|discriminate].
Qed.

Lemma passes_positive n e : passes n e = true -> 0 < contentCount e.2.
Proof.
  unfold passes. rewrite Qle_bool_iff.
  destruct (contentCount e.2) as [|c]; [|lia].
  unfold ratio, CONTENT_THRESHOLD, Qdiv, Qle, Qmult. cbn. lia.
Qed.

Lemma survivor_verified all intent sel st :
  In (sel, st) (survivors all intent) ->
  exists pageResult probe,
    In pageResult all /\ In probe (probes_of pageResult intent) /\
    selector probe = sel /\ verified probe = true.
Proof.
  unfold survivors. intros H. apply filter_In in H. destruct H as [Hin Hpass].
  apply passes_positive in Hpass. cbn in Hpass.
  apply selectorStats_entry in Hin. destruct Hin as [_ ->].
  rewrite fold_bump_content in Hpass. cbn in Hpass.
  destruct (List.filter verified (probes_for sel (all_probes all intent))) as [|q qs] eqn:E;
    [cbn in Hpass; lia|].
  assert (Hq : In q (List.filter verified (probes_for sel (all_probes all intent))))
    by (rewrite E; left; reflexivity).
  apply filter_In in Hq. destruct Hq as [Hq Hver].
  unfold probes_for in Hq. apply filter_In in Hq. destruct Hq as [Hq Hsel].
  apply String.eqb_eq in Hsel.
  unfold all_probes in Hq. apply in_flat_map in Hq. destruct Hq as (pageResult & Hp & Hq).
  exists pageResult, q. tauto.
Qed.


(** *** Properties *)


Lemma scenario_C_lookup : scoreConsensus scenario_C no_modes !! "price" = Some scenario_C_entry.
Proof. vm_compute. reflexivity. Qed.

(** The stability multiplier of every selector lies between 0.2 and 1. *)
Lemma stability_between_fifth_and_one (sel : string) :
  (0.2 <= stabilityScore sel)%Q /\ (stabilityScore sel <= 1)%Q.
Proof.
  unfold stabilityScore.
  repeat match goal with
         | |- context [if ?b then _ else _] => destruct b
         end; split; discriminate.
Qed.

(** X1. With at least one sample, a candidate passes the content filter
    exactly when 100 times its verified count reaches 34 times the number
    of samples. *)
Theorem filter_in_integers
    (allPageResults : list PageProbeResults) (intent sel : string) (st : Stats) :
  allPageResults <> [] ->
  In (sel, st) (survivors allPageResults intent) <->
  In (sel, st) (selectorStats allPageResults intent) /\
  (34 * Z.of_nat (List.length allPageResults) <= 100 * Z.of_nat (contentCount st))%Z.
Proof.
  intros Hne. unfold survivors. rewrite filter_In.
  rewrite (passes_iff (List.length allPageResults) (sel, st)); [reflexivity|].
  destruct allPageResults; [congruence|cbn; lia].
Qed.

Lemma filter_in_integers_witness :
  scenario_C <> [] /\
  (In ("[data-testid=price]",
       {| matchCount := 3; contentCount := 2; exampleValues := ["$29.99"; "$29.99"] |})
      (survivors scenario_C "price") <->
   In ("[data-testid=price]",
       {| matchCount := 3; contentCount := 2; exampleValues := ["$29.99"; "$29.99"] |})
      (selectorStats scenario_C "price") /\
   (34 * Z.of_nat (List.length scenario_C) <= 100 * Z.of_nat 2)%Z).
Proof.
  split; [discriminate|].
  apply (filter_in_integers scenario_C "price" "[data-testid=price]"
           {| matchCount := 3; contentCount := 2; exampleValues := ["$29.99"; "$29.99"] |}).
  discriminate.
Defined.

(** X2. The counters of a selector's row are the numbers of probes of that
    selector, over all samples, that matched and that passed content
    verification. *)
Theorem selector_tallies
    (allPageResults : list PageProbeResults) (intent sel : string) (st : Stats) :
  In (sel, st) (selectorStats allPageResults intent) ->
  matchCount st = count_matched sel (all_probes allPageResults intent) /\
  contentCount st = count_verified sel (all_probes allPageResults intent).
Proof.
  intros Hin. apply selectorStats_entry in Hin. destruct Hin as [_ ->].
  rewrite fold_bump_match, fold_bump_content. split; reflexivity.
Qed.

Lemma selector_tallies_witness :
  In (".amount", {| matchCount := 2; contentCount := 0; exampleValues := [] |})
     (selectorStats scenario_C "price") /\
  2 = count_matched ".amount" (all_probes scenario_C "price") /\
  0 = count_verified ".amount" (all_probes scenario_C "price").
Proof.
  split; [vm_compute; right; left; reflexivity|].
  apply (selector_tallies scenario_C "price" ".amount"
           {| matchCount := 2; contentCount := 0; exampleValues := [] |}).
  vm_compute. right. left. reflexivity.
Defined.

(** X3. The statistics map has exactly one row for each selector that was
    probed for the intent. *)
Theorem one_row_per_probed_selector
    (allPageResults : list PageProbeResults) (intent : string) :
  NoDup (map fst (selectorStats allPageResults intent)) /\
  forall sel,
    In sel (map fst (selectorStats allPageResults intent)) <->
    In sel (map selector (all_probes allPageResults intent)).
Proof.
  split; [apply selectorStats_keys|]. intros sel.
  rewrite <- probes_for_nonempty. split.
  - intros H. apply in_map_iff in H. destruct H as ([k st] & Hk & Hin). cbn in Hk. subst k.
    apply selectorStats_entry in Hin. tauto.
  - intros H.
    destruct (stats_get (selectorStats allPageResults intent) sel) as [st|] eqn:E.
    + apply get_some_in in E. apply in_map_iff. exists (sel, st). auto.
    + rewrite selectorStats_flat, get_fold in E. cbn in E.
      destruct (probes_for sel (all_probes allPageResults intent)); [congruence|discriminate].
Qed.

(** X4. The fallback chain of an entry never lists a selector twice. *)
Theorem chain_selectors_distinct
    (allPageResults : list PageProbeResults) (verifyModes : gmap string VerifyMode)
    (intent : string) (entry : SelectorEntry) :
  scoreConsensus allPageResults verifyModes !! intent = Some entry ->
  NoDup (selectors entry).
Proof.
  intros H. apply entry_chain in H. destruct H as [-> _]. apply qualified_keys.
Qed.

Lemma chain_selectors_distinct_witness :
  scoreConsensus scenario_C no_modes !! "price" = Some scenario_C_entry /\
  NoDup ["[data-testid=price]"].
Proof.
  split; [exact scenario_C_lookup|].
  apply (chain_selectors_distinct scenario_C no_modes "price" scenario_C_entry).
  exact scenario_C_lookup.
Defined.

(** X5. Every selector of a fallback chain passed content verification on
    at least one sample of that intent. *)
Theorem chain_selectors_verified
    (allPageResults : list PageProbeResults) (verifyModes : gmap string VerifyMode)
    (intent sel : string) (entry : SelectorEntry) :
  scoreConsensus allPageResults verifyModes !! intent = Some entry ->
  In sel (selectors entry) ->
  exists pageResult probe,
    In pageResult allPageResults /\ In probe (probes_of pageResult intent) /\
    selector probe = sel /\ verified probe = true.
Proof.
  intros H Hin. apply entry_chain in H. destruct H as [Hsel _]. rewrite Hsel in Hin.
  apply in_map_iff in Hin. destruct Hin as ([k st] & Hk & Hin). cbn in Hk. subst k.
  apply qualified_in_survivors in Hin. apply (survivor_verified _ _ _ _ Hin).
Qed.

Lemma chain_selectors_verified_witness :
  scoreConsensus scenario_C no_modes !! "price" = Some scenario_C_entry /\
  In "[data-testid=price]" (selectors scenario_C_entry) /\
  exists pageResult probe,
    In pageResult scenario_C /\ In probe (probes_of pageResult "price") /\
    selector probe = "[data-testid=price]" /\ verified probe = true.
Proof.
  split; [exact scenario_C_lookup|]. split; [left; reflexivity|].
  apply (chain_selectors_verified scenario_C no_modes "price" "[data-testid=price]"
           scenario_C_entry).
  - exact scenario_C_lookup.
  - left. reflexivity.
Defined.

(** X6. A fallback chain is the ranked list of qualified candidates: more
    verified samples come first, ties go to the higher stability score,
    and no surviving candidate has more verified samples than the first
    selector of the chain. *)
Theorem chain_is_ranked
    (allPageResults : list PageProbeResults) (verifyModes : gmap string VerifyMode)
    (intent : string) (entry : SelectorEntry) :
  scoreConsensus allPageResults verifyModes !! intent = Some entry ->
  selectors entry = map fst (qualified allPageResults intent) /\
  StronglySorted ranks_before (qualified allPageResults intent) /\
  exists best,
    head (qualified allPageResults intent) = Some best /\
    forall other, In other (survivors allPageResults intent) ->
                  contentCount other.2 <= contentCount best.2.
Proof.
  intros H. apply entry_chain in H. destruct H as [Hsel Hne].
  split; [exact Hsel|]. split; [apply qualified_sorted|].
  unfold qualified, slice0, MAX_FALLBACKS in *.
  pose proof (sort_sorted compareEntries ranks_before
                (fun x y E => proj1 (compare_ranks x y) E) ranks_total ranks_trans
                (survivors allPageResults intent)) as Hsorted.
  pose proof (sort_perm compareEntries (survivors allPageResults intent)) as Hperm.
  destruct (sort compareEntries (survivors allPageResults intent)) as [|best rest];
    [cbn in Hne; congruence|].
  exists best. split; [reflexivity|]. intros other Hother.
  apply (Permutation_in _ (Permutation_sym Hperm)) in Hother.
  apply StronglySorted_inv in Hsorted. destruct Hsorted as [_ Hbest].
  destruct Hother as [<-|Hother]; [lia|].
  rewrite Forall_forall in Hbest. apply list_elem_of_In, Hbest in Hother.
  unfold ranks_before in Hother. lia.
Qed.

Lemma chain_is_ranked_witness :
  scoreConsensus ranked_samples no_modes !! "price" = Some ranked_entry /\
  (selectors ranked_entry = map fst (qualified ranked_samples "price") /\
   StronglySorted ranks_before (qualified ranked_samples "price") /\
   exists best,
     head (qualified ranked_samples "price") = Some best /\
     forall other, In other (survivors ranked_samples "price") ->
                   contentCount other.2 <= contentCount best.2) /\
  map fst (selectorStats ranked_samples "price") = [".amount"; "#price"; "[data-testid=price]"] /\
  map (fun e => contentCount e.2) (qualified ranked_samples "price") = [3; 2; 2].
Proof.
  assert (H : scoreConsensus ranked_samples no_modes !! "price" = Some ranked_entry)
    by (vm_compute; reflexivity).
  split; [exact H|].
  split; [exact (chain_is_ranked ranked_samples no_modes "price" ranked_entry H)|].
  split; vm_compute; reflexivity.
Defined.

(** X7. An entry exists only for an intent that is a key of some sample,
    and its sample count does not exceed the number of samples. *)
Theorem entries_only_for_probed_intents
    (allPageResults : list PageProbeResults) (verifyModes : gmap string VerifyMode)
    (intent : string) (entry : SelectorEntry) :
  scoreConsensus allPageResults verifyModes !! intent = Some entry ->
  (exists pageResult, In pageResult allPageResults /\ intent ∈ dom pageResult) /\
  sampleCount entry <= List.length allPageResults.
Proof.
  intros H. split.
  - apply entry_chain in H. destruct H as [_ Hne].
    destruct (qualified allPageResults intent) as [|[sel st] rest] eqn:E; [congruence|].
    assert (Hin : In (sel, st) (qualified allPageResults intent))
      by (rewrite E; left; reflexivity).
    apply qualified_in_survivors, survivor_verified in Hin.
    destruct Hin as (pageResult & probe & Hpage & Hprobe & _).
    exists pageResult. split; [exact Hpage|].
    unfold probes_of in Hprobe. apply elem_of_dom.
    destruct (pageResult !! intent); [eauto|destruct Hprobe].
  - apply scoreConsensus_lookup in H. unfold scoreIntent in H.
    destruct (qualified allPageResults intent) as [|[bestSel bestStats] rest]; [discriminate|].
    injection H as <-. cbn [sampleCount]. unfold samplesContaining.
    apply filter_length_le.
Qed.

Lemma entries_only_for_probed_intents_witness :
  scoreConsensus scenario_C no_modes !! "price" = Some scenario_C_entry /\
  (exists pageResult, In pageResult scenario_C /\ "price" ∈ dom pageResult) /\
  sampleCount scenario_C_entry <= List.length scenario_C.
Proof.
  split; [exact scenario_C_lookup|].
  apply (entries_only_for_probed_intents scenario_C no_modes "price" scenario_C_entry).
  exact scenario_C_lookup.
Defined.

(** X8. The product and listing schemas read the first selector of an
    intent's entry.  An intent that was scored always gives them a
    selector, the top-ranked candidate; an intent without an entry gives
    them none. *)
Theorem schema_pick_is_top_ranked
    (allPageResults : list PageProbeResults) (verifyModes : gmap string VerifyMode)
    (key : string) :
  match scoreConsensus allPageResults verifyModes !! key with
  | Some entry =>
      exists sel,
        CrawlEngine.pick (scoreConsensus allPageResults verifyModes) key = Some sel /\
        head (selectors entry) = Some sel /\
        fst <$> head (qualified allPageResults key) = Some sel
  | None => CrawlEngine.pick (scoreConsensus allPageResults verifyModes) key = None
  end.
Proof.
  unfold CrawlEngine.pick.
  destruct (scoreConsensus allPageResults verifyModes !! key) as [entry|] eqn:E; [|reflexivity].
  apply entry_chain in E. destruct E as [Hsel Hne]. rewrite Hsel.
  destruct (qualified allPageResults key) as [|[sel st] rest]; [congruence|].
  exists sel. cbn. auto.
Qed.

End ConsensusScorerMore.

(* ===================================================================== *)
(** ** Properties of the coverage calculation *)
(* ===================================================================== *)

Module CoverageFacts.
Import JsString SharedTypes ConsensusScorer Coverage ConsensusScorerFacts Examples.

Lemma filter_le_pointwise {A} (p q : A -> bool) l :
  (forall x, p x = true -> q x = true) ->
  List.length (List.filter p l) <= List.length (List.filter q l).
Proof.
  intros Hpq. induction l as [|x l IH]; cbn; [lia|].
  destruct (p x) eqn:Ep.
  - rewrite (Hpq x Ep). cbn. lia.
  - destruct (q x); cbn; lia.
Qed.

Lemma ratio_monotone a b total : a <= b -> (ratio a total <= ratio b total)%Q.
Proof.
  intros Hab. unfold ratio, Qdiv.
  apply Qmult_le_compat_r.
  - rewrite <- Zle_Qle. lia.
  - apply Qinv_le_0_compat. change 0%Q with (inject_Z 0). rewrite <- Zle_Qle. lia.
Qed.

Lemma ratio_at_most_one a total : a <= total -> (ratio a total <= 1)%Q.
Proof.
  intros Hle. destruct total as [|t].
  - unfold ratio, Qdiv. cbn. rewrite Qmult_0_r. discriminate.
  - unfold ratio, Qdiv, Qle, Qmult, Qinv, inject_Z.
    change (Z.of_nat (S t)) with (Z.pos (Pos.of_succ_nat t)). cbn -[Z.mul Z.of_nat].
    assert (Z.of_nat a <= Z.pos (Pos.of_succ_nat t))%Z.
    { change (Z.pos (Pos.of_succ_nat t)) with (Z.of_nat (S t)). lia. }
    lia.
Qed.

Lemma Math_round_monotone x y : (x <= y)%Q -> (Math_round x <= Math_round y)%Z.
Proof.
  intros H. unfold Math_round. apply Qfloor_resp_le. lra.
Qed.

Lemma percentage_monotone a b total : a <= b -> (percentage a total <= percentage b total)%Z.
Proof.
  intros Hab. unfold percentage. destruct (Nat.ltb 0 total); [|lia].
  apply Math_round_monotone.
  pose proof (ratio_monotone a b total Hab). lra.
Qed.

Lemma percentage_range a total : a <= total -> (0 <= percentage a total <= 100)%Z.
Proof.
  intros Hle. unfold percentage. destruct (Nat.ltb 0 total); [|lia]. split.
  - apply Math_round_nonneg. pose proof (ratio_nonneg a total). lra.
  - unfold Math_round.
    assert (H : (ratio a total * 100 + (1 # 2) < inject_Z 101)%Q).
    { pose proof (ratio_at_most_one a total Hle).
      change (inject_Z 101) with 101%Q. lra. }
    pose proof (Qfloor_le (ratio a total * 100 + (1 # 2))) as Hf.
    assert (Hlt : (inject_Z (Qfloor (ratio a total * 100 + (1 # 2))) < inject_Z 101)%Q)
      by (eapply Qle_lt_trans; eassumption).
    rewrite <- Zlt_Qlt in Hlt. lia.
Qed.

Lemma covered_le elements keys : covered elements keys <= List.length keys.
Proof. unfold covered. apply filter_length_le. Qed.

Lemma is_covered_insert elements k e k' :
  elements !! k = None ->
  is_covered elements k' = true -> is_covered (<[k := e]> elements) k' = true.
Proof.
  intros Hk. unfold is_covered. destruct (decide (k = k')) as [<-|Hne].
  - rewrite Hk. discriminate.
  - rewrite lookup_insert_ne by exact Hne. auto.
Qed.

(** X9. In every coverage report the covered counts do not exceed the
    group totals and the overall percentage lies between 0 and 100; it is
    0 when the three groups of the taxonomy are empty. *)
Theorem coverage_report_bounds
    (TAXONOMY_GROUPS : TaxonomyGroups) (elements : gmap string SelectorEntry) :
  let report := calculateCoverage TAXONOMY_GROUPS elements in
  pdpIntentsCovered report <= pdpIntentsTotal report /\
  plpIntentsCovered report <= plpIntentsTotal report /\
  globalIntentsCovered report <= globalIntentsTotal report /\
  (0 <= overallPct report <= 100)%Z /\
  (pdpIntentsTotal report + plpIntentsTotal report + globalIntentsTotal report = 0 ->
   overallPct report = 0%Z).
Proof.
  cbn. repeat split; try apply covered_le.
  3:{ intros H. unfold percentage. rewrite H. reflexivity. }
  - apply percentage_range.
    pose proof (covered_le elements (pdp TAXONOMY_GROUPS)).
    pose proof (covered_le elements (plp TAXONOMY_GROUPS)).
    pose proof (covered_le elements (global TAXONOMY_GROUPS)). lia.
  - apply percentage_range.
    pose proof (covered_le elements (pdp TAXONOMY_GROUPS)).
    pose proof (covered_le elements (plp TAXONOMY_GROUPS)).
    pose proof (covered_le elements (global TAXONOMY_GROUPS)). lia.
Qed.

(** X10. Adding an entry for an intent that had none never lowers a covered
    count or the overall percentage, and never adds an intent to the
    uncovered list. *)
Theorem coverage_monotone
    (TAXONOMY_GROUPS : TaxonomyGroups) (elements : gmap string SelectorEntry)
    (intent : string) (entry : SelectorEntry) :
  elements !! intent = None ->
  let before := calculateCoverage TAXONOMY_GROUPS elements in
  let after := calculateCoverage TAXONOMY_GROUPS (<[intent := entry]> elements) in
  pdpIntentsCovered before <= pdpIntentsCovered after /\
  plpIntentsCovered before <= plpIntentsCovered after /\
  globalIntentsCovered before <= globalIntentsCovered after /\
  (overallPct before <= overallPct after)%Z /\
  (forall k, In k (uncovered after) -> In k (uncovered before)).
Proof.
  intros Hnone. cbn.
  assert (Hcov : forall keys,
             covered elements keys <= covered (<[intent := entry]> elements) keys).
  { intros keys. unfold covered. apply filter_le_pointwise.
    intros k. apply is_covered_insert, Hnone. }
  repeat split; try apply Hcov.
  - apply percentage_monotone.
    pose proof (Hcov (pdp TAXONOMY_GROUPS)). pose proof (Hcov (plp TAXONOMY_GROUPS)).
    pose proof (Hcov (global TAXONOMY_GROUPS)). lia.
  - intros k Hk. apply filter_In in Hk. destruct Hk as [Hin Hk].
    apply filter_In. split; [exact Hin|].
    destruct (is_covered elements k) eqn:E; [|reflexivity].
    rewrite (is_covered_insert _ _ _ _ Hnone E) in Hk. discriminate.
Qed.

Lemma coverage_monotone_witness :
  (∅ : gmap string SelectorEntry) !! "price" = None /\
  (overallPct (calculateCoverage example_taxonomy ∅)
   <= overallPct (calculateCoverage example_taxonomy (<["price" := scenario_C_entry]> ∅)))%Z.
Proof.
  split; [apply lookup_empty|].
  pose proof (coverage_monotone example_taxonomy ∅ "price" scenario_C_entry
                                (lookup_empty "price")) as H.
  cbv zeta in H. destruct H as (_ & _ & _ & H & _). exact H.
Defined.

End CoverageFacts.

(* ===================================================================== *)
(** ** More properties of the page classifier *)
(* ===================================================================== *)

Module PageClassifierMore.
Import JsString SharedTypes PageClassifier Examples Examples.

Lemma jsonLd_never_other types : jsonLdTypeToPageType types <> Some Other.
Proof.
  unfold jsonLdTypeToPageType.
  repeat match goal with
         | |- context [if ?b then _ else _] => destruct b
         end; discriminate.
Qed.

Lemma detect_in_source page table t :
  detect_in page table = Some t ->
  exists sels, In (t, sels) table /\ first_positive page sels = true.
Proof.
  induction table as [|[t0 sels0] table IH]; cbn; [discriminate|].
  destruct (first_positive page sels0) eqn:E.
  - intros H. injection H as <-. exists sels0. auto.
  - intros H. destruct (IH H) as (sels & Hin & Hpos). exists sels. auto.
Qed.

Lemma dom_never_other page : detectDomType page <> Some Other.
Proof.
  intros H. apply detect_in_source in H. destruct H as (sels & Hin & Hpos).
  unfold DOM_SIGNATURES in Hin. cbn in Hin.
  repeat (destruct Hin as [Hin|Hin]; [try discriminate Hin|]); [|destruct Hin].
  injection Hin as <-. discriminate Hpos.
Qed.

Lemma run_never_other vs : jsonLdTypeToPageType_run vs <> Some (Some Other).
Proof.
  unfold jsonLdTypeToPageType_run. destruct (strings_of vs) as [strs|]; cbn; [|discriminate].
  intros H. injection H as H. exact (jsonLd_never_other strs H).
Qed.

Lemma run_nil : jsonLdTypeToPageType_run [] = Some None.
Proof. reflexivity. Qed.

Section WithUrl.
Variable new_URL : string -> option WebUrl.URL.

(** X11. [classifyPage] answers [other] exactly when it falls through to the
    fallback, and the fallback rule has confidence 0 and the pattern [.*].
    It gives no answer only when it throws, on structured-data types that
    are not all strings. *)
Theorem other_only_by_fallback (page : Page) (urlStr : string) :
  match classifyPage new_URL page urlStr with
  | Some result =>
      (type result = Other <-> method result = ByFallback) /\
      (method result = ByFallback ->
       rule_confidence (rule result) = 0%Z /\ urlPattern (rule result) = ".*")
  | None => strings_of (jsonLdTypes page) = None
  end.
Proof.
  unfold classifyPage.
  pose proof (run_never_other (jsonLdTypes page)) as Hld.
  pose proof (dom_never_other page) as Hdom.
  assert (Hthrow : jsonLdTypeToPageType_run (jsonLdTypes page) = None ->
                   strings_of (jsonLdTypes page) = None).
  { unfold jsonLdTypeToPageType_run. destruct (strings_of (jsonLdTypes page)); [discriminate|auto]. }
  destruct (Nat.ltb 0 (List.length (jsonLdTypes page)));
    destruct (jsonLdTypeToPageType_run (jsonLdTypes page)) as [[t|]|];
    try (exact (Hthrow eq_refl));
    try (destruct (scoreUrlByType new_URL urlStr) eqn:Eu);
    try (destruct (detectDomType page) as [d|]);
    cbn; (split; [split|]); intros; try discriminate; try congruence; auto.
Qed.

(** X12. The method names the first tier that answered, and fixes the
    confidence: 95 for structured data, 70 for the URL, 55 for the DOM,
    0 for the fallback.  There is no answer only when [classifyPage]
    throws, on structured-data types that are not all strings. *)
Theorem tier_decides_confidence (page : Page) (urlStr : string) :
  match classifyPage new_URL page urlStr with
  | Some result =>
      match method result with
      | ByJsonld =>
          jsonLdTypeToPageType_run (jsonLdTypes page) = Some (Some (type result))
          /\ rule_confidence (rule result) = 95%Z
      | ByUrl =>
          jsonLdTypeToPageType_run (jsonLdTypes page) = Some None
          /\ scoreUrlByType new_URL urlStr = type result
          /\ rule_confidence (rule result) = 70%Z
      | ByDom =>
          jsonLdTypeToPageType_run (jsonLdTypes page) = Some None
          /\ scoreUrlByType new_URL urlStr = Other
          /\ detectDomType page = Some (type result)
          /\ rule_confidence (rule result) = 55%Z
      | ByFallback =>
          jsonLdTypeToPageType_run (jsonLdTypes page) = Some None
          /\ scoreUrlByType new_URL urlStr = Other
          /\ detectDomType page = None
          /\ rule_confidence (rule result) = 0%Z
      end
  | None => strings_of (jsonLdTypes page) = None
  end.
Proof.
  unfold classifyPage.
  assert (Hnil : Nat.ltb 0 (List.length (jsonLdTypes page)) = false ->
                 jsonLdTypeToPageType_run (jsonLdTypes page) = Some None).
  { destruct (jsonLdTypes page); [reflexivity|discriminate]. }
  assert (Hthrow : jsonLdTypeToPageType_run (jsonLdTypes page) = None ->
                   strings_of (jsonLdTypes page) = None).
  { unfold jsonLdTypeToPageType_run. destruct (strings_of (jsonLdTypes page)); [discriminate|auto]. }
  destruct (Nat.ltb 0 (List.length (jsonLdTypes page))).
  - destruct (jsonLdTypeToPageType_run (jsonLdTypes page)) as [[t|]|];
      [cbn; split; reflexivity| |exact (Hthrow eq_refl)].
    destruct (scoreUrlByType new_URL urlStr) eqn:Eu;
      destruct (detectDomType page) as [d|]; cbn; repeat split; reflexivity.
  - specialize (Hnil (Logic.eq_refl false)). rewrite Hnil.
    destruct (scoreUrlByType new_URL urlStr) eqn:Eu;
      destruct (detectDomType page) as [d|]; cbn; repeat split; reflexivity.
Qed.

(** X13. The URL tier answers [home] only for a URL that parses and has no
    path segment, and [category] only for one with one or two segments. *)
Theorem url_tier_segment_counts (urlStr : string) :
  (scoreUrlByType new_URL urlStr = Home ->
   exists u, new_URL urlStr = Some u /\ segments (WebUrl.pathname u) = []) /\
  (scoreUrlByType new_URL urlStr = Category ->
   exists u, new_URL urlStr = Some u /\
             1 <= List.length (segments (WebUrl.pathname u)) <= 2).
Proof.
  unfold scoreUrlByType. destruct (new_URL urlStr) as [u|]; [|split; discriminate].
  cbv zeta.
  repeat match goal with
         | |- context [if ?b then _ else _] =>
             let E := fresh "E" in destruct b eqn:E
         end;
    split; intros H; try discriminate H; exists u; (split; [reflexivity|]);
    repeat match goal with
           | E : Nat.eqb _ _ = true |- _ => apply Nat.eqb_eq in E
           end;
    first [ lia
          | destruct (segments (WebUrl.pathname u)); [reflexivity|cbn in *; discriminate] ].
Qed.

(** X14. When the URL does not parse and the structured data names no
    known type, the URL tier is skipped: the answer is the DOM tier's type,
    or [other], and the rule's pattern is [.*] either way. *)
Theorem unparsable_url_skips_url_tier (page : Page) (urlStr : string) :
  new_URL urlStr = None ->
  jsonLdTypeToPageType_run (jsonLdTypes page) = Some None ->
  exists result,
    classifyPage new_URL page urlStr = Some result /\
    type result = default Other (detectDomType page) /\
    method result <> ByUrl /\
    urlPattern (rule result) = ".*".
Proof.
  intros Hu Hld. unfold classifyPage, scoreUrlByType, buildUrlPattern. rewrite Hu, Hld.
  destruct (Nat.ltb 0 (List.length (jsonLdTypes page)));
    destruct (detectDomType page); cbn; eexists; (split; [reflexivity|]);
    cbn; repeat split; discriminate.
Qed.

End WithUrl.

(** X15. [jsonLdTypeToPageType] answers nothing exactly when no type,
    compared without regard to case, is one of the fifteen names it knows. *)
Theorem jsonLd_unknown_iff (types : list string) :
  jsonLdTypeToPageType types = None <->
  forall t, In t types ->
    ~ In (toLowerCase t)
         ["product"; "offer"; "individualoffer";
          "itemlist"; "collectionpage"; "productcollection"; "offeraggregate";
          "aggregateoffer"; "order"; "cart"; "checkout";
          "website"; "webpage"; "webapplication"; "searchresultspage"].
Proof.
  unfold jsonLdTypeToPageType.
  repeat match goal with
         | |- context [if existsb ?p ?l then _ else _] =>
             let E := fresh "E" in destruct (existsb p l) eqn:E
         end.
  all: try (split; [discriminate|]; intros H; exfalso;
            match goal with
            | E : existsb _ _ = true |- _ =>
                apply existsb_exists in E; destruct E as (x & Hx & Hp);
                apply in_map_iff in Hx; destruct Hx as (t & <- & Ht);
                apply (H t Ht);
                repeat (apply orb_prop in Hp; destruct Hp as [Hp|Hp]);
                apply String.eqb_eq in Hp; rewrite Hp; cbn; tauto
            end).
  split; [|reflexivity]. intros _ t Ht Hin.
  assert (Hl : In (toLowerCase t) (map toLowerCase types)) by (apply in_map; exact Ht).
  repeat match goal with
         | E : existsb ?p ?l = false |- _ =>
             assert (p (toLowerCase t) = false)
               by (destruct (p (toLowerCase t)) eqn:Ep; [|reflexivity]; exfalso;
                   assert (existsb p l = true) by (apply existsb_exists; eauto);
                   congruence);
             clear E
         end.
  cbn in Hin.
  repeat (destruct Hin as [Hin|Hin];
          [rewrite <- Hin in *; cbn in *; congruence|]).
  destruct Hin.
Qed.

Lemma unparsable_url_skips_url_tier_witness :
  WebUrl.parse "not a url" = None /\
  jsonLdTypeToPageType_run (jsonLdTypes (quiet_page ["BreadcrumbList"])) = Some None /\
  exists result,
    classifyPage WebUrl.parse (quiet_page ["BreadcrumbList"]) "not a url" = Some result /\
    type result = default Other (detectDomType (quiet_page ["BreadcrumbList"])) /\
    method result <> ByUrl /\
    urlPattern (rule result) = ".*".
Proof.
  split; [reflexivity|]. split; [reflexivity|].
  exact (unparsable_url_skips_url_tier WebUrl.parse (quiet_page ["BreadcrumbList"])
                                       "not a url" eq_refl eq_refl).
Defined.

End PageClassifierMore.

(* ===================================================================== *)
(** ** More properties of the URL registry builder *)
(* ===================================================================== *)

Module UrlRegistryBuilderMore.
Import JsString SharedTypes UrlRegistryBuilder UrlRegistryBuilderFacts JsStringFacts Examples Notions.

(** *** Categories *)

Lemma dedup_categories_spec seen cs :
  NoDup (map cat_url (dedup_categories seen cs)) /\
  (forall c, In c (dedup_categories seen cs) -> In c cs /\ cat_url c ∉ seen).
Proof.
  revert seen. induction cs as [|c cs IH]; intros seen; cbn.
  - split; [constructor|]. intros c [].
  - case_bool_decide as Hseen.
    + destruct (IH seen) as [Hnd Hin]. split; [exact Hnd|].
      intros c' Hc'. destruct (Hin c' Hc'). auto.
    + destruct (IH (seen ∪ {[cat_url c]})) as [Hnd Hin]. split.
      * cbn. apply NoDup_cons. split; [|exact Hnd].
        intros Hc. apply list_elem_of_In, in_map_iff in Hc.
        destruct Hc as (c' & Heq & Hc'). destruct (Hin c' Hc') as [_ Hnot].
        apply Hnot. rewrite Heq. apply elem_of_union_r, elem_of_singleton. reflexivity.
      * intros c' [<-|Hc']; [auto|].
        destruct (Hin c' Hc') as [H1 H2]. split; [auto|].
        intros Hs. apply H2, elem_of_union_l, Hs.
Qed.

Lemma take_in {A} n (l : list A) x : In x (take n l) -> In x l.
Proof.
  intros H. rewrite <- (firstn_skipn n l). apply in_or_app. left. exact H.
Qed.

Lemma take_nodup {A} n (l : list A) : NoDup l -> NoDup (take n l).
Proof.
  intros H. rewrite <- (firstn_skipn n l) in H. apply NoDup_app in H. tauto.
Qed.

(** *** Products *)

Section Crawl.
Variable new_URL : string -> option WebUrl.URL.
Variable cleanProductName : string -> string.

Lemma crawl_fold_kept (P : ProductUrl -> Prop) cap browser cats st :
  (forall cat nm u, In cat cats -> P {| name := nm; url := u; category := cat_name cat |}) ->
  well_kept P st ->
  well_kept P (fold_left (fun st cat =>
                            crawlCategory new_URL cleanProductName cap (browser cat) cat st)
                         cats st).
Proof.
  revert st. induction cats as [|cat cats IH]; intros st HP Hst; cbn; [exact Hst|].
  apply IH; [intros; apply HP; right; assumption|].
  apply crawlCategory_kept; [| |exact Hst].
  - intros links _. apply Forall_forall. intros p Hp.
    apply list_elem_of_In, in_map_iff in Hp. destruct Hp as (q & <- & Hq).
    unfold extractProductUrls in Hq. apply in_map_iff in Hq. destruct Hq as (l & <- & _).
    cbn. apply HP. left. reflexivity.
  - intros n links _. apply Forall_forall. intros p Hp.
    apply list_elem_of_In, in_map_iff in Hp. destruct Hp as (l & <- & _).
    apply HP. left. reflexivity.
Qed.


Lemma extends_refl st : extends st st.
Proof. split; [exists []; rewrite app_nil_r; reflexivity|set_solver]. Qed.

Lemma extends_trans a b c : extends a b -> extends b c -> extends a c.
Proof.
  intros [[m1 H1] S1] [[m2 H2] S2]. split; [|set_solver].
  exists (m1 ++ m2). rewrite H2, H1, app_assoc. reflexivity.
Qed.

Lemma extends_push p st : extends st (push_product p st).
Proof. split; [exists [p]; reflexivity|cbn; set_solver]. Qed.

Lemma add_capped_extends cap ps st added :
  extends st (fst (add_capped cap ps st added)).
Proof.
  revert st added. induction ps as [|p ps IH]; intros st added; cbn; [apply extends_refl|].
  case_bool_decide; [apply IH|].
  destruct (Nat.leb cap added); [apply extends_refl|].
  eapply extends_trans; [apply extends_push|apply IH].
Qed.

Lemma add_new_extends ps st added : extends st (fst (add_new ps st added)).
Proof.
  revert st added. induction ps as [|p ps IH]; intros st added; cbn; [apply extends_refl|].
  case_bool_decide; [apply IH|].
  eapply extends_trans; [apply extends_push|apply IH].
Qed.

Lemma paginate_extends left pages page categoryName maxTotal st :
  extends st (paginate left pages page categoryName maxTotal st).
Proof.
  revert pages st. induction left as [|left IH]; intros pages st; cbn; [apply extends_refl|].
  destruct (negb _); [apply extends_refl|].
  destruct (clicked (page_next page pages)) as [[]|]; try apply extends_refl.
  destruct (step_links (page_next page pages)) as [links|]; [|apply extends_refl].
  pose proof (add_new_extends (extractProductUrls links categoryName) st 0) as H.
  destruct (add_new (extractProductUrls links categoryName) st 0) as [st' added]. cbn in H.
  destruct (Nat.eqb added 0); [exact H|].
  eapply extends_trans; [exact H|apply IH].
Qed.

Lemma add_capped_count cap ps st added :
  added <= cap ->
  snd (add_capped cap ps st added) <= cap /\
  List.length (collected (fst (add_capped cap ps st added))) + added
  = List.length (collected st) + snd (add_capped cap ps st added).
Proof.
  revert st added. induction ps as [|p ps IH]; intros st added Hle; cbn; [lia|].
  case_bool_decide; [apply IH, Hle|].
  destruct (Nat.leb_spec cap added) as [Hge|Hlt]; [cbn; lia|].
  destruct (IH (push_product p st) (S added) ltac:(lia)) as [H1 H2].
  split; [exact H1|]. cbn in H2. rewrite length_app in H2. cbn in H2. lia.
Qed.

Lemma paginate_agree left pages page page' categoryName maxTotal st :
  pages + left <= maxPages ->
  (forall n, n < maxPages -> page_next page n = page_next page' n) ->
  paginate left pages page categoryName maxTotal st
  = paginate left pages page' categoryName maxTotal st.
Proof.
  intros Hsum Hagree. revert pages st Hsum.
  induction left as [|left IH]; intros pages st Hsum; cbn; [reflexivity|].
  rewrite <- (Hagree pages) by lia.
  destruct (negb _); [reflexivity|].
  destruct (clicked (page_next page pages)) as [[]|]; try reflexivity.
  destruct (step_links (page_next page pages)) as [links|]; [|reflexivity].
  destruct (add_new (extractProductUrls links categoryName) st 0) as [st' added].
  destruct (Nat.eqb added 0); [reflexivity|]. apply IH. lia.
Qed.

(** X16. A registry lists at most 20 categories, no category URL twice,
    and each one is a navigation edge that targets a category page and has
    a link. *)
Theorem registry_categories (opts : RegistryBuildOptions) :
  let cats := categories (buildUrlRegistry new_URL cleanProductName opts) in
  List.length cats <= 20 /\
  NoDup (map cat_url cats) /\
  forall c, In c cats ->
    exists n, In n (opt_mainNav opts) /\ targetPageType n = Category /\
              href n <> EmptyString /\
              c = {| cat_name := label n; cat_url := href n |}.
Proof.
  cbn. unfold slice0. split; [rewrite length_take; lia|]. split.
  - rewrite <- firstn_map. apply take_nodup. apply dedup_categories_spec.
  - intros c Hc. apply take_in in Hc. apply dedup_categories_spec in Hc.
    destruct Hc as [Hc _]. apply in_map_iff in Hc. destruct Hc as (n & <- & Hn).
    apply filter_In in Hn. destruct Hn as [Hn Hf]. apply andb_prop in Hf.
    destruct Hf as [Ht Hh]. exists n. split; [exact Hn|]. split.
    + destruct (targetPageType n); (reflexivity || discriminate Ht).
    + split; [|reflexivity]. intros E. rewrite E in Hh. discriminate Hh.
Qed.

(** X17. Every product of a registry carries, as its category, the name of
    one of the registry's categories. *)
Theorem products_belong_to_categories (opts : RegistryBuildOptions) :
  forall p, In p (products (buildUrlRegistry new_URL cleanProductName opts)) ->
    exists c, In c (categories (buildUrlRegistry new_URL cleanProductName opts)) /\
              category p = cat_name c.
Proof.
  cbn. unfold crawl_all.
  match goal with
  | |- context [fold_left _ ?cats ?st0] =>
      pose proof (crawl_fold_kept
                    (fun p => exists c, In c cats /\ category p = cat_name c)
                    (default 200 (opt_maxProductsPerCategory opts)) (opt_browser opts)
                    cats st0) as H
  end.
  intros p Hp. destruct H as (_ & _ & HP).
  - intros cat nm u Hcat. exists cat. auto.
  - repeat split; cbn; [constructor|intros q []|constructor].
  - rewrite Forall_forall in HP. apply HP, list_elem_of_In, Hp.
Qed.

(** X18. A visit to a category page only appends: the products and the
    seen URLs it was handed are still there, in the same order. *)
Theorem crawlCategory_appends
    (cap : nat) (page : CategoryPage) (cat : CategoryUrl) (st : CrawlState) :
  exists more,
    collected (crawlCategory new_URL cleanProductName cap page cat st)
    = collected st ++ more /\
    seenProductUrls st
    ⊆ seenProductUrls (crawlCategory new_URL cleanProductName cap page cat st).
Proof.
  assert (H : extends st (crawlCategory new_URL cleanProductName cap page cat st)).
  { unfold crawlCategory. destruct (page_links page) as [links|]; [|apply extends_refl].
    match goal with
    | |- context [add_capped cap ?ps st 0] =>
        pose proof (add_capped_extends cap ps st 0) as H;
        destruct (add_capped cap ps st 0) as [st1 added]
    end.
    cbn in H. destruct (page_hasMore page) as [[]|]; try exact H.
    eapply extends_trans; [exact H|apply paginate_extends]. }
  destruct H as [[more Hmore] Hseen]. exists more. auto.
Qed.

(** X19. On a page without pagination, one visit adds at most the
    per-category maximum. *)
Theorem first_pass_is_capped
    (cap : nat) (page : CategoryPage) (cat : CategoryUrl) (st : CrawlState) :
  page_hasMore page <> Some true ->
  List.length (collected (crawlCategory new_URL cleanProductName cap page cat st))
  <= List.length (collected st) + cap.
Proof.
  intros Hmore. unfold crawlCategory. destruct (page_links page) as [links|]; [|lia].
  match goal with
  | |- context [add_capped cap ?ps st 0] =>
      pose proof (add_capped_count cap ps st 0 ltac:(lia)) as H;
      destruct (add_capped cap ps st 0) as [st1 added]
  end.
  cbn in H. destruct (page_hasMore page) as [[]|]; [congruence| |]; lia.
Qed.

(** X20. Pagination looks at no more than the first five turns of a page:
    two pages that agree on them leave the same state. *)
Theorem pagination_reads_five_turns
    (page page' : CategoryPage) (categoryName : string) (st : CrawlState) (maxTotal : nat) :
  (forall n, n < 5 -> page_next page n = page_next page' n) ->
  crawlPaginatedProducts page categoryName st maxTotal
  = crawlPaginatedProducts page' categoryName st maxTotal.
Proof.
  intros H. unfold crawlPaginatedProducts. apply paginate_agree; [reflexivity|exact H].
Qed.

End Crawl.

Lemma products_belong_to_categories_witness :
  In (product_at "/v2.0/oak-bed")
     (products (buildUrlRegistry WebUrl.parse (fun n => n) dotted_site)) /\
  exists c, In c (categories (buildUrlRegistry WebUrl.parse (fun n => n) dotted_site)) /\
            category (product_at "/v2.0/oak-bed") = cat_name c.
Proof.
  assert (H : In (product_at "/v2.0/oak-bed")
                 (products (buildUrlRegistry WebUrl.parse (fun n => n) dotted_site))).
  { vm_compute. left. reflexivity. }
  split; [exact H|].
  exact (products_belong_to_categories WebUrl.parse (fun n => n) dotted_site _ H).
Defined.

Lemma first_pass_is_capped_witness :
  page_hasMore (listing ["/beds/oak"; "/beds/elm"]) <> Some true /\
  List.length (collected (crawlCategory WebUrl.parse (fun n => n) 1
                                        (listing ["/beds/oak"; "/beds/elm"])
                                        {| cat_name := "Beds"; cat_url := "https://shop.example/beds" |}
                                        empty_state))
  <= List.length (collected empty_state) + 1.
Proof.
  assert (H : page_hasMore (listing ["/beds/oak"; "/beds/elm"]) <> Some true)
    by (cbn; discriminate).
  split; [exact H|].
  exact (first_pass_is_capped WebUrl.parse (fun n => n) 1 (listing ["/beds/oak"; "/beds/elm"])
           {| cat_name := "Beds"; cat_url := "https://shop.example/beds" |} empty_state H).
Defined.

Lemma pagination_reads_five_turns_witness :
  (forall n, n < 5 -> page_next endless_listing n = page_next five_turn_listing n) /\
  crawlPaginatedProducts endless_listing "Beds" empty_state 30
  = crawlPaginatedProducts five_turn_listing "Beds" empty_state 30 /\
  page_next endless_listing 5 <> page_next five_turn_listing 5 /\
  map url (collected (crawlPaginatedProducts endless_listing "Beds" empty_state 30))
  = [ "https://shop.example/beds/item-0"; "https://shop.example/beds/item-1";
      "https://shop.example/beds/item-2"; "https://shop.example/beds/item-3";
      "https://shop.example/beds/item-4" ].
Proof.
  assert (H : forall n, n < 5 -> page_next endless_listing n = page_next five_turn_listing n).
  { intros n Hn. cbn [five_turn_listing page_next].
    destruct (Nat.ltb_spec n 5); [reflexivity|lia]. }
  split; [exact H|].
  split; [exact (pagination_reads_five_turns endless_listing five_turn_listing "Beds"
                                             empty_state 30 H)|].
  split; [vm_compute; discriminate|vm_compute; reflexivity].
Defined.

End UrlRegistryBuilderMore.

(* ===================================================================== *)
(** ** Properties of the path clusters *)
(* ===================================================================== *)

Module ClusterFacts.
Import JsString SharedTypes UrlRegistryBuilder JsStringFacts UrlRegistryBuilderMore Examples Notions Examples.


Lemma append_inv_head a b c : a +:+ b = a +:+ c -> b = c.
Proof.
  intros H. apply chars_inj. apply (f_equal chars) in H.
  rewrite !chars_append in H. apply app_inv_head in H. exact H.
Qed.

Lemma signature_inj s1 s2 :
  s1 <> [] -> s2 <> [] -> signature s1 = signature s2 ->
  List.length s1 = List.length s2 /\ head s1 = head s2.
Proof.
  unfold signature. intros H1 H2 E.
  assert (Hlen : List.length s1 = List.length s2).
  { pose proof (parseInt_of_nat_colon (List.length s1) (List.hd EmptyString s1)) as P1.
    pose proof (parseInt_of_nat_colon (List.length s2) (List.hd EmptyString s2)) as P2.
    rewrite E in P1. congruence. }
  split; [exact Hlen|].
  rewrite Hlen in E. apply append_inv_head, append_inv_head in E.
  destruct s1, s2; try congruence. cbn in *. congruence.
Qed.


Lemma group_path_ok paths groups path :
  In path paths -> Forall (group_ok paths) groups ->
  Forall (group_ok paths) (group_path groups path).
Proof.
  intros Hpath Hok. unfold group_path.
  destruct (segments path) as [|seg0 rest] eqn:Esegs; [exact Hok|].
  set (sig := of_nat (List.length (seg0 :: rest)) +:+ ":" +:+ seg0).
  assert (Hsig : sig = signature (segments path)) by (rewrite Esegs; reflexivity).
  assert (Hok' : Forall (group_ok paths)
                        (if groups_has groups sig then groups else groups ++ [(sig, [])])).
  { destruct (groups_has groups sig); [exact Hok|].
    apply Forall_app. split; [exact Hok|]. constructor; [|constructor].
    intros m []. }
  revert Hok'. generalize (if groups_has groups sig then groups else groups ++ [(sig, [])]).
  intros gs Hgs. unfold groups_push. apply Forall_forall. intros g Hg.
  apply list_elem_of_In, in_map_iff in Hg. destruct Hg as ([k ms] & <- & Hin).
  rewrite Forall_forall in Hgs. specialize (Hgs (k, ms) (proj2 (list_elem_of_In _ _) Hin)).
  cbn [fst snd]. destruct (String.eqb_spec k sig) as [->|Hne]; [|exact Hgs].
  intros m Hm. cbn [snd] in Hm. apply in_app_or in Hm. destruct Hm as [Hm|[<-|[]]].
  - apply Hgs, Hm.
  - cbn [fst]. split; [exact Hpath|]. split; [rewrite Esegs; discriminate|exact Hsig].
Qed.

Lemma groups_ok paths : Forall (group_ok paths) (fold_left group_path paths []).
Proof.
  assert (H : forall todo groups,
             (forall p, In p todo -> In p paths) ->
             Forall (group_ok paths) groups ->
             Forall (group_ok paths) (fold_left group_path todo groups)).
  { intros todo. induction todo as [|p todo IH]; intros groups Hsub Hok; cbn; [exact Hok|].
    apply IH; [intros; apply Hsub; right; assumption|].
    apply group_path_ok; [apply Hsub; left; reflexivity|exact Hok]. }
  apply (H paths []); [auto|constructor].
Qed.

Lemma cluster_of_group_inv sig members c :
  cluster_of_group (sig, members) = Some c ->
  2 <= List.length members /\
  cluster_examples c = take 5 members /\
  cluster_pattern c
  = "\/" +:+ join "\/" (map (pattern_part members)
                            (seq 0 (default 0 (parseInt (List.hd EmptyString (split ":" sig)))))).
Proof.
  unfold cluster_of_group.
  destruct (Nat.ltb_spec (List.length members) 2); [discriminate|].
  intros E. injection E as <-. cbn. auto.
Qed.

Lemma signature_depth segs :
  default 0 (parseInt (List.hd EmptyString (split ":" (signature segs)))) = List.length segs.
Proof.
  unfold signature. rewrite split_signature, parseInt_of_nat. reflexivity.
Qed.

Lemma group_cluster_inv paths c :
  In c (omap cluster_of_group (fold_left group_path paths [])) ->
  exists sig members,
    group_ok paths (sig, members) /\ cluster_of_group (sig, members) = Some c.
Proof.
  intros H. apply list_elem_of_In, list_elem_of_omap in H.
  destruct H as ([sig members] & Hin & Hc).
  exists sig, members. split; [|exact Hc].
  pose proof (groups_ok paths) as Hok. rewrite Forall_forall in Hok. apply Hok, Hin.
Qed.

(** X21. A cluster built from a group has between 2 and 5 examples, all of
    them input paths with the same number of segments and the same first
    segment, and it is among the clusters that [clusterPaths] returns. *)
Theorem group_clusters_are_coherent (paths : list string) (c : PathCluster) :
  In c (omap cluster_of_group (fold_left group_path paths [])) ->
  In c (clusterPaths paths) /\
  2 <= List.length (cluster_examples c) <= 5 /\
  forall e1 e2, In e1 (cluster_examples c) -> In e2 (cluster_examples c) ->
    In e1 paths /\
    List.length (segments e1) = List.length (segments e2) /\
    head (segments e1) = head (segments e2).
Proof.
  intros Hc. split.
  { unfold clusterPaths.
    destruct (Nat.eqb _ 0 && _); [apply in_or_app; left|]; exact Hc. }
  apply group_cluster_inv in Hc. destruct Hc as (sig & members & Hok & Hc).
  apply cluster_of_group_inv in Hc. destruct Hc as (Hlen & -> & _).
  split; [rewrite length_take; lia|].
  intros e1 e2 H1 H2. apply take_in in H1. apply take_in in H2.
  destruct (Hok e1 H1) as (Hp1 & Hn1 & Hs1). destruct (Hok e2 H2) as (Hp2 & Hn2 & Hs2).
  split; [exact Hp1|]. apply signature_inj; try assumption. cbn in *. congruence.
Qed.

(** X22. Whatever branch builds it, a cluster has at most 5 examples and
    every example is one of the input paths. *)
Theorem cluster_examples_are_input_paths (paths : list string) (c : PathCluster) :
  In c (clusterPaths paths) ->
  List.length (cluster_examples c) <= 5 /\
  forall e, In e (cluster_examples c) -> In e paths.
Proof.
  unfold clusterPaths. intros Hc.
  assert (Hgroup : In c (omap cluster_of_group (fold_left group_path paths [])) ->
                   List.length (cluster_examples c) <= 5 /\
                   forall e, In e (cluster_examples c) -> In e paths).
  { intros H. apply group_cluster_inv in H. destruct H as (sig & members & Hok & H).
    apply cluster_of_group_inv in H. destruct H as (_ & -> & _).
    split; [rewrite length_take; lia|].
    intros e He. apply take_in in He. apply Hok, He. }
  destruct (Nat.eqb _ 0 && _); [|exact (Hgroup Hc)].
  apply in_app_or in Hc. destruct Hc as [Hc|Hc]; [exact (Hgroup Hc)|].
  apply in_map_iff in Hc. destruct Hc as (pat & <- & _). cbn. unfold slice0.
  split; [rewrite length_take; lia|].
  intros e He. apply take_in, filter_In in He. tauto.
Qed.

Lemma group_clusters_are_coherent_witness :
  In scenario_D_mattress (omap cluster_of_group (fold_left group_path scenario_D_paths [])) /\
  In scenario_D_mattress (clusterPaths scenario_D_paths) /\
  2 <= List.length (cluster_examples scenario_D_mattress) <= 5.
Proof.
  assert (H : In scenario_D_mattress
                 (omap cluster_of_group (fold_left group_path scenario_D_paths []))).
  { vm_compute. left. reflexivity. }
  split; [exact H|].
  pose proof (group_clusters_are_coherent scenario_D_paths scenario_D_mattress H) as (H1 & H2 & _).
  split; [exact H1|exact H2].
Defined.

Lemma cluster_examples_are_input_paths_witness :
  In scenario_D_mattress (clusterPaths scenario_D_paths) /\
  List.length (cluster_examples scenario_D_mattress) <= 5.
Proof.
  assert (H : In scenario_D_mattress (clusterPaths scenario_D_paths)).
  { vm_compute. left. reflexivity. }
  split; [exact H|].
  exact (proj1 (cluster_examples_are_input_paths scenario_D_paths scenario_D_mattress H)).
Defined.

End ClusterFacts.

(* ===================================================================== *)
(** ** Properties of the rule merge of the crawl engine *)
(* ===================================================================== *)

Module CrawlEngineFacts.
Import JsString SharedTypes UrlRegistryBuilder CrawlEngine UrlRegistryBuilderMore Notions Examples.

Lemma PageTypeKey_eqb_eq a b : PageTypeKey_eqb a b = true <-> a = b.
Proof. destruct a, b; cbn; split; intros H; try reflexivity; discriminate. Qed.

Lemma PageTypeKey_eqb_refl a : PageTypeKey_eqb a a = true.
Proof. apply PageTypeKey_eqb_eq. reflexivity. Qed.

Lemma PageTypeKey_eqb_sym a b : PageTypeKey_eqb a b = PageTypeKey_eqb b a.
Proof. destruct a, b; reflexivity. Qed.

(** *** distinct *)

Lemma distinct_in x xs : In x (distinct xs) <-> In x xs.
Proof.
  induction xs as [|y ys IH]; cbn; [tauto|].
  rewrite filter_In, IH. split.
  - intros [->|[H _]]; auto.
  - intros [->|H]; [auto|].
    destruct (String.eqb_spec y x) as [->|Hne]; [auto|]. right. split; [exact H|reflexivity].
Qed.

Lemma distinct_nodup xs : NoDup (distinct xs).
Proof.
  induction xs as [|y ys IH]; cbn; [constructor|].
  apply NoDup_cons. split.
  - intros H. apply list_elem_of_In, filter_In in H. destruct H as [_ H].
    rewrite String.eqb_refl in H. discriminate.
  - apply NoDup_ListNoDup, List.NoDup_filter, NoDup_ListNoDup, IH.
Qed.

(** X23. [deduplicatePatterns] returns each pattern once, returns only
    patterns it was given, never turns a non-empty list into an empty one,
    and as soon as one pattern is no store or utility pattern it keeps that
    pattern and drops every store or utility pattern. *)
Theorem deduplicatePatterns_keeps_product_patterns (patterns : list string) :
  NoDup (deduplicatePatterns patterns) /\
  (forall p, In p (deduplicatePatterns patterns) -> In p patterns) /\
  (patterns <> [] -> deduplicatePatterns patterns <> []) /\
  (forall p, In p patterns -> Regex.test_i RE_STORE_PATTERN p = false ->
     In p (deduplicatePatterns patterns) /\
     forall q, In q (deduplicatePatterns patterns) ->
               Regex.test_i RE_STORE_PATTERN q = false).
Proof.
  unfold deduplicatePatterns.
  set (keep := fun p => negb (Regex.test_i RE_STORE_PATTERN p)).
  split; [apply distinct_nodup|]. split; [|split].
  - intros p Hp. apply (proj1 (distinct_in _ _)) in Hp.
    destruct (List.filter keep patterns) as [|q qs] eqn:E; cbn in Hp; [exact Hp|].
    change (In p (q :: qs)) in Hp. rewrite <- E in Hp. apply filter_In in Hp. tauto.
  - intros Hne Hnil.
    destruct (List.filter keep patterns) as [|q qs] eqn:E; cbn in Hnil.
    + destruct patterns as [|p ps]; [congruence|]. cbn in Hnil. discriminate.
    + cbn in Hnil. discriminate.
  - intros p Hp Hfalse.
    assert (Hin : In p (List.filter keep patterns)).
    { apply filter_In. split; [exact Hp|]. unfold keep. rewrite Hfalse. reflexivity. }
    destruct (List.filter keep patterns) as [|q qs] eqn:E; [destruct Hin|].
    cbn [List.length Nat.ltb Nat.leb]. split.
    + apply distinct_in. exact Hin.
    + intros r Hr. apply (proj1 (distinct_in _ _)) in Hr. rewrite <- E in Hr.
      apply filter_In in Hr. destruct Hr as [_ Hr]. unfold keep in Hr.
      destruct (Regex.test_i RE_STORE_PATTERN r); [discriminate|reflexivity].
Qed.


(** *** mergePageTypeRules *)

Lemma lookup_type_cons t g gs :
  lookup_type t (g :: gs)
  = if PageTypeKey_eqb (fst g) t then Some (snd g) else lookup_type t gs.
Proof. unfold lookup_type. cbn. destruct (PageTypeKey_eqb (fst g) t); reflexivity. Qed.

Lemma lookup_type_absent t gs : by_type_has gs t = false -> lookup_type t gs = None.
Proof.
  induction gs as [|g gs IH]; [reflexivity|].
  rewrite lookup_type_cons. cbn. destruct (PageTypeKey_eqb (fst g) t); [discriminate|exact IH].
Qed.

Lemma lookup_type_not_key t gs : ~ In t (map fst gs) -> lookup_type t gs = None.
Proof.
  induction gs as [|g gs IH]; [reflexivity|]. intros H.
  rewrite lookup_type_cons.
  destruct (PageTypeKey_eqb (fst g) t) eqn:E.
  - apply PageTypeKey_eqb_eq in E. exfalso. apply H. left. exact E.
  - apply IH. intros Hin. apply H. right. exact Hin.
Qed.

Lemma lookup_type_snoc t gs k :
  by_type_has gs k = false ->
  lookup_type t (gs ++ [(k, [])])
  = if PageTypeKey_eqb k t then Some [] else lookup_type t gs.
Proof.
  intros Hk. induction gs as [|g gs IH].
  - rewrite app_nil_l, lookup_type_cons. reflexivity.
  - cbn in Hk. apply orb_false_iff in Hk. destruct Hk as [Hg Hk].
    rewrite <- app_comm_cons, !lookup_type_cons, (IH Hk).
    destruct (PageTypeKey_eqb (fst g) t) eqn:E; [|reflexivity].
    apply PageTypeKey_eqb_eq in E. subst t.
    rewrite PageTypeKey_eqb_sym, Hg. reflexivity.
Qed.

Lemma lookup_type_push t gs k p :
  lookup_type t (map (fun g => if PageTypeKey_eqb (fst g) k
                               then (fst g, snd g ++ [p]) else g) gs)
  = if PageTypeKey_eqb k t then (fun l => l ++ [p]) <$> lookup_type t gs
    else lookup_type t gs.
Proof.
  induction gs as [|g gs IH].
  - destruct (PageTypeKey_eqb k t); reflexivity.
  - cbn [map]. rewrite !lookup_type_cons, IH.
    destruct (PageTypeKey_eqb (fst g) k) eqn:Egk; cbn [fst snd].
    + apply PageTypeKey_eqb_eq in Egk. rewrite Egk.
      destruct (PageTypeKey_eqb k t); reflexivity.
    + destruct (PageTypeKey_eqb (fst g) t) eqn:Egt; [|reflexivity].
      apply PageTypeKey_eqb_eq in Egt. subst t.
      rewrite PageTypeKey_eqb_sym, Egk. reflexivity.
Qed.

Lemma lookup_add_pattern t acc vp :
  lookup_type t (add_pattern acc vp)
  = if PageTypeKey_eqb (pageType vp) t
    then Some (default [] (lookup_type t acc) ++ [pattern vp])
    else lookup_type t acc.
Proof.
  unfold add_pattern. rewrite lookup_type_push.
  destruct (by_type_has acc (pageType vp)) eqn:Ehas.
  - destruct (PageTypeKey_eqb (pageType vp) t) eqn:E; [|reflexivity].
    apply PageTypeKey_eqb_eq in E. subst t.
    destruct (lookup_type (pageType vp) acc) as [l|] eqn:El; [reflexivity|].
    exfalso. clear -Ehas El. induction acc as [|g gs IH]; [discriminate|].
    rewrite lookup_type_cons in El. cbn in Ehas.
    destruct (PageTypeKey_eqb (fst g) (pageType vp)); [discriminate|]. auto.
  - rewrite (lookup_type_snoc _ _ _ Ehas).
    destruct (PageTypeKey_eqb (pageType vp) t) eqn:E; [|reflexivity].
    apply PageTypeKey_eqb_eq in E. subst t.
    rewrite (lookup_type_absent _ _ Ehas). reflexivity.
Qed.

Lemma keys_add_pattern acc vp :
  NoDup (map fst acc) -> NoDup (map fst (add_pattern acc vp)).
Proof.
  intros Hnd. unfold add_pattern.
  set (acc' := if by_type_has acc (pageType vp) then acc else acc ++ [(pageType vp, [])]).
  assert (Hkeys : forall gs : PatternsByType,
             map fst (map (fun g => if PageTypeKey_eqb (fst g) (pageType vp)
                                    then (fst g, snd g ++ [pattern vp]) else g) gs)
             = map fst gs).
  { intros gs. rewrite map_map. apply map_ext. intros g.
    destruct (PageTypeKey_eqb (fst g) (pageType vp)); reflexivity. }
  rewrite Hkeys. subst acc'.
  destruct (by_type_has acc (pageType vp)) eqn:Ehas; [exact Hnd|].
  rewrite map_app. cbn. apply NoDup_app. split; [exact Hnd|]. split.
  - intros k Hk Hk'. apply list_elem_of_singleton in Hk'. subst k.
    apply list_elem_of_In, in_map_iff in Hk. destruct Hk as (g & Hg & Hin).
    unfold by_type_has in Ehas.
    assert (existsb (fun g => PageTypeKey_eqb (fst g) (pageType vp)) acc = true).
    { apply existsb_exists. exists g. split; [exact Hin|]. apply PageTypeKey_eqb_eq, Hg. }
    congruence.
  - apply NoDup_singleton.
Qed.

Lemma patternsByType_keys vps acc :
  NoDup (map fst acc) -> NoDup (map fst (fold_left add_pattern vps acc)).
Proof.
  revert acc. induction vps as [|vp vps IH]; intros acc H; cbn; [exact H|].
  apply IH, keys_add_pattern, H.
Qed.

Lemma patterns_of_cons t vp vps :
  patterns_of t (vp :: vps)
  = if PageTypeKey_eqb (pageType vp) t then pattern vp :: patterns_of t vps
    else patterns_of t vps.
Proof. unfold patterns_of. cbn. destruct (PageTypeKey_eqb (pageType vp) t); reflexivity. Qed.

Lemma lookup_fold_patterns t vps acc :
  lookup_type t (fold_left add_pattern vps acc)
  = match patterns_of t vps with
    | [] => lookup_type t acc
    | l => Some (default [] (lookup_type t acc) ++ l)
    end.
Proof.
  revert acc. induction vps as [|vp vps IH]; intros acc; [reflexivity|].
  cbn [fold_left]. rewrite IH, patterns_of_cons, lookup_add_pattern.
  destruct (PageTypeKey_eqb (pageType vp) t).
  - destruct (patterns_of t vps); [reflexivity|].
    cbn. rewrite <- List.app_assoc. reflexivity.
  - reflexivity.
Qed.

Lemma lookup_patternsByType t reg :
  lookup_type t (patternsByType reg)
  = match patterns_of t (validatedPatterns reg) with
    | [] => None
    | l => Some l
    end.
Proof. unfold patternsByType. rewrite lookup_fold_patterns. reflexivity. Qed.

Lemma fold_registry_rules gs m t :
  NoDup (map fst gs) ->
  fold_left set_registry_rule gs m t
  = match lookup_type t gs with
    | Some l => Some (registry_rule (t, l))
    | None => m t
    end.
Proof.
  revert m. induction gs as [|g gs IH]; intros m Hnd; [reflexivity|].
  cbn [fold_left]. cbn in Hnd. apply NoDup_cons in Hnd. destruct Hnd as [Hg Hnd].
  rewrite (IH _ Hnd), lookup_type_cons.
  unfold set_registry_rule, set_rule. rewrite (PageTypeKey_eqb_sym t (fst g)).
  destruct (PageTypeKey_eqb (fst g) t) eqn:E.
  - apply PageTypeKey_eqb_eq in E. subst t.
    rewrite lookup_type_not_key; [destruct g; reflexivity|].
    intros H. apply Hg, list_elem_of_In, H.
  - reflexivity.
Qed.

(** The rules before the visual boost. *)
Lemma merged_before_boost domRules reg t :
  fold_left set_registry_rule (patternsByType reg) (fun t => of_rule <$> domRules t) t
  = match patterns_of t (validatedPatterns reg) with
    | [] => of_rule <$> domRules t
    | l => Some (registry_rule (t, l))
    end.
Proof.
  rewrite fold_registry_rules, lookup_patternsByType.
  - destruct (patterns_of t (validatedPatterns reg)); reflexivity.
  - apply patternsByType_keys. constructor.
Qed.

Lemma Math_max_spec a b :
  (a <= Math_max a b)%Q /\ (b <= Math_max a b)%Q /\
  (Math_max a b = a \/ Math_max a b = b).
Proof.
  unfold Math_max. destruct (Qle_bool a b) eqn:E.
  - apply Qle_bool_iff in E. split; [exact E|]. split; [apply Qle_refl|auto].
  - split; [apply Qle_refl|]. split; [|auto].
    destruct (Qlt_le_dec b a) as [H|H]; [apply Qlt_le_weak, H|].
    apply Qle_bool_iff in H. congruence.
Qed.


Lemma boosted_nil t r : boosted [] t r r.
Proof.
  unfold boosted. split; [reflexivity|]. split; [reflexivity|]. split; [reflexivity|].
  split; [reflexivity|]. split; [apply Qle_refl|]. split; [intros vc []|left; reflexivity].
Qed.

Lemma boosted_app a b t r r1 r2 :
  boosted a t r r1 -> boosted b t r1 r2 -> boosted (a ++ b) t r r2.
Proof.
  intros (A1 & A2 & A3 & A4 & A5 & A6 & A7) (B1 & B2 & B3 & B4 & B5 & B6 & B7).
  unfold boosted. split; [congruence|]. split; [congruence|]. split; [congruence|].
  split; [congruence|]. split; [eapply Qle_trans; eassumption|]. split.
  - intros vc Hin Ht Hc. apply in_app_or in Hin. destruct Hin as [Hin|Hin].
    + eapply Qle_trans; [apply A6; assumption|exact B5].
    + apply B6; assumption.
  - destruct B7 as [B7|(vc & Hin & B7)].
    + rewrite B7. destruct A7 as [A7|(vc & Hin & A7)]; [left; exact A7|].
      right. exists vc. split; [apply in_or_app; left; exact Hin|exact A7].
    + right. exists vc. split; [apply in_or_app; right; exact Hin|exact B7].
Qed.

Lemma boost_step m vc t :
  match m t with
  | None => boost m vc t = None
  | Some r => exists r1, boost m vc t = Some r1 /\ boosted [vc] t r r1
  end.
Proof.
  assert (Hsame : forall r, vc_pageType vc <> t \/ Qle_bool (vc_confidence vc) 80 = true ->
                            boosted [vc] t r r).
  { intros r Hskip. pose proof (boosted_nil t r) as (H1 & H2 & H3 & H4 & H5 & H6 & H7).
    unfold boosted. split; [exact H1|]. split; [exact H2|]. split; [exact H3|].
    split; [exact H4|]. split; [exact H5|]. split; [|left; reflexivity].
    intros vc' [<-|[]] Ht Hc. destruct Hskip; congruence. }
  unfold boost.
  destruct (m (vc_pageType vc)) as [rule|] eqn:Erule.
  2:{ destruct (m t) as [r|] eqn:Er; [|reflexivity].
      exists r. split; [reflexivity|]. apply Hsame. left. congruence. }
  destruct (Qle_bool (vc_confidence vc) 80) eqn:Ec.
  { destruct (m t) as [r|] eqn:Er; [|reflexivity].
    exists r. split; [reflexivity|]. apply Hsame. right. reflexivity. }
  unfold set_rule. destruct (PageTypeKey_eqb t (vc_pageType vc)) eqn:Et.
  - apply PageTypeKey_eqb_eq in Et. subst t. rewrite Erule.
    eexists. split; [reflexivity|].
    pose proof (Math_max_spec (merged_confidence rule) (vc_confidence vc)) as (Ma & Mb & Mc).
    unfold boosted. cbn. split; [reflexivity|]. split; [reflexivity|].
    split; [reflexivity|]. split; [reflexivity|]. split; [exact Ma|]. split.
    + intros vc' [<-|[]] _ _. exact Mb.
    + destruct Mc as [Mc|Mc]; [left; exact Mc|].
      right. exists vc. split; [left; reflexivity|]. auto.
  - destruct (m t) as [r|] eqn:Er; [|reflexivity].
    exists r. split; [reflexivity|]. apply Hsame. left. intros E. subst t.
    rewrite PageTypeKey_eqb_refl in Et. discriminate.
Qed.

(** What the boost loop does to one page type. *)
Lemma fold_boost vcs m t :
  match m t with
  | None => fold_left boost vcs m t = None
  | Some r => exists r', fold_left boost vcs m t = Some r' /\ boosted vcs t r r'
  end.
Proof.
  revert m. induction vcs as [|vc vcs IH]; intros m.
  - cbn. destruct (m t) as [r|]; [|reflexivity]. exists r. split; [reflexivity|apply boosted_nil].
  - cbn [fold_left]. specialize (IH (boost m vc)). pose proof (boost_step m vc t) as Hstep.
    destruct (m t) as [r|].
    + destruct Hstep as (r1 & E1 & B1). rewrite E1 in IH.
      destruct IH as (r' & E' & B'). exists r'. split; [exact E'|].
      exact (boosted_app [vc] vcs t r r1 r' B1 B').
    + rewrite Hstep in IH. exact IH.
Qed.

Lemma merged_from_registry
    (domRules : PageTypeKey -> option PageTypeRule) (urlRegistry : UrlRegistry)
    (visualClassifications : list VisualClassification) (t : PageTypeKey) :
  patterns_of t (validatedPatterns urlRegistry) <> [] ->
  exists rule,
    mergePageTypeRules domRules urlRegistry visualClassifications t = Some rule /\
    merged_urlPattern rule = combinedPattern (patterns_of t (validatedPatterns urlRegistry)) /\
    merged_label rule = PageClassifier.capitalize (PageTypeKey_name t) /\
    merged_domSignature rule = None /\ merged_jsonLdType rule = None /\
    (95 <= merged_confidence rule)%Q.
Proof.
  intros Hne. unfold mergePageTypeRules.
  pose proof (merged_before_boost domRules urlRegistry) as Hbase.
  set (merged1 := fold_left set_registry_rule (patternsByType urlRegistry)
                            (fun t => of_rule <$> domRules t)) in *.
  set (merged2 := match merged1 Home with
                  | Some _ => merged1
                  | None => set_rule Home home_default merged1
                  end).
  assert (H2 : merged2 t = Some (registry_rule (t, patterns_of t (validatedPatterns urlRegistry)))).
  { assert (H1 : merged1 t = Some (registry_rule (t, patterns_of t (validatedPatterns urlRegistry)))).
    { rewrite Hbase. destruct (patterns_of t (validatedPatterns urlRegistry)); congruence. }
    subst merged2. destruct (merged1 Home) eqn:EH; [exact H1|].
    unfold set_rule. destruct (PageTypeKey_eqb t Home) eqn:Et; [|exact H1].
    apply PageTypeKey_eqb_eq in Et. congruence. }
  pose proof (fold_boost visualClassifications merged2 t) as Hb. rewrite H2 in Hb.
  destruct Hb as (r' & E & B1 & B2 & B3 & B4 & B5 & _).
  exists r'. split; [exact E|]. cbn in *. auto.
Qed.

(** X25. A page type without patterns in the URL registry keeps its DOM rule
    (pattern, signature, JSON-LD type and label; the confidence is not
    lowered), the home page falls back to its default rule, and no rule
    appears for any other page type. *)
Theorem dom_rules_kept_without_registry_patterns
    (domRules : PageTypeKey -> option PageTypeRule) (urlRegistry : UrlRegistry)
    (visualClassifications : list VisualClassification) (t : PageTypeKey) :
  patterns_of t (validatedPatterns urlRegistry) = [] ->
  match domRules t with
  | Some d =>
      exists rule,
        mergePageTypeRules domRules urlRegistry visualClassifications t = Some rule /\
        boosted visualClassifications t (of_rule d) rule
  | None =>
      if PageTypeKey_eqb t Home then
        exists rule,
          mergePageTypeRules domRules urlRegistry visualClassifications t = Some rule /\
          boosted visualClassifications t home_default rule
      else mergePageTypeRules domRules urlRegistry visualClassifications t = None
  end.
Proof.
  intros Hnil. unfold mergePageTypeRules.
  pose proof (merged_before_boost domRules urlRegistry) as Hbase.
  set (merged1 := fold_left set_registry_rule (patternsByType urlRegistry)
                            (fun t => of_rule <$> domRules t)) in *.
  set (merged2 := match merged1 Home with
                  | Some _ => merged1
                  | None => set_rule Home home_default merged1
                  end).
  assert (H1 : merged1 t = of_rule <$> domRules t). { rewrite Hbase, Hnil. reflexivity. }
  pose proof (fold_boost visualClassifications merged2 t) as Hb.
  destruct (domRules t) as [d|] eqn:Ed.
  - assert (H2 : merged2 t = Some (of_rule d)).
    { subst merged2. destruct (merged1 Home) eqn:EH; [exact H1|].
      unfold set_rule. destruct (PageTypeKey_eqb t Home) eqn:Et; [|exact H1].
      apply PageTypeKey_eqb_eq in Et. subst t. cbn in H1. congruence. }
    rewrite H2 in Hb. exact Hb.
  - cbn in H1. destruct (PageTypeKey_eqb t Home) eqn:Et.
    + apply PageTypeKey_eqb_eq in Et. subst t.
      assert (H2 : merged2 Home = Some home_default).
      { subst merged2. rewrite H1. unfold set_rule. reflexivity. }
      rewrite H2 in Hb. exact Hb.
    + assert (H2 : merged2 t = None).
      { subst merged2. destruct (merged1 Home); [exact H1|].
        unfold set_rule. rewrite Et. exact H1. }
      rewrite H2 in Hb. exact Hb.
Qed.


(** X24. A page type with patterns in the URL registry gets its rule from
    the registry, whatever the DOM rules say: the combined registry
    pattern, the capitalised type name as label, no DOM signature and no
    JSON-LD type, and a confidence of at least 95. *)
Theorem registry_patterns_override_dom_rules
    (domRules : PageTypeKey -> option PageTypeRule) (urlRegistry : UrlRegistry)
    (visualClassifications : list VisualClassification) (t : PageTypeKey) :
  patterns_of t (validatedPatterns urlRegistry) <> [] ->
  exists rule,
    mergePageTypeRules domRules urlRegistry visualClassifications t = Some rule /\
    merged_urlPattern rule = combinedPattern (patterns_of t (validatedPatterns urlRegistry)) /\
    merged_label rule = PageClassifier.capitalize (PageTypeKey_name t) /\
    merged_domSignature rule = None /\ merged_jsonLdType rule = None /\
    (95 <= merged_confidence rule)%Q.
Proof. apply merged_from_registry. Qed.

Lemma patterns_of_app t a b : patterns_of t (a ++ b) = patterns_of t a ++ patterns_of t b.
Proof. unfold patterns_of. rewrite List.filter_app, map_app. reflexivity. Qed.

Lemma patterns_of_other t (vps : list ValidatedPattern) :
  (forall vp, In vp vps -> pageType vp <> t) -> patterns_of t vps = [].
Proof.
  intros H. induction vps as [|vp vps IH]; [reflexivity|].
  rewrite patterns_of_cons. destruct (PageTypeKey_eqb (pageType vp) t) eqn:E.
  - apply PageTypeKey_eqb_eq in E. exfalso. apply (H vp); [left; reflexivity|exact E].
  - apply IH. intros vp' Hin. apply H. right. exact Hin.
Qed.

Section BuiltRegistry.
Variable new_URL : string -> option WebUrl.URL.
Variable cleanProductName : string -> string.

Lemma derived_fixed_patterns products categories origin t :
  t = Home \/ t = Cart \/ t = Search ->
  patterns_of t (deriveUrlPatterns new_URL products categories origin)
  = match t with
    | Home => ["^\/?$"]
    | Cart => ["^\/cart\/?"]
    | Search => ["^\/search"]
    | _ => []
    end.
Proof.
  intros Ht. unfold deriveUrlPatterns.
  set (productPatterns :=
         if Nat.ltb 0 (List.length (pathnames new_URL (map url products))) then _ else []).
  set (categoryPatterns :=
         if Nat.ltb 0 (List.length (pathnames new_URL (map cat_url categories))) then _ else []).
  assert (Hp : forall vp, In vp productPatterns -> pageType vp = Product).
  { subst productPatterns. intros vp.
    destruct (Nat.ltb 0 (List.length (pathnames new_URL (map url products)))); [|intros []].
    intros H. apply in_map_iff in H. destruct H as (c & <- & _). reflexivity. }
  assert (Hc : forall vp, In vp categoryPatterns -> pageType vp = Category).
  { subst categoryPatterns. intros vp.
    destruct (Nat.ltb 0 (List.length (pathnames new_URL (map cat_url categories))));
      [|intros []].
    intros H. apply in_app_or in H. destruct H as [H|H].
    - destruct (Nat.leb 3 _); [|destruct H]. destruct H as [<-|[]]. reflexivity.
    - apply in_map_iff in H. destruct H as (c & <- & _). reflexivity. }
  rewrite !patterns_of_app.
  rewrite (patterns_of_other t productPatterns),
          (patterns_of_other t categoryPatterns).
  - destruct Ht as [->|[->| ->]]; reflexivity.
  - intros vp Hin E. rewrite (Hc vp Hin) in E. destruct Ht as [->|[->| ->]]; discriminate.
  - intros vp Hin E. rewrite (Hp vp Hin) in E. destruct Ht as [->|[->| ->]]; discriminate.
Qed.

(** X26. Merged with a registry that [buildUrlRegistry] built, the home, cart
    and search rules are always the registry's fixed patterns, whatever
    the DOM analysis and the visual classifier found; the home default of
    the merge is never used. *)
Theorem built_registry_fixes_home_cart_search
    (domRules : PageTypeKey -> option PageTypeRule) (opts : RegistryBuildOptions)
    (visualClassifications : list VisualClassification) :
  let merged :=
    mergePageTypeRules domRules (buildUrlRegistry new_URL cleanProductName opts)
                       visualClassifications in
  exists home cart search,
    merged Home = Some home /\ merged_urlPattern home = "^\/?$" /\
    merged Cart = Some cart /\ merged_urlPattern cart = "^\/cart\/?" /\
    merged Search = Some search /\ merged_urlPattern search = "^\/search" /\
    merged_urlPattern home <> merged_urlPattern home_default.
Proof.
  intros merged. subst merged.
  set (reg := buildUrlRegistry new_URL cleanProductName opts).
  assert (Hpat : forall t, t = Home \/ t = Cart \/ t = Search ->
            patterns_of t (validatedPatterns reg)
            = match t with
              | Home => ["^\/?$"] | Cart => ["^\/cart\/?"] | Search => ["^\/search"]
              | _ => []
              end).
  { intros t Ht. subst reg. unfold buildUrlRegistry. cbn [validatedPatterns].
    apply derived_fixed_patterns, Ht. }
  destruct (merged_from_registry domRules reg visualClassifications Home)
    as (home & Eh & Ph & _); [rewrite Hpat by auto; discriminate|].
  destruct (merged_from_registry domRules reg visualClassifications Cart)
    as (cart & Ec & Pc & _); [rewrite Hpat by auto; discriminate|].
  destruct (merged_from_registry domRules reg visualClassifications Search)
    as (search & Es & Ps & _); [rewrite Hpat by auto; discriminate|].
  rewrite Hpat in Ph, Pc, Ps by auto.
  exists home, cart, search.
  split; [exact Eh|]. split; [rewrite Ph; vm_compute; reflexivity|].
  split; [exact Ec|]. split; [rewrite Pc; vm_compute; reflexivity|].
  split; [exact Es|]. split; [rewrite Ps; vm_compute; reflexivity|].
  rewrite Ph. vm_compute. discriminate.
Qed.

End BuiltRegistry.

Lemma registry_patterns_override_dom_rules_witness :
  patterns_of Home (validatedPatterns home_only_registry) <> [] /\
  example_dom_rules Home = Some dom_home_rule /\
  (exists rule,
    mergePageTypeRules example_dom_rules home_only_registry example_visuals Home = Some rule /\
    merged_urlPattern rule
    = combinedPattern (patterns_of Home (validatedPatterns home_only_registry)) /\
    merged_label rule = PageClassifier.capitalize (PageTypeKey_name Home) /\
    merged_domSignature rule = None /\ merged_jsonLdType rule = None /\
    (95 <= merged_confidence rule)%Q) /\
  merged_urlPattern <$> mergePageTypeRules example_dom_rules home_only_registry
                                           example_visuals Home
  = Some "^\/?$".
Proof.
  assert (H : patterns_of Home (validatedPatterns home_only_registry) <> [])
    by (cbn; discriminate).
  split; [exact H|]. split; [reflexivity|].
  split; [|vm_compute; reflexivity].
  exact (registry_patterns_override_dom_rules example_dom_rules home_only_registry
                                              example_visuals Home H).
Defined.

Lemma dom_rules_kept_without_registry_patterns_witness :
  patterns_of Product (validatedPatterns home_only_registry) = [] /\
  (exists rule,
    mergePageTypeRules example_dom_rules home_only_registry example_visuals Product
    = Some rule /\
    boosted example_visuals Product (of_rule dom_product_rule) rule) /\
  merged_urlPattern <$> mergePageTypeRules example_dom_rules home_only_registry
                                           example_visuals Product
  = Some (urlPattern dom_product_rule) /\
  (fun rule => Qeq_bool (merged_confidence rule) 90)
    <$> mergePageTypeRules example_dom_rules home_only_registry example_visuals Product
  = Some true.
Proof.
  split; [reflexivity|].
  split; [|split; vm_compute; reflexivity].
  exact (dom_rules_kept_without_registry_patterns example_dom_rules home_only_registry
                                                   example_visuals Product eq_refl).
Defined.

End CrawlEngineFacts.

(* ===================================================================== *)
(** ** Properties of the choice of sample products *)
(* ===================================================================== *)

Module PickFacts.
Import JsString SharedTypes UrlRegistryBuilder CrawlEngine UrlRegistryBuilderMore CrawlEngineFacts Notions Examples.


Lemma url_groups_has_spec groups cat :
  url_groups_has groups cat = true <-> In cat (map fst groups).
Proof.
  unfold url_groups_has. rewrite existsb_exists, in_map_iff. split.
  - intros (g & Hin & E). apply String.eqb_eq in E. eauto.
  - intros (g & E & Hin). exists g. split; [exact Hin|]. apply String.eqb_eq, E.
Qed.

Lemma group_product_keys groups p :
  map fst (group_product groups p)
  = if url_groups_has groups (category p) then map fst groups
    else map fst groups ++ [category p].
Proof.
  unfold group_product. rewrite map_map.
  destruct (url_groups_has groups (category p)).
  - apply map_ext. intros g. destruct (String.eqb (fst g) (category p)); reflexivity.
  - change [category p] with (map fst [(category p, @nil string)]).
    rewrite <- map_app. apply map_ext. intros g.
    destruct (String.eqb (fst g) (category p)); reflexivity.
Qed.

Lemma group_product_ok products groups p :
  In p products ->
  NoDup (map fst groups) /\ Forall (url_group_ok products) groups ->
  NoDup (map fst (group_product groups p)) /\
  Forall (url_group_ok products) (group_product groups p) /\
  In (category p) (map fst (group_product groups p)) /\
  (forall c, In c (map fst groups) -> In c (map fst (group_product groups p))).
Proof.
  intros Hp [Hnd Hok]. rewrite group_product_keys.
  destruct (url_groups_has groups (category p)) eqn:Ehas.
  - split; [exact Hnd|]. split; [|split; [apply url_groups_has_spec, Ehas|auto]].
    unfold group_product. rewrite Ehas. apply Forall_forall. intros g Hg.
    apply list_elem_of_In, in_map_iff in Hg. destruct Hg as (g0 & <- & Hin).
    rewrite Forall_forall in Hok. specialize (Hok g0 (proj2 (list_elem_of_In _ _) Hin)).
    destruct (String.eqb_spec (fst g0) (category p)) as [E|_]; [|exact Hok].
    destruct Hok as [_ Hok]. split; cbn [fst snd].
    + intros H. apply app_eq_nil in H. destruct H. discriminate.
    + intros u Hu. apply in_app_or in Hu. destruct Hu as [Hu|[<-|[]]]; [apply Hok, Hu|].
      exists p. auto.
  - split; [|split; [|split]].
    + apply NoDup_app. split; [exact Hnd|]. split; [|apply NoDup_singleton].
      intros c Hc Hc'. apply list_elem_of_singleton in Hc'. subst c.
      apply list_elem_of_In, url_groups_has_spec in Hc. congruence.
    + unfold group_product. rewrite Ehas. apply Forall_forall. intros g Hg.
      apply list_elem_of_In, in_map_iff in Hg. destruct Hg as (g0 & <- & Hin).
      apply in_app_or in Hin. destruct Hin as [Hin|[<-|[]]].
      * rewrite Forall_forall in Hok.
        specialize (Hok g0 (proj2 (list_elem_of_In _ _) Hin)).
        destruct (String.eqb_spec (fst g0) (category p)) as [E|_]; [|exact Hok].
        exfalso. assert (In (category p) (map fst groups)).
        { rewrite <- E. apply in_map, Hin. }
        apply url_groups_has_spec in H. congruence.
      * cbn [fst]. rewrite String.eqb_refl. split; cbn [fst snd]; [discriminate|].
        intros u [<-|[]]. exists p. auto.
    + apply in_or_app. right. left. reflexivity.
    + intros c Hc. apply in_or_app. left. exact Hc.
Qed.

Lemma url_groups_ok products :
  let groups := fold_left group_product products [] in
  NoDup (map fst groups) /\ Forall (url_group_ok products) groups /\
  forall p, In p products -> In (category p) (map fst groups).
Proof.
  assert (H : forall todo groups,
             (forall p, In p todo -> In p products) ->
             NoDup (map fst groups) /\ Forall (url_group_ok products) groups ->
             let groups' := fold_left group_product todo groups in
             NoDup (map fst groups') /\ Forall (url_group_ok products) groups' /\
             (forall c, In c (map fst groups) -> In c (map fst groups')) /\
             forall p, In p todo -> In (category p) (map fst groups')).
  { induction todo as [|p todo IH]; intros groups Hsub Hinv; cbn.
    - destruct Hinv. repeat split; auto. intros p [].
    - destruct (group_product_ok products groups p (Hsub p (or_introl eq_refl)) Hinv)
        as (H1 & H2 & H3 & H4).
      destruct (IH (group_product groups p) (fun q Hq => Hsub q (or_intror Hq))
                   (conj H1 H2)) as (I1 & I2 & I3 & I4).
      split; [exact I1|]. split; [exact I2|]. split; [auto|].
      intros q [<-|Hq]; [apply I3, H3|apply I4, Hq]. }
  destruct (H products [] (fun p Hp => Hp)) as (H1 & H2 & _ & H4).
  - split; constructor.
  - cbn. auto.
Qed.

(** *** The round-robin loop *)

Lemma insert_members {A} (l : list (list A)) i x g :
  In g (<[i := x]> l) -> g = x \/ In g l.
Proof.
  revert i. induction l as [|h l IH]; intros i H; [destruct i; destruct H|].
  destruct i as [|i]; cbn in H.
  - destruct H as [<-|H]; [left; reflexivity|right; right; exact H].
  - destruct H as [<-|H]; [right; left; reflexivity|].
    destruct (IH i H) as [->|H']; [left; reflexivity|right; right; exact H'].
Qed.

Lemma pick_loop_bounds fuel n picked gs i :
  List.length picked <= n ->
  let result := pick_loop fuel n picked gs i in
  List.length result <= n /\
  List.length result <= List.length picked + fuel /\
  forall u, In u result -> In u picked \/ exists g, In g gs /\ In u g.
Proof.
  revert picked gs i. induction fuel as [|fuel IH]; intros picked gs i Hlen;
    cbv zeta; cbn [pick_loop].
  - split; [exact Hlen|]. split; [lia|auto].
  - destruct (Nat.ltb_spec (List.length picked) n) as [Hlt|Hge]; cbn [negb].
    2:{ split; [exact Hlen|]. split; [lia|auto]. }
    set (idx := i mod List.length gs).
    assert (Hstep : forall picked' gs',
               List.length picked' <= n ->
               List.length picked' <= S (List.length picked) ->
               (forall u, In u picked' -> In u picked \/ exists g, In g gs /\ In u g) ->
               (forall g', In g' gs' -> forall u, In u g' -> exists g, In g gs /\ In u g) ->
               let result :=
                 if Nat.ltb 100 (S i) || forallb (fun g => Nat.eqb (List.length g) 0) gs'
                 then picked' else pick_loop fuel n picked' gs' (S i) in
               List.length result <= n /\
               List.length result <= List.length picked + S fuel /\
               forall u, In u result -> In u picked \/ exists g, In g gs /\ In u g).
    { intros picked' gs' L1 L2 M1 M2.
      destruct (Nat.ltb 100 (S i) || forallb _ gs'); cbn.
      - split; [exact L1|]. split; [lia|exact M1].
      - destruct (IH picked' gs' (S i) L1) as (R1 & R2 & R3).
        split; [exact R1|]. split; [lia|].
        intros u Hu. destruct (R3 u Hu) as [H|(g' & Hg' & Hug)]; [apply M1, H|].
        right. apply (M2 g' Hg' u Hug). }
    destruct (nth_error gs idx) as [[|u rest]|] eqn:Enth.
    + apply Hstep; [lia|lia|auto|]. intros g' Hg' u Hu. eauto.
    + apply Hstep.
      * rewrite length_app. cbn. lia.
      * rewrite length_app. cbn. lia.
      * intros v Hv. apply in_app_or in Hv. destruct Hv as [Hv|[<-|[]]]; [auto|].
        right. exists (u :: rest). split; [eapply nth_error_In, Enth|left; reflexivity].
      * intros g' Hg' v Hv. apply insert_members in Hg'. destruct Hg' as [->|Hg'].
        -- exists (u :: rest). split; [eapply nth_error_In, Enth|right; exact Hv].
        -- eauto.
    + apply Hstep; [lia|lia|auto|]. intros g' Hg' u Hu. eauto.
Qed.

(** X27. [pickDiverseProducts] never returns more than [n] URLs, returns only
    URLs of the given products, and when it has to choose it stops after
    101 turns however large [n] is. *)
Theorem pickDiverseProducts_bounds (products : list ProductUrl) (n : nat) :
  List.length (pickDiverseProducts products n) <= n /\
  (forall u, In u (pickDiverseProducts products n) -> exists p, In p products /\ url p = u) /\
  (n < List.length products -> List.length (pickDiverseProducts products n) <= 101).
Proof.
  unfold pickDiverseProducts.
  destruct (Nat.leb_spec (List.length products) n) as [Hle|Hgt].
  - split; [rewrite length_map; exact Hle|]. split; [|lia].
    intros u Hu. apply in_map_iff in Hu. destruct Hu as (p & E & Hp). eauto.
  - destruct (url_groups_ok products) as (_ & Hok & _).
    destruct (pick_loop_bounds 101 n [] (map snd (fold_left group_product products [])) 0)
      as (R1 & R2 & R3); [cbn; lia|].
    split; [exact R1|]. split; [|intros _; exact R2].
    intros u Hu. destruct (R3 u Hu) as [[]|(g & Hg & Hug)].
    apply in_map_iff in Hg. destruct Hg as ([c us] & <- & Hin).
    rewrite Forall_forall in Hok. destruct (Hok _ (proj2 (list_elem_of_In _ _) Hin)) as [_ H].
    destruct (H u Hug) as (p & Hp & E & _). eauto.
Qed.


Lemma pick_loop_round n fuel :
  n <= 100 ->
  forall done todo : list (list string),
    List.length done <= n -> n <= List.length done + List.length todo ->
    n - List.length done < fuel ->
    Forall (fun g => g <> []) todo ->
    pick_loop fuel n (map (List.hd EmptyString) done) (map (@List.tl string) done ++ todo)
              (List.length done)
    = map (List.hd EmptyString) (take n (done ++ todo)).
Proof.
  intros Hn. induction fuel as [|fuel IH]; intros done todo Hd Hlen Hfuel Hne; [lia|].
  cbn [pick_loop]. rewrite length_map.
  destruct (Nat.ltb_spec (List.length done) n) as [Hlt|Hge]; cbn [negb].
  2:{ assert (E : n = List.length done) by lia. rewrite E.
      rewrite take_app_length. reflexivity. }
  destruct todo as [|g todo']; [cbn in Hlen; lia|].
  apply Forall_cons in Hne. destruct Hne as [Hg Hne].
  destruct g as [|u rest]; [congruence|].
  assert (Hidx : List.length done mod List.length (map (@List.tl string) done ++ (u :: rest) :: todo')
                 = List.length done).
  { apply Nat.mod_small. rewrite length_app, length_map. cbn. lia. }
  rewrite Hidx.
  assert (Hnth : nth_error (map (@List.tl string) done ++ (u :: rest) :: todo') (List.length done)
                 = Some (u :: rest)).
  { rewrite nth_error_app2; rewrite length_map; [|lia]. rewrite Nat.sub_diag. reflexivity. }
  rewrite Hnth.
  assert (Hins : <[List.length done := rest]> (map (@List.tl string) done ++ (u :: rest) :: todo')
                 = map (@List.tl string) (done ++ [u :: rest]) ++ todo').
  { rewrite insert_app_r_alt; rewrite length_map; [|lia]. rewrite Nat.sub_diag.
    rewrite map_app, <- List.app_assoc. reflexivity. }
  rewrite Hins.
  assert (Hpicked : map (List.hd EmptyString) done ++ [u]
                    = map (List.hd EmptyString) (done ++ [u :: rest])).
  { rewrite map_app. reflexivity. }
  rewrite Hpicked.
  assert (Hcap : Nat.ltb 100 (S (List.length done)) = false) by (apply Nat.ltb_ge; lia).
  rewrite Hcap. cbn [orb].
  assert (Hall : done ++ (u :: rest) :: todo' = (done ++ [u :: rest]) ++ todo').
  { rewrite <- List.app_assoc. reflexivity. }
  rewrite Hall.
  assert (Hlen' : List.length (done ++ [u :: rest]) = S (List.length done)).
  { rewrite length_app. cbn. lia. }
  destruct (forallb _ _) eqn:Eall.
  - destruct (Nat.eq_dec (S (List.length done)) n) as [E|Hlt'].
    + rewrite <- E, <- Hlen', take_app_length. reflexivity.
    + exfalso. destruct todo' as [|g2 todo'']; [cbn in Hlen; lia|].
      rewrite forallb_app in Eall. apply andb_true_iff in Eall. destruct Eall as [_ Eall].
      cbn in Eall. apply andb_true_iff in Eall. destruct Eall as [Eg2 _].
      apply Forall_cons in Hne. destruct Hne as [Hg2 _].
      destruct g2; [congruence|discriminate].
  - rewrite <- Hlen'. apply IH; rewrite ?Hlen'; cbn in Hlen; try lia. exact Hne.
Qed.

Lemma choose_one_per_group products (groups : UrlGroups) :
  Forall (url_group_ok products) groups ->
  exists chosen,
    map url chosen = map (List.hd EmptyString) (map snd groups) /\
    map category chosen = map fst groups /\
    forall p, In p chosen -> In p products.
Proof.
  induction groups as [|[c us] groups IH]; intros Hok.
  - exists []. repeat split. intros p [].
  - apply Forall_cons in Hok. destruct Hok as [[Hne Hg] Hok].
    destruct (IH Hok) as (chosen & E1 & E2 & E3).
    cbn [fst snd] in *. destruct us as [|u us]; [congruence|].
    destruct (Hg u (or_introl eq_refl)) as (p & Hp & Eu & Ec).
    exists (p :: chosen). cbn. rewrite E1, E2, Eu, Ec.
    split; [reflexivity|]. split; [reflexivity|].
    intros q [<-|Hq]; auto.
Qed.

(** X28. When there are more products than asked for, at most 100 are asked
    for and the products come from at least that many categories,
    [pickDiverseProducts] returns exactly [n] URLs, each of a product of
    the list, no two from the same category. *)
Theorem pickDiverseProducts_spreads (products : list ProductUrl) (n : nat) :
  n < List.length products -> n <= 100 ->
  n <= List.length (distinct (map category products)) ->
  exists chosen,
    map url chosen = pickDiverseProducts products n /\
    List.length chosen = n /\
    NoDup (map category chosen) /\
    forall p, In p chosen -> In p products.
Proof.
  intros Hmore Hcap Hcats. unfold pickDiverseProducts.
  destruct (Nat.leb_spec (List.length products) n) as [Hle|_]; [lia|].
  destruct (url_groups_ok products) as (Hnd & Hok & Hkeys).
  set (groups := fold_left group_product products []) in *.
  assert (Hlen : n <= List.length groups).
  { rewrite <- (length_map fst groups).
    etransitivity; [exact Hcats|]. apply List.NoDup_incl_length.
    - apply NoDup_ListNoDup, distinct_nodup.
    - intros c Hc. apply (proj1 (distinct_in _ _)) in Hc.
      apply in_map_iff in Hc. destruct Hc as (p & <- & Hp). apply Hkeys, Hp. }
  pose proof (pick_loop_round n 101 Hcap [] (map snd groups)) as Hloop.
  cbn [List.length map app] in Hloop. rewrite Hloop; cycle 1.
  - lia.
  - rewrite length_map. lia.
  - lia.
  - apply Forall_forall. intros g Hg. apply list_elem_of_In, in_map_iff in Hg.
    destruct Hg as (g0 & <- & Hin). rewrite Forall_forall in Hok.
    apply (Hok g0 (proj2 (list_elem_of_In _ _) Hin)).
  - assert (Hok' : Forall (url_group_ok products) (take n groups)).
    { apply Forall_forall. intros g Hg. rewrite Forall_forall in Hok. apply Hok.
      apply list_elem_of_In. apply list_elem_of_In in Hg. eapply take_in, Hg. }
    destruct (choose_one_per_group products (take n groups) Hok') as (chosen & E1 & E2 & E3).
    exists chosen. split; [|split; [|split]].
    + rewrite E1. rewrite <- (firstn_map snd). reflexivity.
    + rewrite <- (length_map category), E2, length_map, length_take. lia.
    + rewrite E2. rewrite <- (firstn_map fst). apply take_nodup, Hnd.
    + exact E3.
Qed.

Lemma pickDiverseProducts_spreads_witness :
  2 < List.length three_products /\ 2 <= 100 /\
  2 <= List.length (distinct (map category three_products)) /\
  exists chosen,
    map url chosen = pickDiverseProducts three_products 2 /\
    List.length chosen = 2 /\
    NoDup (map category chosen) /\
    forall p, In p chosen -> In p three_products.
Proof.
  assert (H1 : 2 < List.length three_products) by (cbn; lia).
  assert (H2 : 2 <= 100) by lia.
  assert (H3 : 2 <= List.length (distinct (map category three_products)))
    by (vm_compute; lia).
  split; [exact H1|]. split; [exact H2|]. split; [exact H3|].
  exact (pickDiverseProducts_spreads three_products 2 H1 H2 H3).
Defined.

End PickFacts.

(* ===================================================================== *)
(** ** A built pattern matches the paths it was built from *)
(* ===================================================================== *)

Module PatternFacts.
Import JsString Regex SharedTypes UrlRegistryBuilder PatternShape JsStringFacts RegexFacts
  CrawlEngineFacts ClusterFacts UrlRegistryBuilderMore Notions Examples.

(** *** Reading a pattern *)

Lemma parse_quant_head_ok rest : head_ok rest = true -> parse_quant rest = Some (None, rest).
Proof.
  destruct rest as [|c rest]; [reflexivity|]. cbn [head_ok]. intros H.
  apply negb_true_iff in H. repeat (apply orb_false_iff in H; destruct H as [H ?]).
  cbn [parse_quant]. rewrite H, H0, H1, H2. reflexivity.
Qed.

Lemma tokens_nil : tokens [] [].
Proof.
  split; [reflexivity|]. split; [congruence|]. intros f rest _. cbn.
  destruct (parse_alts f rest) as [[alts r]|]; reflexivity.
Qed.

Lemma head_ok_app a b : head_ok a = true -> (a = [] -> head_ok b = true) -> head_ok (a ++ b) = true.
Proof. destruct a; cbn; auto. Qed.

Lemma tokens_app ts1 cs1 ts2 cs2 :
  tokens ts1 cs1 -> tokens ts2 cs2 -> ts1 <> [] -> (ts2 = [] -> cs2 = []) ->
  tokens (ts1 ++ ts2) (cs1 ++ cs2).
Proof.
  intros (L1 & H1 & P1) (L2 & H2 & P2) Hne1 Hnil2.
  split; [rewrite !length_app; lia|]. split.
  - intros _. apply head_ok_app; [auto|]. intros ->. cbn in L1.
    destruct ts1; [congruence|cbn in L1; lia].
  - intros f rest Hrest. rewrite length_app, <- Nat.add_assoc, <- List.app_assoc.
    rewrite P1.
    + rewrite (P2 f rest Hrest).
      destruct (parse_alts f rest) as [[alts r]|]; [|reflexivity].
      cbn. rewrite fold_right_app. reflexivity.
    + destruct ts2 as [|t2 ts2'].
      * rewrite (Hnil2 eq_refl). exact Hrest.
      * apply head_ok_app; [apply H2; discriminate|].
        intros ->. cbn in L2. lia.
Qed.

(** One turn of the parser on a term that is no group. *)
Lemma parse_alts_term f c t atom q s1 s2 :
  Ascii.eqb c ")" = false -> Ascii.eqb c "|" = false ->
  parse_atom (parse_alts f) c t = Some (atom, true, s1) ->
  parse_quant s1 = Some (q, s2) ->
  parse_alts (S f) (c :: t)
  = '(alts, r) ← parse_alts f s2;
    Some (push_term (match q with Some q' => apply_quant q' atom | None => atom end) alts, r).
Proof.
  intros H1 H2 Ha Hq. cbn [parse_alts]. rewrite H1, H2, Ha. cbn -[parse_quant].
  rewrite Hq. cbn. destruct q; reflexivity.
Qed.

Lemma tokens_one t cs :
  (forall f rest, head_ok rest = true ->
     parse_alts (S f) (cs ++ rest)
     = '(alts, r) ← parse_alts f rest; Some (push_term t alts, r)) ->
  1 <= List.length cs -> head_ok cs = true -> tokens [t] cs.
Proof.
  intros H L Hh. split; [exact L|]. split; [auto|]. intros f rest Hrest.
  cbn [List.length Nat.add fold_right]. apply H, Hrest.
Qed.

Lemma tokens_slash : tokens [Chr (CChar "/")] ["\"; "/"]%char.
Proof.
  apply tokens_one; [|cbn; lia|reflexivity]. intros f rest Hrest.
  exact (parse_alts_term f "\" ("/" :: rest)%char (Chr (CChar "/")) None rest rest
           eq_refl eq_refl eq_refl (parse_quant_head_ok rest Hrest)).
Qed.

Lemma tokens_sku : tokens (part_terms PSku) (part_chars PSku).
Proof.
  apply tokens_one; [|cbn; lia|reflexivity]. intros f rest Hrest.
  exact (parse_alts_term f "[" (chars "A-Z0-9]{4,}" ++ rest) (Chr sku_class)
           (Some (QAtLeast 4)) (chars "{4,}" ++ rest) rest
           eq_refl eq_refl eq_refl eq_refl).
Qed.

Lemma tokens_wild : tokens (part_terms PWild) (part_chars PWild).
Proof.
  apply tokens_one; [|cbn; lia|reflexivity]. intros f rest Hrest.
  exact (parse_alts_term f "[" (chars "^/]+" ++ rest) (Chr wild_class)
           (Some QPlus) (chars "+" ++ rest) rest
           eq_refl eq_refl eq_refl eq_refl).
Qed.

Lemma tokens_char c : tokens [Chr (CChar c)] (lit_chars c).
Proof.
  apply tokens_one.
  - intros f rest Hrest. pose proof (parse_quant_head_ok rest Hrest) as Hq.
    destruct c as [[] [] [] [] [] [] [] []];
      match goal with
      | |- context [lit_chars ?c] =>
          let l := eval vm_compute in (lit_chars c) in
          change (lit_chars c) with l; cbn [app];
          apply (parse_alts_term f _ _ (Chr (CChar c)) None rest rest);
          [reflexivity|reflexivity|reflexivity|exact Hq]
      end.
  - unfold lit_chars. destruct (is_special c); cbn; lia.
  - destruct c as [[] [] [] [] [] [] [] []]; reflexivity.
Qed.

Lemma tokens_lit seg : tokens (part_terms (PLit seg)) (part_chars (PLit seg)).
Proof.
  induction seg as [|c seg IH]; [apply tokens_nil|].
  cbn [part_terms part_chars map flat_map] in *.
  apply (tokens_app [Chr (CChar c)] (lit_chars c)); [apply tokens_char|exact IH|discriminate|].
  destruct seg; [reflexivity|discriminate].
Qed.

Lemma tokens_part k : tokens (part_terms k) (part_chars k).
Proof. destruct k; [apply tokens_lit|apply tokens_sku|apply tokens_wild]. Qed.

Lemma part_terms_nil k : part_terms k = [] -> part_chars k = [].
Proof. destruct k as [[|c seg]| |]; cbn; congruence. Qed.

Lemma tokens_pattern ks : tokens (pattern_terms ks) (pattern_chars ks).
Proof.
  induction ks as [|k ks IH]; [apply tokens_nil|].
  cbn [pattern_terms pattern_chars flat_map] in *.
  change (Chr (CChar "/") :: part_terms k ++ flat_map (fun k => Chr (CChar "/") :: part_terms k) ks)
    with ((Chr (CChar "/") :: part_terms k) ++ flat_map (fun k => Chr (CChar "/") :: part_terms k) ks).
  change ("\"%char :: "/"%char :: part_chars k
          ++ flat_map (fun k => "\"%char :: "/"%char :: part_chars k) ks)
    with ((["\"%char; "/"%char] ++ part_chars k)
          ++ flat_map (fun k => "\"%char :: "/"%char :: part_chars k) ks).
  apply tokens_app.
  - apply (tokens_app [Chr (CChar "/")] ["\"%char; "/"%char]);
      [apply tokens_slash|apply tokens_part|discriminate|apply part_terms_nil].
  - exact IH.
  - discriminate.
  - destruct ks; [reflexivity|discriminate].
Qed.

Lemma build_single ts : build_alt (fold_right push_term [[]] ts) = build_seq ts.
Proof.
  assert (H : fold_right push_term [[]] ts = [ts]).
  { induction ts as [|t ts IH]; [reflexivity|]. cbn. rewrite IH. reflexivity. }
  rewrite H. reflexivity.
Qed.

(** A pattern of parts compiles to the sequence of its terms. *)
Lemma compile_pattern ks p :
  chars p = pattern_chars ks -> compile p = Some (build_seq (pattern_terms ks)).
Proof.
  intros E. unfold compile. rewrite E.
  destruct (tokens_pattern ks) as (L & _ & P).
  replace (S (List.length (pattern_chars ks)))
    with (List.length (pattern_terms ks)
          + S (List.length (pattern_chars ks) - List.length (pattern_terms ks))) by lia.
  rewrite <- (app_nil_r (pattern_chars ks)) at 2.
  rewrite P by reflexivity. cbn [parse_alts]. cbn. rewrite build_single. reflexivity.
Qed.

(** *** Matching a path *)

Lemma star_run cs k rest seg :
  forall fuel i, List.length seg <= fuel ->
    forallb (cset_mem cs) seg = true -> k (i + List.length seg) rest = true ->
    star_loop (m (Chr cs)) k fuel i (seg ++ rest) = true.
Proof.
  induction seg as [|c seg IH]; intros fuel i Hfuel Hall Hk.
  - cbn [List.length] in Hk. rewrite Nat.add_0_r in Hk. cbn [app].
    destruct fuel; cbn [star_loop]; [exact Hk|]. rewrite Hk.
    destruct (m (Chr cs) _ i rest); reflexivity.
  - destruct fuel as [|fuel]; [cbn in Hfuel; lia|].
    cbn [forallb] in Hall. apply andb_true_iff in Hall. destruct Hall as [Hc Hall].
    cbn [star_loop app m]. rewrite Hc.
    rewrite (proj2 (Nat.ltb_lt i (S i))) by lia.
    rewrite IH; [reflexivity|cbn in Hfuel; lia|exact Hall|].
    cbn [List.length] in Hk. rewrite <- Nat.add_succ_comm in Hk. exact Hk.
Qed.

Lemma power_star_run cs k rest n :
  forall seg i, n <= List.length seg ->
    forallb (cset_mem cs) seg = true -> k (i + List.length seg) rest = true ->
    m (power n (Chr cs) (Star (Chr cs))) k i (seg ++ rest) = true.
Proof.
  induction n as [|n IH]; intros seg i Hn Hall Hk.
  - cbn [power m]. apply star_run; [rewrite length_app; lia|exact Hall|exact Hk].
  - destruct seg as [|c seg]; [cbn in Hn; lia|].
    cbn [forallb] in Hall. apply andb_true_iff in Hall. destruct Hall as [Hc Hall].
    cbn [power m app]. rewrite Hc. apply IH; [cbn in Hn; lia|exact Hall|].
    cbn [List.length] in Hk. rewrite <- Nat.add_succ_comm in Hk. exact Hk.
Qed.

Lemma mseq_part kind seg ts k i rest :
  part_accepts kind seg ->
  mseq ts k (i + List.length seg) rest = true ->
  mseq (part_terms kind ++ ts) k i (seg ++ rest) = true.
Proof.
  destruct kind as [l| |]; cbn [part_accepts part_terms].
  - intros ->. revert i. induction l as [|c l IH]; intros i Hk.
    + cbn in *. rewrite Nat.add_0_r in Hk. exact Hk.
    + cbn [map app mseq m cset_mem]. rewrite Ascii.eqb_refl. apply IH.
      cbn [List.length] in Hk. rewrite <- Nat.add_succ_comm in Hk. exact Hk.
  - intros [Hlen Hall] Hk. cbn [app mseq]. apply power_star_run; assumption.
  - intros [Hlen Hall] Hk. cbn [app mseq]. apply power_star_run; assumption.
Qed.

Lemma mseq_pattern ks segs :
  Forall2 part_accepts ks segs ->
  forall k i rest,
    k (i + List.length (path_chars segs)) rest = true ->
    mseq (pattern_terms ks) k i (path_chars segs ++ rest) = true.
Proof.
  induction 1 as [|kind seg ks segs Hacc _ IH]; intros k i rest Hk.
  - cbn in *. rewrite Nat.add_0_r in Hk. exact Hk.
  - cbn [pattern_terms path_chars flat_map] in *.
    rewrite <- !app_comm_cons. cbn [mseq m cset_mem]. rewrite Ascii.eqb_refl.
    rewrite <- List.app_assoc. apply mseq_part; [exact Hacc|]. apply IH.
    cbn [List.length] in Hk. rewrite length_app in Hk.
    match goal with
    | |- k ?a rest = true =>
        replace a with (i + S (List.length seg
                               + List.length (flat_map (fun s => "/"%char :: s) segs)))
          by (unfold path_chars; lia)
    end.
    exact Hk.
Qed.

(** A pattern of parts matches every plain path whose segments the parts
    accept. *)
Lemma pattern_matches_path ks p path :
  chars p = pattern_chars ks ->
  Forall2 part_accepts ks (map chars (segments path)) ->
  is_plain path = true ->
  pattern_test p path = true.
Proof.
  intros Hp Hacc Hplain. unfold pattern_test. rewrite (compile_pattern ks p Hp).
  unfold test. apply starts_with_split in Hplain. destruct Hplain as (tail & E). rewrite E.
  assert (Hm : match_at (build_seq (pattern_terms ks)) 0
                        (path_chars (map chars (segments path)) ++ tail) = true).
  { unfold match_at. rewrite m_build_seq. apply mseq_pattern; [exact Hacc|reflexivity]. }
  destruct (path_chars (map chars (segments path)) ++ tail); cbn [search]; rewrite Hm;
    reflexivity.
Qed.

(** *** The text of a built pattern *)

Lemma chars_join_pattern ps ks :
  Forall2 (fun p k => chars p = part_chars k) ps ks -> ps <> [] ->
  chars ("\/" +:+ join "\/" ps) = pattern_chars ks.
Proof.
  induction 1 as [|p k ps ks Hp Hrest IH]; intros Hne; [congruence|].
  destruct Hrest as [|p2 k2 ps ks Hp2 Hrest].
  - cbn [join]. rewrite chars_append. cbn. rewrite Hp, app_nil_r. reflexivity.
  - change (join "\/" (p :: p2 :: ps)) with (p +:+ "\/" +:+ join "\/" (p2 :: ps)).
    rewrite chars_append, chars_append.
    rewrite (IH ltac:(discriminate)). cbn [pattern_chars flat_map].
    rewrite Hp. reflexivity.
Qed.

(** *** Path segments *)

Lemma forallb_rev {A} (p : A -> bool) l : forallb p (rev l) = forallb p l.
Proof.
  induction l as [|x l IH]; [reflexivity|].
  cbn. rewrite forallb_app, IH. cbn. rewrite andb_true_r. apply andb_comm.
Qed.

Lemma split_chars_no_sep sep cur s seg :
  forallb (fun c => negb (Ascii.eqb c sep)) cur = true ->
  In seg (split_chars sep cur s) ->
  forallb (fun c => negb (Ascii.eqb c sep)) (chars seg) = true.
Proof.
  revert cur. induction s as [|c s IH]; intros cur Hcur Hin.
  - cbn in Hin. destruct Hin as [<-|[]]. rewrite chars_of_chars, forallb_rev. exact Hcur.
  - cbn [split_chars] in Hin. destruct (Ascii.eqb c sep) eqn:E.
    + destruct Hin as [<-|Hin].
      * rewrite chars_of_chars, forallb_rev. exact Hcur.
      * apply (IH [] eq_refl Hin).
    + apply (IH (c :: cur)); [|exact Hin]. cbn. rewrite E, Hcur. reflexivity.
Qed.

Lemma wild_class_mem c : cset_mem wild_class c = negb (Ascii.eqb c "/").
Proof. destruct c as [[] [] [] [] [] [] [] []]; reflexivity. Qed.

Lemma segment_is_wild path seg :
  In seg (segments path) ->
  1 <= List.length (chars seg) /\ forallb (cset_mem wild_class) (chars seg) = true.
Proof.
  unfold segments. intros H. apply filter_In in H. destruct H as [Hin Htruthy]. split.
  - destruct seg; [discriminate|cbn; lia].
  - rewrite (forallb_pointwise _ (fun c => negb (Ascii.eqb c "/")) _ wild_class_mem).
    apply (split_chars_no_sep "/" [] (chars path)); [reflexivity|exact Hin].
Qed.

Lemma test_RE_SKU_SEGMENT s :
  Regex.test RE_SKU_SEGMENT s
  = Nat.leb 4 (List.length (chars s)) && forallb (cset_mem sku_class) (chars s).
Proof.
  change RE_SKU_SEGMENT
    with (Seq (Seq Bol (power 4 (Chr sku_class) (Star (Chr sku_class)))) Eol).
  unfold test. rewrite <- (m_at_least_at_end sku_class 4 0 (chars s)).
  set (r := Seq (Seq Bol (power 4 (Chr sku_class) (Star (Chr sku_class)))) Eol).
  assert (Hlater : forall i t, i <> 0 -> search r i t = false).
  { intros i t Hi. apply search_anchored_later; [|exact Hi].
    intros k j u Hj. cbn [m r]. destruct (Nat.eqb_spec j 0); [congruence|reflexivity]. }
  destruct (chars s) as [|c t]; cbn [search]; unfold match_at.
  - change (m r accept_all 0 [])
      with (m (power 4 (Chr sku_class) (Star (Chr sku_class))) at_end 0 []).
    destruct (m _ at_end 0 []); reflexivity.
  - change (m r accept_all 0 (c :: t))
      with (m (power 4 (Chr sku_class) (Star (Chr sku_class))) at_end 0 (c :: t)).
    rewrite Hlater by lia.
    destruct (m _ at_end 0 (c :: t)); reflexivity.
Qed.

Lemma distinct_single xs x :
  List.length (distinct xs) = 1 -> In x xs -> x = List.hd EmptyString xs.
Proof.
  intros Hlen Hin. destruct xs as [|h xs]; [destruct Hin|]. cbn [List.hd].
  apply (proj2 (distinct_in x (h :: xs))) in Hin. cbn [distinct] in Hin, Hlen.
  destruct (List.filter _ (distinct xs)); [|cbn in Hlen; lia].
  destruct Hin as [<-|[]]. reflexivity.
Qed.

Lemma part_kind_chars members i :
  chars (pattern_part members i) = part_chars (part_kind members i).
Proof.
  unfold pattern_part, part_kind.
  destruct (Nat.eqb _ 1); [apply chars_of_chars|].
  destruct (forallb _ _); reflexivity.
Qed.

Lemma part_kind_accepts members i seg :
  In seg (segment_values members i) -> part_accepts (part_kind members i) (chars seg).
Proof.
  intros Hin. unfold part_kind.
  destruct (Nat.eqb_spec (List.length (distinct (segment_values members i))) 1) as [E|_].
  - cbn. rewrite (distinct_single _ _ E Hin). reflexivity.
  - destruct (forallb _ _) eqn:Esku; cbn.
    + rewrite forallb_forall in Esku. specialize (Esku seg Hin).
      rewrite test_RE_SKU_SEGMENT in Esku. apply andb_true_iff in Esku.
      destruct Esku as [Hlen Hall]. apply Nat.leb_le in Hlen. auto.
    + unfold segment_values in Hin. apply filter_In in Hin. destruct Hin as [Hin _].
      apply list_elem_of_In, list_elem_of_omap in Hin. destruct Hin as (p & _ & Hnth).
      apply nth_error_In in Hnth. apply (segment_is_wild p seg Hnth).
Qed.

Lemma segment_value_of_member members i e seg :
  In e members -> nth_error (segments e) i = Some seg -> In seg (segment_values members i).
Proof.
  intros He Hnth. unfold segment_values. apply filter_In. split.
  - apply list_elem_of_In, list_elem_of_omap. exists e. split; [apply list_elem_of_In, He|exact Hnth].
  - apply nth_error_In in Hnth. unfold segments in Hnth. apply filter_In in Hnth. tauto.
Qed.

Lemma nth_error_is_lookup {A} (l : list A) i : nth_error l i = l !! i.
Proof. revert i. induction l as [|x l IH]; intros [|i]; cbn; auto. Qed.

Lemma lookup_map {A B} (f : A -> B) (l : list A) i : map f l !! i = f <$> (l !! i).
Proof. revert i. induction l as [|x l IH]; intros [|i]; cbn; auto. Qed.

Lemma cluster_parts_accept members d e :
  In e members -> List.length (segments e) = d ->
  Forall2 part_accepts (map (part_kind members) (seq 0 d)) (map chars (segments e)).
Proof.
  intros He Hd. apply Forall2_same_length_lookup_2.
  - rewrite !length_map, length_seq. lia.
  - intros i k cs Hk Hcs.
    rewrite lookup_map in Hk. rewrite lookup_map in Hcs.
    destruct (seq 0 d !! i) as [j|] eqn:Ej; [|discriminate].
    apply lookup_seq in Ej. destruct Ej as [-> _]. cbn in Hk. injection Hk as <-.
    destruct (segments e !! i) as [seg|] eqn:Eseg; [|discriminate].
    cbn in Hcs. injection Hcs as <-.
    apply part_kind_accepts, (segment_value_of_member members i e seg He).
    rewrite nth_error_is_lookup. exact Eseg.
Qed.

(** X29. The pattern of a cluster matches every example of the cluster that
    is a plain path. *)
Theorem cluster_pattern_matches_examples (paths : list string) (c : PathCluster) (e : string) :
  In c (omap cluster_of_group (fold_left group_path paths [])) ->
  In e (cluster_examples c) -> is_plain e = true ->
  Regex.pattern_test (cluster_pattern c) e = true.
Proof.
  intros Hc He Hplain.
  apply group_cluster_inv in Hc. destruct Hc as (sig & members & Hok & Hc).
  apply cluster_of_group_inv in Hc. destruct Hc as (_ & Hex & Hpat).
  rewrite Hex in He. apply take_in in He.
  destruct (Hok e He) as (_ & Hne & Hsig). cbn [fst] in Hsig.
  rewrite Hsig, signature_depth in Hpat.
  set (d := List.length (segments e)) in *.
  apply (pattern_matches_path (map (part_kind members) (seq 0 d))).
  - rewrite Hpat. apply chars_join_pattern.
    + apply Forall2_fmap, Forall_Forall2_diag, Forall_forall.
      intros i _. apply part_kind_chars.
    + assert (0 < d) by (subst d; destruct (segments e); [congruence|cbn; lia]).
      destruct d; [lia|discriminate].
  - apply cluster_parts_accept; [exact He|reflexivity].
  - exact Hplain.
Qed.

Section OwnPath.
Variable new_URL : string -> option WebUrl.URL.

(** X30. The URL pattern that [buildUrlPattern] derives from a page's URL
    matches that URL's own path, when the path is plain and has a
    segment. *)
Theorem url_pattern_matches_own_path (urlStr : string) (u : WebUrl.URL) :
  new_URL urlStr = Some u ->
  segments (WebUrl.pathname u) <> [] ->
  is_plain (WebUrl.pathname u) = true ->
  Regex.pattern_test (PageClassifier.buildUrlPattern new_URL urlStr) (WebUrl.pathname u) = true.
Proof.
  intros Hu Hne Hplain. unfold PageClassifier.buildUrlPattern. rewrite Hu.
  set (parts := segments (WebUrl.pathname u)) in *.
  destruct (Nat.eqb_spec (List.length parts) 0) as [E|_];
    [destruct parts; [congruence|discriminate]|].
  assert (Hsplit : exists init last, parts = init ++ [last] /\ drop_last parts = init).
  { destruct (exists_last Hne) as (init & last & E). exists init, last. split; [exact E|].
    unfold drop_last. rewrite E, length_app. cbn [List.length].
    replace (List.length init + 1 - 1) with (List.length init) by lia.
    apply take_app_length. }
  destruct Hsplit as (init & last & Eparts & Einit). rewrite Einit.
  apply (pattern_matches_path (map (fun p => PLit (chars p)) init ++ [PWild])).
  - rewrite chars_append. unfold pattern_chars. rewrite flat_map_app. f_equal.
    rewrite length_map. destruct init as [|p init]; [reflexivity|].
    cbn [List.length Nat.ltb Nat.leb].
    apply chars_join_pattern; [|discriminate].
    apply Forall2_fmap, Forall_Forall2_diag, Forall_forall.
    intros q _. apply chars_of_chars.
  - fold parts. rewrite Eparts, map_app. apply Forall2_app.
    + apply Forall2_fmap, Forall_Forall2_diag, Forall_forall. intros q _. reflexivity.
    + constructor; [|constructor]. apply (segment_is_wild (WebUrl.pathname u)).
      fold parts. rewrite Eparts. apply in_or_app. right. left. reflexivity.
  - exact Hplain.
Qed.

End OwnPath.

Lemma cluster_pattern_matches_examples_witness :
  In scenario_D_mattress (omap cluster_of_group (fold_left group_path scenario_D_paths [])) /\
  In "/mattress/b/SKU2" (cluster_examples scenario_D_mattress) /\
  is_plain "/mattress/b/SKU2" = true /\
  Regex.pattern_test (cluster_pattern scenario_D_mattress) "/mattress/b/SKU2" = true.
Proof.
  assert (H1 : In scenario_D_mattress
                  (omap cluster_of_group (fold_left group_path scenario_D_paths []))).
  { vm_compute. left. reflexivity. }
  assert (H2 : In "/mattress/b/SKU2" (cluster_examples scenario_D_mattress)).
  { cbn. right. left. reflexivity. }
  assert (H3 : is_plain "/mattress/b/SKU2" = true) by (vm_compute; reflexivity).
  split; [exact H1|]. split; [exact H2|]. split; [exact H3|].
  exact (cluster_pattern_matches_examples scenario_D_paths scenario_D_mattress
                                          "/mattress/b/SKU2" H1 H2 H3).
Defined.

Lemma url_pattern_matches_own_path_witness :
  WebUrl.parse "https://shop.example/beds/oak-bed?ref=nav" = Some oak_bed_url /\
  segments (WebUrl.pathname oak_bed_url) <> [] /\
  is_plain (WebUrl.pathname oak_bed_url) = true /\
  Regex.pattern_test
    (PageClassifier.buildUrlPattern WebUrl.parse "https://shop.example/beds/oak-bed?ref=nav")
    (WebUrl.pathname oak_bed_url) = true.
Proof.
  assert (H1 : WebUrl.parse "https://shop.example/beds/oak-bed?ref=nav" = Some oak_bed_url).
  { vm_compute. reflexivity. }
  assert (H2 : segments (WebUrl.pathname oak_bed_url) <> []) by (vm_compute; discriminate).
  assert (H3 : is_plain (WebUrl.pathname oak_bed_url) = true) by (vm_compute; reflexivity).
  split; [exact H1|]. split; [exact H2|]. split; [exact H3|].
  exact (url_pattern_matches_own_path WebUrl.parse
           "https://shop.example/beds/oak-bed?ref=nav" oak_bed_url H1 H2 H3).
Defined.

End PatternFacts.
